(** * SMARTFIT AI fitness tracker ([app.py]): metrics, progress and report

    The Streamlit script is embedded function by function.  Python [int]s are
    [Z], Python [float]s (and NumPy [float64]) are the kernel's binary64
    [float]s, so every arithmetic step below rounds exactly as the script
    does.  Calls that can raise return [res]; the top-level script is a
    computation in a small monad that records what was put on the page. *)

From Stdlib Require Import ZArith QArith Qpower Qabs Lqa Bool List String Ascii.
From Stdlib Require Import Floats Uint63 Lia.
From Stdlib Require Import DecimalString DecimalN DecimalZ.
Import ListNotations.

Local Open Scope string_scope.
Local Open Scope Z_scope.

(* ================================================================= *)
(** * Part I: definitions *)
(* ================================================================= *)

(** ** Python numbers and exceptions *)

Module Py.

Inductive exn : Type :=
| ZeroDivisionError
| OverflowError
| IndexError
| NameError
| LibraryError (msg : string).

Inductive res (A : Type) : Type :=
| Ok (a : A)
| Raise (e : exn).
Arguments Ok {A} a.
Arguments Raise {A} e.

Definition bind {A B : Type} (c : res A) (k : A -> res B) : res B :=
  match c with
  | Ok a => k a
  | Raise e => Raise e
  end.

(** A value that is an [int] on one path and a [float] on another, as the
    [return 0] branches of the script make it. *)
Inductive num : Type :=
| Int (z : Z)
| Float (f : float).

(** [float(z)].  The conversion is the machine one: exact up to [2^53] in
    absolute value, rounded to nearest-even up to [2^63]; every widget of
    the script has a range far inside the exact part. *)
Definition float_of_int (z : Z) : float :=
  if z <? 0 then PrimFloat.opp (of_uint63 (Uint63.of_Z (- z)))
  else of_uint63 (Uint63.of_Z z).

(** [a / b] on two [int]s: true division.  For operands that convert
    exactly CPython divides the two doubles. *)
Definition int_truediv (a b : Z) : res float :=
  if b =? 0 then Raise ZeroDivisionError
  else Ok (PrimFloat.div (float_of_int a) (float_of_int b)).

(** [a / x] with [a] an [int] and [x] a [float]. *)
Definition int_div_float (a : Z) (x : float) : res float :=
  if PrimFloat.eqb x 0%float then Raise ZeroDivisionError
  else Ok (PrimFloat.div (float_of_int a) x).

(** [x / b] with [x] a NumPy [float64] and [b] an [int]: NumPy divides
    without raising. *)
Definition float64_div_int (x : float) (b : Z) : float :=
  PrimFloat.div x (float_of_int b).

(** [x * n] with [x] a [float] and [n] an [int]. *)
Definition float_mul_int (x : float) (n : Z) : float :=
  PrimFloat.mul x (float_of_int n).

(** Comparisons of a [float] with an [int] literal; Python compares the
    two exactly, which for these small literals is the comparison with the
    converted literal. *)
Definition float_lt_int (x : float) (n : Z) : bool :=
  PrimFloat.ltb x (float_of_int n).
Definition int_le_float (n : Z) (x : float) : bool :=
  PrimFloat.leb (float_of_int n) x.

(** Integers that convert to [float] without rounding.  On such operands
    the definitions above are CPython's; they include every value a widget
    of the script can take. *)
Definition exact_int (z : Z) : Prop := - 2 ^ 53 <= z <= 2 ^ 53.

(** Order on values that may be an [int] or a [float]. *)
Definition num_to_float (x : num) : float :=
  match x with
  | Int z => float_of_int z
  | Float f => f
  end.
Definition num_ltb (x y : num) : bool :=
  PrimFloat.ltb (num_to_float x) (num_to_float y).
Definition num_leb (x y : num) : bool :=
  PrimFloat.leb (num_to_float x) (num_to_float y).

End Py.
Import Py.

Declare Scope py_scope.
Delimit Scope py_scope with py.
Notation "x <- c ;; k" := (Py.bind c (fun x => k))
  (at level 61, c at next level, right associativity) : py_scope.

(** ** What the script gets from outside *)

(** The C library's [pow] and the two objects unpickled at start-up
    ([scaler.pkl], [calories_model.pkl]) are not part of the repository. *)
Class Runtime : Type := {
  libm_pow : float -> float -> float;
  scaler_transform : list (list Z) -> res (list (list float));
  model_predict : list (list float) -> res (list float)
}.

(** [x ** 2].  CPython settles NaN, the infinities, zero and a base of
    absolute value 1.0 itself; otherwise it calls [pow] on the absolute value
    (the exponent is even) and turns an infinite result into
    [OverflowError]. *)
Definition float_pow2 `{Runtime} (x : float) : res float :=
  if PrimFloat.is_nan x then Ok x
  else if PrimFloat.is_infinity x then Ok infinity
  else if PrimFloat.eqb x 0%float then Ok 0%float
  else if PrimFloat.eqb (PrimFloat.abs x) 1%float then Ok 1%float
  else
    let r := libm_pow (PrimFloat.abs x) 2%float in
    if PrimFloat.is_infinity r then Raise OverflowError else Ok r.

(** ** The functions of [app.py] *)

(** The module-level widget values each function reads are its arguments
    here, under the names the script gives them. *)

Definition gender_code (gender : string) : Z :=
  if String.eqb gender "Female" then 0 else 1.

Definition input_data (age : Z) (gender : string)
    (height weight running_time running_speed distance heart_rate : Z)
  : list (list Z) :=
  [[age; gender_code gender; height; weight;
    running_time; running_speed; distance; heart_rate]].

Definition predict_calories `{Runtime} (age : Z) (gender : string)
    (height weight running_time running_speed distance heart_rate : Z)
  : res float :=
  (scaled <- scaler_transform
       (input_data age gender height weight
                   running_time running_speed distance heart_rate) ;;
   predicted <- model_predict scaled ;;
   match predicted with
   | calories_burned :: _ => Ok calories_burned
   | [] => Raise IndexError
   end)%py.

Definition calculate_bmi `{Runtime} (height weight : Z) : res float :=
  (h_m <- int_truediv height 100 ;;
   sq <- float_pow2 h_m ;;
   int_div_float weight sq)%py.

Definition calculate_workout_intensity (age heart_rate : Z) : res float :=
  (let max_heart_rate := 220 - age in
   ratio <- int_truediv heart_rate max_heart_rate ;;
   Ok (float_mul_int ratio 100))%py.

Definition calculate_running_speed (distance running_time : Z) : res num :=
  if running_time >? 0 then
    (hours <- int_truediv running_time 60 ;;
     speed <- int_div_float distance hours ;;
     Ok (Float speed))%py
  else Ok (Int 0).

Definition classify_bmi (bmi : float) : string :=
  if PrimFloat.ltb bmi 18.5%float then "Underweight"
  else if PrimFloat.leb 18.5%float bmi && float_lt_int bmi 25 then "Normal"
  else if int_le_float 25 bmi && float_lt_int bmi 30 then "Overweight"
  else "Obese".

Definition provide_suggestions (bmi : float) : string :=
  if PrimFloat.ltb bmi 18.5%float then
    "Increase calorie intake and do strength training."
  else if PrimFloat.leb 18.5%float bmi && float_lt_int bmi 25 then
    "Maintain current routine. Keep up the good work!"
  else if int_le_float 25 bmi && float_lt_int bmi 30 then
    "Incorporate more cardio and balanced diet."
  else "Consult a healthcare provider for a tailored fitness plan.".

(** The two blocks under "Track Progress". *)
Definition calories_progress (calories_burned : float) (goal_calories : Z)
  : num :=
  if goal_calories >? 0 then
    Float (float_mul_int (float64_div_int calories_burned goal_calories) 100)
  else Int 0.

Definition steps_progress (steps_taken goal_steps : Z) : res num :=
  if goal_steps >? 0 then
    (ratio <- int_truediv steps_taken goal_steps ;;
     Ok (Float (float_mul_int ratio 100)))%py
  else Ok (Int 0).

(** ** The script from top to bottom *)

(** One replacement field of an f-string. *)
Inductive piece : Type :=
| Fixed2 (x : num)    (* {x:.2f} *)
| Plain (z : Z)       (* {z} *)
| Text (s : string).  (* {s} *)

(** What a Streamlit call puts on the page.  An f-string is kept as its
    template and the values of its fields. *)
Inductive element : Type :=
| st_title (s : string)
| st_subheader (s : string)
| st_write (template : string) (fields : list piece)
| st_warning (s : string)
| st_bar_chart
| st_success (s : string).

(** What pandas makes of [calories_burned_data.csv] once it is read: the
    chart of one column, and the four [.mean()] lines of the comparison. *)
Record DataFrame : Type := {
  calories_chart : res unit;
  column_means : res (float * float * float * float)
}.

(** One run of the script: the widget values, the two buttons, the file
    system and the clock. *)
Record World : Type := {
  age : Z;
  gender : string;
  height : Z;
  weight : Z;
  running_time : Z;
  running_speed : Z;
  distance : Z;
  heart_rate : Z;
  goal_calories : Z;
  goal_steps : Z;
  steps_taken : Z;
  compare_button : bool;
  report_button : bool;
  read_csv : res DataFrame;
  now : string;
  (** [FPDF()] up to [pdf.output("fitness_report.pdf")], given the cells *)
  pdf_output : list (string * list piece) -> res unit
}.

(** The ranges the sidebar widgets enforce. *)
Definition in_range (w : World) : Prop :=
  10 <= age w <= 100 /\
  (gender w = "Female" \/ gender w = "Male") /\
  100 <= height w <= 250 /\
  30 <= weight w <= 150 /\
  0 <= running_time w <= 120 /\
  0 <= running_speed w <= 40 /\
  0 <= distance w <= 50 /\
  50 <= heart_rate w <= 200 /\
  0 <= goal_calories w <= 5000 /\
  0 <= goal_steps w <= 50000 /\
  0 <= steps_taken w <= 50000.

(** A statement of the script: it extends the page and either goes on or
    raises.  What is already on the page stays there. *)
Definition Script (A : Type) : Type := list element -> list element * res A.

Definition sret {A : Type} (a : A) : Script A := fun page => (page, Ok a).

Definition sbind {A B : Type} (c : Script A) (k : A -> Script B) : Script B :=
  fun page =>
    match c page with
    | (page', Ok a) => k a page'
    | (page', Raise e) => (page', Raise e)
    end.

Definition emit (e : element) : Script unit :=
  fun page => ((page ++ [e])%list, Ok tt).

Definition lift {A : Type} (r : res A) : Script A := fun page => (page, r).

(** [try: body except: handler], with a bare [except]. *)
Definition try_except (body handler : Script unit) : Script unit :=
  fun page =>
    match body page with
    | (page', Ok tt) => (page', Ok tt)
    | (page', Raise _) => handler page'
    end.

Definition when (b : bool) (body : Script unit) : Script unit :=
  if b then body else sret tt.

Declare Scope script_scope.
Delimit Scope script_scope with script.
Notation "x <- c ;; k" := (sbind c (fun x => k))
  (at level 61, c at next level, right associativity) : script_scope.
Notation "c ;; k" := (sbind c (fun _ => k))
  (at level 61, right associativity) : script_scope.

(** The values computed under "Display Metrics". *)
Record Metrics : Type := {
  calories_burned : float;
  bmi : float;
  intensity : float;
  speed : num;
  bmi_category : string;
  suggestion_text : string
}.

Definition compute_metrics `{Runtime} (w : World) : res Metrics :=
  (calories_burned <- predict_calories (age w) (gender w) (height w) (weight w)
                        (running_time w) (running_speed w) (distance w)
                        (heart_rate w) ;;
   bmi <- calculate_bmi (height w) (weight w) ;;
   intensity <- calculate_workout_intensity (age w) (heart_rate w) ;;
   speed <- calculate_running_speed (distance w) (running_time w) ;;
   Ok {| calories_burned := calories_burned;
         bmi := bmi;
         intensity := intensity;
         speed := speed;
         bmi_category := classify_bmi bmi;
         suggestion_text := provide_suggestions bmi |})%py.

Definition metric_lines (m : Metrics) : list element :=
  [ st_write "**Calories Burned:** {:.2f}" [Fixed2 (Float (calories_burned m))];
    st_write "**BMI:** {:.2f} ({})"
             [Fixed2 (Float (bmi m)); Text (bmi_category m)];
    st_write "**Workout Intensity:** {:.2f}%" [Fixed2 (Float (intensity m))];
    st_write "**Running Speed:** {:.2f} km/h" [Fixed2 (speed m)];
    st_write "**Fitness Suggestion:** {}" [Text (suggestion_text m)] ].

Fixpoint emit_all (l : list element) : Script unit :=
  match l with
  | [] => sret tt
  | e :: l' => (emit e ;; emit_all l')%script
  end.

Definition track_progress (w : World) (m : Metrics) : Script unit :=
  (let calories_progress := calories_progress (calories_burned m) (goal_calories w) in
   steps_progress <- lift (steps_progress (steps_taken w) (goal_steps w)) ;;
   emit (st_subheader "Progress") ;;
   emit (st_write "**Calories Progress:** {:.2f}%" [Fixed2 calories_progress]) ;;
   emit (st_write "**Steps Progress:** {:.2f}%" [Fixed2 steps_progress]))%script.

Definition show_data_analysis (w : World) : Script unit :=
  try_except
    (df <- lift (read_csv w) ;;
     emit (st_subheader "Calories Burned Distribution") ;;
     lift (calories_chart df) ;;
     emit st_bar_chart)%script
    (emit (st_warning
             "Dataset 'calories_burned_data.csv' not found for plotting.")).

Definition compare_with_averages (w : World) (m : Metrics) : Script unit :=
  when (compare_button w)
    (try_except
       (df <- lift (match read_csv w with
                    | Ok df => Ok df
                    | Raise _ => Raise NameError
                    end) ;;
        avg <- lift (column_means df) ;;
        let '(avg_calories_burned, avg_bmi, avg_running_speed, avg_heart_rate)
          := avg in
        emit (st_subheader "Comparison with Dataset Averages") ;;
        emit (st_write "**Your Calories Burned:** {:.2f} | Dataset Avg: {:.2f}"
                [Fixed2 (Float (calories_burned m));
                 Fixed2 (Float avg_calories_burned)]) ;;
        emit (st_write "**Your BMI:** {:.2f} | Dataset Avg: {:.2f}"
                [Fixed2 (Float (bmi m)); Fixed2 (Float avg_bmi)]) ;;
        emit (st_write "**Your Running Speed:** {:.2f} | Dataset Avg: {:.2f}"
                [Fixed2 (speed m); Fixed2 (Float avg_running_speed)]) ;;
        emit (st_write "**Your Heart Rate:** {:.2f} | Dataset Avg: {:.2f}"
                [Fixed2 (Int (heart_rate w)); Fixed2 (Float avg_heart_rate)]))%script
       (emit (st_warning "Dataset not available for comparison."))).

(** The cells of the PDF, in the order of the [pdf.cell] calls. *)
Definition report_cells (w : World) (m : Metrics) : list (string * list piece) :=
  [ ("SMARTFIT AI - Fitness Report", []);
    ("Date: {}", [Text (now w)]);
    ("------------------------------", []);
    ("Age: {}", [Plain (age w)]);
    ("Gender: {}", [Text (gender w)]);
    ("Height: {} cm", [Plain (height w)]);
    ("Weight: {} kg", [Plain (weight w)]);
    ("Calories Burned: {:.2f}", [Fixed2 (Float (calories_burned m))]);
    ("BMI: {:.2f} ({})", [Fixed2 (Float (bmi m)); Text (bmi_category m)]);
    ("Workout Intensity: {:.2f}%", [Fixed2 (Float (intensity m))]);
    ("Running Speed: {:.2f} km/h", [Fixed2 (speed m)]);
    ("Fitness Suggestion: {}", [Text (suggestion_text m)]) ].

Definition generate_pdf_report (w : World) (m : Metrics) : Script unit :=
  when (report_button w)
    (lift (pdf_output w (report_cells w m)) ;;
     emit (st_success "PDF report generated as fitness_report.pdf"))%script.

Definition script `{Runtime} (w : World) : Script unit :=
  (emit (st_title "SMARTFIT AI - Personal Fitness Tracker") ;;
   m <- lift (compute_metrics w) ;;
   emit (st_subheader "Your Fitness Metrics") ;;
   emit_all (metric_lines m) ;;
   track_progress w m ;;
   show_data_analysis w ;;
   compare_with_averages w m ;;
   generate_pdf_report w m)%script.

Definition run `{Runtime} (w : World) : list element * res unit := script w [].

(** ** The vocabulary of the specification *)

Definition categories : list string :=
  ["Underweight"; "Normal"; "Overweight"; "Obese"].

(** [suggestion(category)] as the specification words it: a table from the
    category to its advisory string. *)
Definition suggestion (category : string) : string :=
  if String.eqb category "Underweight" then
    "Increase calorie intake and do strength training."
  else if String.eqb category "Normal" then
    "Maintain current routine. Keep up the good work!"
  else if String.eqb category "Overweight" then
    "Incorporate more cardio and balanced diet."
  else "Consult a healthcare provider for a tailored fitness plan.".

(** [progress(actual, goal)] as the specification words it. *)
Definition progress (actual : float) (goal : Z) : num :=
  if goal >? 0 then
    Float (PrimFloat.mul (PrimFloat.div actual (float_of_int goal))
                         (float_of_int 100))
  else Int 0.

(** What is asked of the C library: on arguments whose square lies in the
    normal range, [pow(x, 2.0)] is a positive finite number. *)
Definition positive_finite (r : float) : bool :=
  PrimFloat.ltb 0%float r && PrimFloat.ltb r infinity.

Definition pow_in_range `{Runtime} : Prop :=
  forall x : float,
    PrimFloat.leb 0x1p-511%float x = true ->
    PrimFloat.leb x 0x1p+511%float = true ->
    positive_finite (libm_pow x 2%float) = true.

(** ** A runtime and a world to evaluate the definitions on *)

(** The square as the correctly rounded product, a scaler that only converts
    and a model that adds the features up. *)
Definition reference_runtime : Runtime := {|
  libm_pow := fun x y =>
    if PrimFloat.eqb y 2%float then PrimFloat.mul x x else nan;
  scaler_transform := fun rows => Ok (map (map float_of_int) rows);
  model_predict := fun rows =>
    Ok (map (fun row => fold_right PrimFloat.add 0%float row) rows)
|}.

(** The default position of every widget, no button pressed, no dataset. *)
Definition default_world : World := {|
  age := 25;
  gender := "Female";
  height := 170;
  weight := 70;
  running_time := 30;
  running_speed := 10;
  distance := 5;
  heart_rate := 80;
  goal_calories := 500;
  goal_steps := 5000;
  steps_taken := 2000;
  compare_button := false;
  report_button := false;
  read_csv := Raise (LibraryError "FileNotFoundError");
  now := "2024-01-01 00:00:00";
  pdf_output := fun _ => Ok tt
|}.


(** ** Binary64 values as integers and rationals *)

(** Every finite binary64 number is a multiple of [2^emin] with
    [emin = -1074]; [scaled x] is that multiple.  The infinities are given
    the first multiple no finite number reaches. *)
Definition scaled (x : spec_float) : Z :=
  match x with
  | S754_zero _ => 0
  | S754_infinity s => cond_Zopp s (2 ^ (emax - emin))
  | S754_nan => 0
  | S754_finite s m e => cond_Zopp s (Zpos m * 2 ^ (e - emin))
  end.

Definition is_nan_sf (x : spec_float) : bool :=
  match x with S754_nan => true | _ => false end.

Definition sign_sf (x : spec_float) : bool :=
  match x with
  | S754_zero s | S754_infinity s | S754_finite s _ _ => s
  | S754_nan => false
  end.

Definition float_scaled (f : float) : Z := scaled (Prim2SF f).

Definition top : Z := 2 ^ (emax - emin).

(** A float strictly between zero and infinity. *)
Definition pos_finite (c : float) : Prop := 0 < float_scaled c < top.

(** The rational a finite float stands for. *)
Definition float_value (f : float) : option Q :=
  match Prim2SF f with
  | S754_zero _ => Some 0%Q
  | S754_finite s m e => Some (inject_Z (cond_Zopp s (Zpos m)) * 2 ^ e)%Q
  | S754_infinity _ | S754_nan => None
  end.

(** ** Rounding, as [SpecFloat] performs it *)

(** The record [mrs] is what is left of the fraction [N / D] after
    truncation: its integer part, whether the rest is at least one half
    (round bit) and whether anything else remains (sticky bit). *)
Definition rep (N D : Z) (mrs : shr_record) : Prop :=
  shr_m mrs = N / D /\
  shr_r mrs = (D <=? 2 * (N mod D)) /\
  shr_s mrs = negb (N mod D =? 0) && negb (2 * (N mod D) =? D).

(** [N / D] rounded to the nearest integer, ties to even. *)
Definition rne (N D : Z) : Z :=
  let q := N / D in
  let r := N mod D in
  if 2 * r <? D then q
  else if D <? 2 * r then q + 1
  else if Z.even q then q else q + 1.

(** The exponent, the mantissa and the scaled value [binary_round_aux]
    arrives at for the exact value [N / D * 2^e]. *)
Definition round_exp (N D e : Z) : Z := fexp prec emax (Zdigits2 (N / D) + e).
Definition round_mant (N D e : Z) : Z := rne N (2 ^ (round_exp N D e - e) * D).
Definition round_val (N D e : Z) : Z :=
  round_mant N D e * 2 ^ (round_exp N D e - emin).

(** The exact value is given at least as finely as it will be rounded. *)
Definition round_pre (N D e : Z) : Prop :=
  0 <= N /\ 0 < D /\ e <= round_exp N D e.

(** [N1 / D1 * 2^e1 <= N2 / D2 * 2^e2], without fractions. *)
Definition val_le (N1 D1 e1 N2 D2 e2 : Z) : Prop :=
  N1 * D2 * 2 ^ (e1 - Z.min e1 e2) <= N2 * D1 * 2 ^ (e2 - Z.min e1 e2).

(** ** Start-up: the pickled objects *)

(** What [joblib.load] returns: an object on which the script may call
    [predict] or [transform]; a call the object does not support raises. *)
Record Pickle : Type := {
  predict : list (list float) -> res (list float);
  transform : list (list Z) -> res (list (list float))
}.

(** The five [joblib.load] lines at the top of the script, in their order. *)
Definition load_models (joblib_load : string -> res Pickle)
  : res (Pickle * Pickle * Pickle * Pickle * Pickle) :=
  (calories_model <- joblib_load "models/calories_model.pkl" ;;
   bmi_model <- joblib_load "models/bmi_model.pkl" ;;
   heart_rate_model <- joblib_load "models/heart_rate_model.pkl" ;;
   running_speed_model <- joblib_load "models/running_speed_model.pkl" ;;
   scaler <- joblib_load "models/scaler.pkl" ;;
   Ok (calories_model, bmi_model, heart_rate_model, running_speed_model,
       scaler))%py.

(** The five files, in the order of those lines. *)
Definition model_files : list string :=
  ["models/calories_model.pkl"; "models/bmi_model.pkl";
   "models/heart_rate_model.pkl"; "models/running_speed_model.pkl";
   "models/scaler.pkl"].

(** The functions below the loads use [scaler.transform] and
    [calories_model.predict]. *)
Definition loaded_runtime (pow : float -> float -> float)
    (calories_model scaler : Pickle) : Runtime := {|
  libm_pow := pow;
  scaler_transform := transform scaler;
  model_predict := predict calories_model
|}.

(** The whole file: the loads, then the page. *)
Definition app_py (pow : float -> float -> float)
    (joblib_load : string -> res Pickle) (w : World)
  : list element * res unit :=
  match load_models joblib_load with
  | Raise e => ([], Raise e)
  | Ok (calories_model, _, _, _, scaler) =>
      @run (loaded_runtime pow calories_model scaler) w
  end.

(** A world in which writing the PDF behaves differently. *)
Definition with_pdf_output (w : World)
    (f : list (string * list piece) -> res unit) : World := {|
  age := age w;
  gender := gender w;
  height := height w;
  weight := weight w;
  running_time := running_time w;
  running_speed := running_speed w;
  distance := distance w;
  heart_rate := heart_rate w;
  goal_calories := goal_calories w;
  goal_steps := goal_steps w;
  steps_taken := steps_taken w;
  compare_button := compare_button w;
  report_button := report_button w;
  read_csv := read_csv w;
  now := now w;
  pdf_output := f
|}.

(** A world in which the "Running Speed" slider stands elsewhere. *)
Definition with_running_speed (w : World) (v : Z) : World := {|
  age := age w;
  gender := gender w;
  height := height w;
  weight := weight w;
  running_time := running_time w;
  running_speed := v;
  distance := distance w;
  heart_rate := heart_rate w;
  goal_calories := goal_calories w;
  goal_steps := goal_steps w;
  steps_taken := steps_taken w;
  compare_button := compare_button w;
  report_button := report_button w;
  read_csv := read_csv w;
  now := now w;
  pdf_output := pdf_output w
|}.

(** ** What an f-string shows *)

(** [str(n)] for a natural number, and the two digits after the point. *)
Definition decimal (n : Z) : string :=
  NilZero.string_of_uint (N.to_uint (Z.to_N n)).

Definition two_digits (n : Z) : string :=
  if n <? 10 then "0" ++ decimal n else decimal n.

Definition sign_text (s : bool) : string := if s then "-" else "".

(** The magnitude [m * 2^e] times 100, rounded to the nearest integer with
    ties to even: [format] rounds the exact binary value. *)
Definition hundredths (m : positive) (e : Z) : Z :=
  rne (Zpos m * 100 * 2 ^ Z.max e 0) (2 ^ Z.max (- e) 0).

(** [format(x, '.2f')] on a [float]. *)
Definition format_float (x : float) : string :=
  match Prim2SF x with
  | S754_nan => "nan"
  | S754_infinity s => sign_text s ++ "inf"
  | S754_zero s => sign_text s ++ "0.00"
  | S754_finite s m e =>
      let c := hundredths m e in
      sign_text s ++ decimal (c / 100) ++ "." ++ two_digits (c mod 100)
  end.

(** [{x:.2f}]: an [int] is converted to [float] first. *)
Definition format_2f (x : num) : string := format_float (num_to_float x).

(** [{z}] on an [int]. *)
Definition str_int (z : Z) : string := NilZero.string_of_int (Z.to_int z).

Definition field_text (p : piece) : string :=
  match p with
  | Fixed2 x => format_2f x
  | Plain z => str_int z
  | Text s => s
  end.

(** The text of an f-string: each replacement field of the template, from
    its opening to its closing brace, gives way to the next value. *)
Fixpoint fill (inside : bool) (template : string) (fields : list piece)
  : string :=
  match template with
  | EmptyString => EmptyString
  | String c rest =>
      if inside then
        if Ascii.eqb c "}" then fill false rest fields
        else fill true rest fields
      else if Ascii.eqb c "{" then
        match fields with
        | f :: fields' => field_text f ++ fill true rest fields'
        | [] => fill true rest []
        end
      else String c (fill false rest fields)
  end.

Definition f_string (template : string) (fields : list piece) : string :=
  fill false template fields.

(** The text a page element carries. *)
Definition text_of (e : element) : string :=
  match e with
  | st_title s | st_subheader s | st_warning s | st_success s => s
  | st_write template fields => f_string template fields
  | st_bar_chart => ""
  end.

(** The hundredths [{x:.2f}] shows, with their sign; none for NaN and the
    infinities. *)
Definition shown_hundredths (x : float) : option Z :=
  match Prim2SF x with
  | S754_zero _ => Some 0
  | S754_finite s m e => Some (cond_Zopp s (hundredths m e))
  | S754_infinity _ | S754_nan => None
  end.

(** Reading a decimal number with two places back: an optional minus sign,
    digits, a point, two digits. *)
Definition digits_value (s : string) : option Z :=
  match NilZero.uint_of_string s with
  | Some d => Some (Z.of_N (N.of_uint d))
  | None => None
  end.

Fixpoint split_point (s : string) : option (string * string) :=
  match s with
  | EmptyString => None
  | String c rest =>
      if Ascii.eqb c "." then Some (EmptyString, rest)
      else match split_point rest with
           | Some (a, b) => Some (String c a, b)
           | None => None
           end
  end.

Definition read_unsigned_2f (s : string) : option Z :=
  match split_point s with
  | Some (whole, part) =>
      match digits_value whole, digits_value part with
      | Some a, Some b =>
          if (String.length part =? 2)%nat then Some (a * 100 + b) else None
      | _, _ => None
      end
  | None => None
  end.

(** The number read, in hundredths. *)
Definition read_2f (s : string) : option Z :=
  match s with
  | String c rest =>
      if Ascii.eqb c "-" then option_map Z.opp (read_unsigned_2f rest)
      else read_unsigned_2f s
  | EmptyString => None
  end.

(** ** Categories in their order, and checks over a range *)

Definition category_rank (category : string) : nat :=
  if String.eqb category "Underweight" then 0
  else if String.eqb category "Normal" then 1
  else if String.eqb category "Overweight" then 2
  else 3.

(** [p] holds on [lo], [lo + 1], ... ([n] values). *)
Fixpoint forall_from (lo : Z) (n : nat) (p : Z -> bool) : bool :=
  match n with
  | O => true
  | S n' => p lo && forall_from (lo + 1) n' p
  end.

Definition forall_range (lo hi : Z) (p : Z -> bool) : bool :=
  forall_from lo (Z.to_nat (hi - lo + 1)) p.

(** ** The page before the report *)

(** What the script has put on the page when it reaches "Generate PDF
    Report", the metrics being [m]. *)
Definition page_before_report (w : World) (m : Metrics) : list element :=
  fst ((emit_all (metric_lines m) ;;
        track_progress w m ;;
        show_data_analysis w ;;
        compare_with_averages w m)%script
         [st_title "SMARTFIT AI - Personal Fitness Tracker";
          st_subheader "Your Fitness Metrics"]).

(** The three lines under "Progress". *)
Definition progress_lines (w : World) (m : Metrics) : list element :=
  [ st_subheader "Progress";
    st_write "**Calories Progress:** {:.2f}%"
             [Fixed2 (calories_progress (calories_burned m) (goal_calories w))];
    st_write "**Steps Progress:** {:.2f}%"
             [Fixed2 (progress (float_of_int (steps_taken w)) (goal_steps w))] ].

(** A C library whose [pow] squares the heights of the slider as the
    multiplication does, that is, with correct rounding. *)
Definition pow_squares_heights `{Runtime} : Prop :=
  forall height : Z,
    100 <= height <= 250 ->
    let h_m := (float_of_int height / float_of_int 100)%float in
    libm_pow h_m 2%float = (h_m * h_m)%float.

(** ** More worlds to evaluate the definitions on *)

(** The default widgets with a dataset and the comparison asked for or
    not. *)
Definition with_dataset (csv : res DataFrame) (compare : bool) : World := {|
  age := 25;
  gender := "Female";
  height := 170;
  weight := 70;
  running_time := 30;
  running_speed := 10;
  distance := 5;
  heart_rate := 80;
  goal_calories := 500;
  goal_steps := 5000;
  steps_taken := 2000;
  compare_button := compare;
  report_button := false;
  read_csv := csv;
  now := "2024-01-01 00:00:00";
  pdf_output := fun _ => Ok tt
|}.

(** A file that is read but has none of the columns the script asks for. *)
Definition dataset_without_columns : DataFrame := {|
  calories_chart := Raise (LibraryError "KeyError");
  column_means := Raise (LibraryError "KeyError")
|}.

(** No run and no goals. *)
Definition idle_world : World := {|
  age := 25;
  gender := "Female";
  height := 170;
  weight := 70;
  running_time := 0;
  running_speed := 10;
  distance := 5;
  heart_rate := 80;
  goal_calories := 0;
  goal_steps := 0;
  steps_taken := 2000;
  compare_button := false;
  report_button := false;
  read_csv := Raise (LibraryError "FileNotFoundError");
  now := "2024-01-01 00:00:00";
  pdf_output := fun _ => Ok tt
|}.

(** Pickles that behave as the reference runtime, and a models directory
    from which [bmi_model.pkl] is missing and in which [scaler.pkl] is
    damaged. *)
Definition reference_pickle : Pickle := {|
  predict := @model_predict reference_runtime;
  transform := @scaler_transform reference_runtime
|}.

Definition broken_models (path : string) : res Pickle :=
  if String.eqb path "models/bmi_model.pkl"
  then Raise (LibraryError "FileNotFoundError")
  else if String.eqb path "models/scaler.pkl"
  then Raise (LibraryError "UnpicklingError")
  else Ok reference_pickle.



(* ================================================================= *)
(** * Part II: binary64 arithmetic *)
(* ================================================================= *)

(** The kernel's floats are specified by [FloatAxioms] through the
    [SpecFloat] operations.  This part derives from that specification what
    the program needs: comparisons of floats are comparisons of the numbers
    they stand for; multiplying or dividing by a positive finite float never
    reverses an order; a product or quotient that is exactly below (above)
    a float is rounded to a float below (above) it. *)

Module Binary64.

(** ** Digits and powers of two *)

Lemma emin_eq : emin = -1074.
Proof. reflexivity. Qed.

Ltac flia :=
  change (SpecFloat.emin prec emax) with (-1074) in *;
  change emax with 1024 in *;
  change prec with 53 in *;
  lia.

Lemma fexp_eq e : fexp prec emax e = Z.max (e - 53) (-1074).
Proof. reflexivity. Qed.

Lemma digits2_pos_size p : digits2_pos p = Pos.size p.
Proof. induction p; simpl; congruence. Qed.

Lemma digits2_pos_bounds p :
  2 ^ (Zpos (digits2_pos p) - 1) <= Zpos p < 2 ^ Zpos (digits2_pos p).
Proof.
  rewrite digits2_pos_size.
  pose proof (Pos.size_le p) as Hl. pose proof (Pos.size_gt p) as Hu.
  apply Pos2Z.pos_le_pos in Hl. apply Pos2Z.pos_lt_pos in Hu.
  rewrite Pos2Z.inj_pow in Hl, Hu. rewrite (Pos2Z.inj_xO p) in Hl.
  split; [|exact Hu].
  replace (Zpos (Pos.size p)) with (1 + (Zpos (Pos.size p) - 1)) in Hl by lia.
  rewrite Z.pow_add_r in Hl by lia. change (2 ^ 1) with 2 in Hl. lia.
Qed.

Lemma Zdigits2_bounds m :
  0 < m -> 1 <= Zdigits2 m /\ 2 ^ (Zdigits2 m - 1) <= m < 2 ^ Zdigits2 m.
Proof.
  destruct m as [|p|p]; try lia. intros _. simpl.
  split; [lia | apply digits2_pos_bounds].
Qed.

Lemma Zdigits2_nonneg m : 0 <= Zdigits2 m.
Proof. destruct m; simpl; lia. Qed.

Lemma Zdigits2_ub m : 0 <= m -> m < 2 ^ Zdigits2 m.
Proof.
  intros H. destruct (Z.eq_dec m 0) as [->|]; [simpl; lia|].
  apply Zdigits2_bounds; lia.
Qed.

Lemma pow2_le_mono a b : 0 <= a -> a <= b -> 2 ^ a <= 2 ^ b.
Proof. intros; apply Z.pow_le_mono_r; lia. Qed.

Lemma Zdigits2_ge m k : 0 <= k -> 2 ^ k <= m -> k + 1 <= Zdigits2 m.
Proof.
  intros Hk H.
  assert (0 < m) by (pose proof (Z.pow_pos_nonneg 2 k); lia).
  destruct (Zdigits2_bounds m) as (H1 & H2 & H3); auto.
  destruct (Z_lt_le_dec (Zdigits2 m) (k + 1)); [|lia].
  assert (2 ^ Zdigits2 m <= 2 ^ k) by (apply pow2_le_mono; lia). lia.
Qed.

Lemma Zdigits2_le m k : 0 <= k -> 0 <= m < 2 ^ k -> Zdigits2 m <= k.
Proof.
  intros Hk H.
  destruct (Z.eq_dec m 0) as [->|]; [simpl; lia|].
  destruct (Zdigits2_bounds m) as (H1 & H2 & H3); [lia|].
  destruct (Z_lt_le_dec k (Zdigits2 m)); [|lia].
  assert (2 ^ k <= 2 ^ (Zdigits2 m - 1)) by (apply pow2_le_mono; lia). lia.
Qed.

(** ** Canonical mantissas and the order of floats *)

(** A valid finite float has at most 53 digits, and exactly 53 unless its
    exponent is the least one. *)
Lemma bounded_inv m e :
  bounded prec emax m e = true ->
  emin <= e <= emax - prec /\ Zpos (digits2_pos m) <= 53 /\
  (e = emin \/ Zpos (digits2_pos m) = 53).
Proof.
  unfold bounded, canonical_mantissa. rewrite andb_true_iff, Z.eqb_eq, Z.leb_le.
  rewrite fexp_eq, emin_eq. unfold emax, prec. lia.
Qed.

Lemma bounded_mantissa m e :
  bounded prec emax m e = true ->
  Zpos m < 2 ^ 53 /\ (emin < e -> 2 ^ 52 <= Zpos m).
Proof.
  intros H. apply bounded_inv in H. destruct H as (He & Hd & Hc).
  pose proof (digits2_pos_bounds m) as [Hl Hu].
  split.
  - assert (2 ^ Zpos (digits2_pos m) <= 2 ^ 53) by (apply pow2_le_mono; lia). lia.
  - intros Hlt. destruct Hc as [Hc|Hc]; [lia|]. rewrite Hc in Hl. exact Hl.
Qed.

Lemma scaled_finite_pos m e :
  bounded prec emax m e = true ->
  0 < Zpos m * 2 ^ (e - emin) < 2 ^ (emax - emin).
Proof.
  intros H. pose proof (bounded_mantissa _ _ H) as [Hu _].
  apply bounded_inv in H. destruct H as (He & _).
  assert (0 < 2 ^ (e - emin)) by (apply Z.pow_pos_nonneg; lia).
  split; [lia|].
  assert (2 ^ (e - emin) <= 2 ^ (emax - prec - emin)) by (apply pow2_le_mono; lia).
  replace (emax - emin) with (53 + (emax - prec - emin)) by (unfold prec; lia).
  rewrite Z.pow_add_r by (rewrite ?emin_eq; unfold emax, prec; lia).
  apply Z.lt_le_trans with (2 ^ 53 * 2 ^ (e - emin)).
  - apply Z.mul_lt_mono_pos_r; assumption.
  - apply Z.mul_le_mono_nonneg_l; [apply Z.pow_nonneg; lia | assumption].
Qed.

Lemma finite_compare_lt m1 e1 m2 e2 :
  bounded prec emax m1 e1 = true -> bounded prec emax m2 e2 = true ->
  e1 < e2 -> Zpos m1 * 2 ^ (e1 - emin) < Zpos m2 * 2 ^ (e2 - emin).
Proof.
  intros H1 H2 Hlt.
  pose proof (bounded_mantissa _ _ H1) as [Hu1 _].
  pose proof (bounded_mantissa _ _ H2) as [_ Hl2].
  apply bounded_inv in H1, H2.
  replace (e2 - emin) with ((e2 - e1) + (e1 - emin)) by lia.
  rewrite Z.pow_add_r by lia.
  assert (0 < 2 ^ (e1 - emin)) by (apply Z.pow_pos_nonneg; lia).
  assert (2 ^ 1 <= 2 ^ (e2 - e1)) by (apply pow2_le_mono; lia).
  assert (2 ^ 52 <= Zpos m2) by (apply Hl2; lia).
  change (2 ^ 1) with 2 in *. change (2 ^ 53) with (2 * 2 ^ 52) in Hu1.
  assert (HA : 0 < 2 ^ 52) by reflexivity.
  clear H1 H2 Hl2 Hlt.
  revert Hu1 H H0 H3 HA. generalize (2 ^ 52) (2 ^ (e1 - emin)) (2 ^ (e2 - e1)).
  intros A P Q; intros.
  assert (2 * A <= Z.pos m2 * Q) by nia.
  rewrite Z.mul_assoc. apply Z.mul_lt_mono_pos_r; lia.
Qed.

Lemma compare_cont_Eq m1 m2 : Pos.compare_cont Eq m1 m2 = (Zpos m1 ?= Zpos m2).
Proof. reflexivity. Qed.

Lemma finite_compare m1 e1 m2 e2 :
  bounded prec emax m1 e1 = true -> bounded prec emax m2 e2 = true ->
  match e1 ?= e2 with
  | Lt => Lt | Gt => Gt | Eq => Pos.compare_cont Eq m1 m2 end
  = (Zpos m1 * 2 ^ (e1 - emin) ?= Zpos m2 * 2 ^ (e2 - emin)).
Proof.
  intros H1 H2. destruct (Z.compare_spec e1 e2) as [E|L|G].
  - subst e2. rewrite compare_cont_Eq.
    apply bounded_inv in H1.
    assert (0 < 2 ^ (e1 - emin)) by (apply Z.pow_pos_nonneg; lia).
    destruct (Z.compare_spec (Zpos m1) (Zpos m2)); symmetry;
      [apply Z.compare_eq_iff | apply Z.compare_lt_iff | apply Z.compare_gt_iff]; nia.
  - symmetry; apply Z.compare_lt_iff. now apply finite_compare_lt.
  - symmetry; apply Z.compare_gt_iff. now apply finite_compare_lt.
Qed.

Ltac cmp_solve :=
  apply f_equal; symmetry;
  first [ apply Z.compare_eq_iff; unfold cond_Zopp; lia
        | apply Z.compare_lt_iff; unfold cond_Zopp; lia
        | apply Z.compare_gt_iff; unfold cond_Zopp; lia ].

(** [SFcompare] compares the scaled values. *)
Lemma SFcompare_scaled x y :
  valid_binary x = true -> valid_binary y = true ->
  is_nan_sf x = false -> is_nan_sf y = false ->
  SFcompare x y = Some (scaled x ?= scaled y).
Proof.
  intros Vx Vy Nx Ny.
  assert (P2 : 0 < 2 ^ (emax - emin)) by reflexivity.
  destruct x as [sx|sx| |sx mx ex], y as [sy|sy| |sy my ey]; try discriminate;
    unfold valid_binary in Vx, Vy;
    try (pose proof (scaled_finite_pos _ _ Vx) as Px);
    try (pose proof (scaled_finite_pos _ _ Vy) as Py);
    unfold SFcompare, scaled.
  all: try (destruct sx; try destruct sy; cmp_solve; fail).
  all: try (destruct sy; cmp_solve; fail).
  apply f_equal. destruct sx, sy; unfold cond_Zopp.
  - rewrite Z.compare_opp.
    rewrite <- (finite_compare _ _ _ _ Vy Vx).
    rewrite (Z.compare_antisym ey ex).
    destruct (ey ?= ex); simpl; try reflexivity.
    rewrite !compare_cont_Eq. symmetry; apply Z.compare_antisym.
  - symmetry; apply Z.compare_lt_iff; lia.
  - symmetry; apply Z.compare_gt_iff; lia.
  - apply finite_compare; assumption.
Qed.

(** ** Truncation with round and sticky bits *)

Lemma div_mod_double N D :
  0 <= N -> 0 < D ->
  N / (2 * D) = (N / D) / 2 /\
  N mod (2 * D) = ((N / D) mod 2) * D + N mod D.
Proof.
  intros HN HD.
  pose proof (Z.div_mod N D ltac:(lia)) as E.
  pose proof (Z.mod_pos_bound N D HD) as B.
  pose proof (Z.div_mod (N / D) 2 ltac:(lia)) as E2.
  pose proof (Z.mod_pos_bound (N / D) 2 ltac:(lia)) as B2.
  assert (R : 0 <= (N / D) mod 2 * D + N mod D < 2 * D) by nia.
  assert (EQ : N = 2 * D * (N / D / 2) + ((N / D) mod 2 * D + N mod D)) by nia.
  split.
  - symmetry. apply (Z.div_unique_pos N (2 * D) _ _ R EQ).
  - symmetry. apply (Z.mod_unique_pos N (2 * D) _ _ R EQ).
Qed.

Ltac shr_fin HD B :=
  clear -HD B; revert B;
  match goal with |- context [?N mod ?D] => generalize (N mod D) end;
  intros t B; split; [reflexivity|]; split;
  [ symmetry; first [apply Z.leb_le; lia | apply Z.leb_gt; lia]
  | repeat match goal with
           | |- context [?a =? ?b] => destruct (Z.eqb_spec a b)
           end; cbn [negb andb]; try reflexivity; lia ].

(** One shift to the right halves the fraction. *)
Lemma shr_1_rep N D mrs :
  0 <= N -> 0 < D -> rep N D mrs -> rep N (2 * D) (shr_1 mrs).
Proof.
  intros HN HD (Hm & Hr & Hs).
  destruct (div_mod_double N D HN HD) as (Eq & Er).
  pose proof (Z.mod_pos_bound N D HD) as B.
  pose proof (Z.div_pos N D HN HD) as Q.
  pose proof (Z.div_mod (N / D) 2 ltac:(lia)) as E2.
  pose proof (Z.mod_pos_bound (N / D) 2 ltac:(lia)) as B2.
  unfold rep. rewrite Eq, Er.
  destruct mrs as [m r s]; cbn [shr_m shr_r shr_s] in Hm, Hr, Hs.
  assert (Hrs : (r || s)%bool = negb (N mod D =? 0)).
  { rewrite Hr, Hs. clear -HD B. revert B. generalize (N mod D). intros t B.
    destruct (Z.leb_spec D (2 * t)), (Z.eqb_spec t 0),
      (Z.eqb_spec (2 * t) D); cbn [negb andb orb]; try reflexivity; lia. }
  rewrite <- Hm in *.
  destruct m as [|[p|p|]|p]; simpl shr_1; unfold shr_m, shr_r, shr_s;
    try lia; rewrite Hrs.
  - change (0 / 2) with 0. change (0 mod 2) with 0. shr_fin HD B.
  - rewrite Pos2Z.inj_xI.
    assert (A1 : (2 * Z.pos p + 1) / 2 = Z.pos p) by lia.
    assert (A2 : (2 * Z.pos p + 1) mod 2 = 1) by lia.
    rewrite A1, A2. shr_fin HD B.
  - rewrite Pos2Z.inj_xO.
    assert (A1 : (2 * Z.pos p) / 2 = Z.pos p) by lia.
    assert (A2 : (2 * Z.pos p) mod 2 = 0) by lia.
    rewrite A1, A2. shr_fin HD B.
  - change (1 / 2) with 0. change (1 mod 2) with 1. shr_fin HD B.
Qed.

Lemma rep_ext N D D' mrs : D = D' -> rep N D mrs -> rep N D' mrs.
Proof. now intros ->. Qed.

Lemma iter_shr_1_rep p : forall N D mrs,
  0 <= N -> 0 < D -> rep N D mrs ->
  rep N (2 ^ Zpos p * D) (iter_pos shr_1 p mrs).
Proof.
  induction p as [p IH|p IH|]; intros N D mrs HN HD H; simpl iter_pos.
  - assert (0 < 2 ^ Zpos p) by (apply Z.pow_pos_nonneg; lia).
    apply (rep_ext N (2 ^ Zpos p * (2 ^ Zpos p * (2 * D)))).
    { rewrite (Pos2Z.inj_xI p).
      replace (2 * Z.pos p + 1) with (Z.pos p + Z.pos p + 1) by lia.
      rewrite !Z.pow_add_r by lia. change (2 ^ 1) with 2. ring. }
    apply IH; try lia; try nia. apply IH; try lia. now apply shr_1_rep.
  - assert (0 < 2 ^ Zpos p) by (apply Z.pow_pos_nonneg; lia).
    apply (rep_ext N (2 ^ Zpos p * (2 ^ Zpos p * D))).
    { rewrite (Pos2Z.inj_xO p).
      replace (2 * Z.pos p) with (Z.pos p + Z.pos p) by lia.
      rewrite !Z.pow_add_r by lia. ring. }
    apply IH; try lia; try nia. now apply IH.
  - change (2 ^ 1) with 2. now apply shr_1_rep.
Qed.

Lemma shr_rep N D mrs e k :
  0 <= N -> 0 < D -> 0 <= k -> rep N D mrs ->
  rep N (2 ^ k * D) (fst (shr mrs e k)) /\ snd (shr mrs e k) = e + k.
Proof.
  intros HN HD Hk H. destruct k as [|p|p]; try lia; cbn [shr fst snd].
  - split; [|lia]. apply (rep_ext N D); [change (2 ^ 0) with 1; lia|assumption].
  - split; [|reflexivity]. now apply iter_shr_1_rep.
Qed.

(** ** Rounding to nearest, ties to even, of [N / D] *)

Lemma rne_rep N D mrs :
  0 < D -> rep N D mrs ->
  round_nearest_even (shr_m mrs) (loc_of_shr_record mrs) = rne N D.
Proof.
  intros HD (Hm & Hr & Hs). unfold rne.
  pose proof (Z.mod_pos_bound N D HD) as B.
  destruct mrs as [m r s]; cbn [shr_m shr_r shr_s] in *. subst m.
  revert Hr Hs B. generalize (N mod D) (N / D). intros t q Hr Hs B.
  destruct (Z.ltb_spec (2 * t) D), (Z.ltb_spec D (2 * t));
    destruct (Z.leb_spec D (2 * t)), (Z.eqb_spec t 0), (Z.eqb_spec (2 * t) D);
    cbn [negb andb] in Hs; subst r s; cbn [loc_of_shr_record round_nearest_even];
    try reflexivity; lia.
Qed.

(** The rounded integer is within one half of the fraction, and even at a
    tie. *)
Lemma rne_spec N D :
  0 < D ->
  let n := rne N D in
  (2 * n - 1) * D <= 2 * N <= (2 * n + 1) * D /\
  (2 * N = (2 * n + 1) * D -> Z.even n = true) /\
  (2 * N = (2 * n - 1) * D -> Z.even n = true).
Proof.
  intros HD. unfold rne.
  pose proof (Z.mod_pos_bound N D HD) as B.
  pose proof (Z.div_mod N D ltac:(lia)) as E.
  revert B E. generalize (N mod D) (N / D). intros t q B E. subst N.
  destruct (Z.ltb_spec (2 * t) D); [|destruct (Z.ltb_spec D (2 * t))].
  - cbn zeta. repeat split; try nia.
  - cbn zeta. repeat split; try nia.
  - assert (T : 2 * t = D) by lia.
    destruct (Z.even q) eqn:Ev; cbn zeta.
    + repeat split; try nia. intros _. exact Ev.
    + repeat split; try nia. intros _.
      rewrite Z.even_add, Ev. reflexivity.
Qed.

Lemma rne_mono N1 D1 N2 D2 :
  0 < D1 -> 0 < D2 -> N1 * D2 <= N2 * D1 -> rne N1 D1 <= rne N2 D2.
Proof.
  intros H1 H2 H.
  destruct (rne_spec N1 D1 H1) as ((L1 & U1) & Tu1 & Tl1).
  destruct (rne_spec N2 D2 H2) as ((L2 & U2) & Tu2 & Tl2).
  cbn zeta in *.
  destruct (Z_le_gt_dec (rne N1 D1) (rne N2 D2)) as [|G]; [assumption|exfalso].
  revert L1 U1 Tu1 Tl1 L2 U2 Tu2 Tl2 G.
  generalize (rne N1 D1) (rne N2 D2). intros n1 n2; intros.
  assert (A : (2 * n2 + 1) * D1 * D2 <= 2 * N1 * D2) by nia.
  assert (B : 2 * N2 * D1 <= (2 * n2 + 1) * D1 * D2) by nia.
  assert (E2 : 2 * N2 = (2 * n2 + 1) * D2) by nia.
  assert (E1 : 2 * N1 * D2 = (2 * n2 + 1) * D1 * D2) by nia.
  assert (E1' : 2 * N1 = (2 * n2 + 1) * D1) by nia.
  assert (n1 = n2 + 1) by nia. subst n1.
  assert (Ev2 := Tu2 E2).
  assert (Ev1 : Z.even (n2 + 1) = true) by (apply Tl1; lia).
  rewrite Z.even_add, Ev2 in Ev1. discriminate.
Qed.

Lemma rne_exact B D : 0 < D -> rne (B * D) D = B.
Proof.
  intros HD. unfold rne. rewrite Z.div_mul, Z.mod_mul by lia.
  destruct (Z.ltb_spec (2 * 0) D); [reflexivity|lia].
Qed.

Lemma rne_le N D B : 0 < D -> N <= B * D -> rne N D <= B.
Proof.
  intros HD H. rewrite <- (rne_exact B D HD). apply rne_mono; try assumption. nia.
Qed.

Lemma rne_ge N D B : 0 < D -> B * D <= N -> B <= rne N D.
Proof.
  intros HD H. rewrite <- (rne_exact B D HD). apply rne_mono; try assumption. nia.
Qed.

Lemma rne_nonneg N D : 0 < D -> 0 <= N -> 0 <= rne N D.
Proof. intros HD HN. apply rne_ge; lia. Qed.

(** ** What [binary_round_aux] computes *)

Lemma shr_m_of_loc m l : shr_m (shr_record_of_loc m l) = m.
Proof. destruct l as [|[]]; reflexivity. Qed.

Lemma round_exp_ge N D e : emin <= round_exp N D e.
Proof. unfold round_exp. rewrite fexp_eq, emin_eq. lia. Qed.

Lemma round_mant_le N D e : round_pre N D e -> 0 <= round_mant N D e <= 2 ^ 53.
Proof.
  intros (HN & HD & Hk). unfold round_mant.
  set (E := round_exp N D e) in *.
  assert (P : 0 < 2 ^ (E - e)) by (apply Z.pow_pos_nonneg; lia).
  split; [apply rne_nonneg; nia|].
  apply rne_le; [nia|].
  pose proof (Z.div_pos N D HN HD) as Q.
  pose proof (Zdigits2_ub (N / D) Q) as U.
  pose proof (Zdigits2_nonneg (N / D)) as Dn.
  assert (N < (N / D + 1) * D).
  { pose proof (Z.div_mod N D ltac:(lia)). pose proof (Z.mod_pos_bound N D HD). nia. }
  assert (2 ^ Zdigits2 (N / D) <= 2 ^ (53 + (E - e))).
  { apply pow2_le_mono; [assumption|]. unfold E, round_exp. rewrite fexp_eq. lia. }
  rewrite Z.pow_add_r in H0 by lia.
  assert (N < 2 ^ Zdigits2 (N / D) * D) by nia.
  nia.
Qed.

Lemma round_mant_ge N D e :
  round_pre N D e -> emin < round_exp N D e -> 2 ^ 52 <= round_mant N D e.
Proof.
  intros (HN & HD & Hk) Hlt. unfold round_mant.
  set (E := round_exp N D e) in *.
  assert (P : 0 < 2 ^ (E - e)) by (apply Z.pow_pos_nonneg; lia).
  apply rne_ge; [nia|].
  pose proof (Z.div_pos N D HN HD) as Q.
  assert (HE : E = Zdigits2 (N / D) + e - 53).
  { unfold E, round_exp in *. rewrite fexp_eq in *. rewrite emin_eq in Hlt. lia. }
  assert (Hd : 53 <= Zdigits2 (N / D)) by lia.
  assert (Hpos : 0 < N / D).
  { destruct (Z.eq_dec (N / D) 0) as [Z0|]; [|lia]. rewrite Z0 in Hd. simpl in Hd. lia. }
  destruct (Zdigits2_bounds _ Hpos) as (_ & L & _).
  replace (Zdigits2 (N / D) - 1) with (52 + (E - e)) in L by lia.
  rewrite Z.pow_add_r in L by lia.
  assert (N / D * D <= N).
  { pose proof (Z.div_mod N D ltac:(lia)). pose proof (Z.mod_pos_bound N D HD). nia. }
  nia.
Qed.

Lemma shr_nonpos mrs e k : k <= 0 -> shr mrs e k = (mrs, e).
Proof. destruct k; try reflexivity. lia. Qed.

Lemma pow2_split a b : 0 <= a -> 0 <= b -> 2 ^ (a + b) = 2 ^ a * 2 ^ b.
Proof. intros; apply Z.pow_add_r; assumption. Qed.

(** [binary_round_aux] returns the float of scaled value [round_val],
    or the infinity when that is out of range. *)
Lemma binary_round_aux_scaled s m l N D e :
  round_pre N D e -> rep N D (shr_record_of_loc m l) ->
  is_nan_sf (binary_round_aux prec emax s m e l) = false /\
  scaled (binary_round_aux prec emax s m e l)
  = cond_Zopp s (Z.min (round_val N D e) (2 ^ (emax - emin))).
Proof.
  intros Hpre Hrep.
  pose proof (round_mant_le _ _ _ Hpre) as [Hn0 Hn53].
  pose proof (round_mant_ge _ _ _ Hpre) as Hn52.
  pose proof (round_exp_ge N D e) as HE.
  destruct Hpre as (HN & HD & Hk).
  assert (Hm : m = N / D).
  { destruct Hrep as (Hm & _). now rewrite shr_m_of_loc in Hm. }
  unfold binary_round_aux, shr_fexp.
  replace (fexp prec emax (Zdigits2 m + e)) with (round_exp N D e)
    by (unfold round_exp; now rewrite Hm).
  unfold round_val.
  set (E := round_exp N D e) in *.
  destruct (shr_rep N D (shr_record_of_loc m l) e (E - e) HN HD ltac:(lia) Hrep)
    as (Hrep' & He').
  destruct (shr (shr_record_of_loc m l) e (E - e)) as [mrs' e'].
  cbn [fst snd] in Hrep', He'.
  assert (He : e' = E) by lia. clear He'. subst e'.
  assert (PD : 0 < 2 ^ (E - e) * D).
  { assert (0 < 2 ^ (E - e)) by (apply Z.pow_pos_nonneg; lia). nia. }
  rewrite (rne_rep _ _ _ PD Hrep').
  change (rne N (2 ^ (E - e) * D)) with (round_mant N D e).
  set (n := round_mant N D e) in *.
  assert (PE : 0 < 2 ^ (E - emin)) by (apply Z.pow_pos_nonneg; lia).
  assert (TOP : 2 ^ (emax - emin) = 2 ^ 53 * 2 ^ (emax - prec - emin)) by reflexivity.
  destruct (Z.eq_dec n (2 ^ 53)) as [Hn|Hn].
  - (* the rounded mantissa carried into the next binade *)
    rewrite Hn.
    replace (fexp prec emax (Zdigits2 (2 ^ 53) + E) - E) with 1
      by (rewrite fexp_eq; change (Zdigits2 (2 ^ 53)) with 54; rewrite emin_eq in HE; lia).
    assert (S1 : shr (shr_record_of_loc (2 ^ 53) loc_Exact) E 1
                 = (Build_shr_record (Zpos (Pos.pow 2 52)) false false, E + 1))
      by reflexivity.
    rewrite S1. cbn [shr_m].
    assert (V : 2 ^ 53 * 2 ^ (E - emin) = Zpos (Pos.pow 2 52) * 2 ^ (E + 1 - emin)).
    { replace (E + 1 - emin) with (1 + (E - emin)) by lia.
      rewrite pow2_split by lia. change (2 ^ 53) with (Zpos (Pos.pow 2 52) * 2 ^ 1). ring. }
    destruct (Z.leb_spec (E + 1) (emax - prec)) as [Hle|Hgt].
    + split; [reflexivity|]. cbn [scaled]. f_equal. rewrite <- V.
      symmetry; apply Z.min_l. rewrite TOP.
      apply Z.mul_le_mono_nonneg_l; [apply Z.pow_nonneg; lia|].
      apply pow2_le_mono; flia.
    + split; [reflexivity|]. cbn [scaled]. f_equal.
      symmetry; apply Z.min_r. rewrite TOP.
      apply Z.mul_le_mono_nonneg_l; [apply Z.pow_nonneg; lia|].
      apply pow2_le_mono; flia.
  - (* no carry *)
    assert (Hlt : n < 2 ^ 53) by lia.
    assert (Hd : Zdigits2 n <= 53) by (apply Zdigits2_le; lia).
    rewrite shr_nonpos by (rewrite fexp_eq; rewrite emin_eq in HE; lia).
    rewrite shr_m_of_loc.
    destruct n as [|p|p] eqn:En; [| |lia].
    + split; [reflexivity|]. cbn [scaled]. rewrite Z.mul_0_l.
      rewrite Z.min_l by (apply Z.pow_nonneg; lia). now destruct s.
    + destruct (Z.leb_spec E (emax - prec)) as [Hle|Hgt].
      * split; [reflexivity|]. cbn [scaled]. f_equal.
        symmetry; apply Z.min_l. rewrite TOP.
        assert (2 ^ (E - emin) <= 2 ^ (emax - prec - emin)) by (apply pow2_le_mono; flia).
        apply Z.le_trans with (2 ^ 53 * 2 ^ (E - emin)).
        -- apply Z.mul_le_mono_nonneg_r; lia.
        -- apply Z.mul_le_mono_nonneg_l; [apply Z.pow_nonneg; lia|assumption].
      * split; [reflexivity|]. cbn [scaled]. f_equal.
        symmetry; apply Z.min_r.
        assert (L52 : 2 ^ 52 <= Z.pos p).
        { apply Hn52. flia. }
        replace (emax - emin) with (52 + (emax - prec + 1 - emin)) by reflexivity.
        rewrite pow2_split by flia.
        assert (2 ^ (emax - prec + 1 - emin) <= 2 ^ (E - emin)).
        { apply pow2_le_mono; flia. }
        apply Z.le_trans with (2 ^ 52 * 2 ^ (E - emin)).
        -- apply Z.mul_le_mono_nonneg_l; [apply Z.pow_nonneg; lia|assumption].
        -- apply Z.mul_le_mono_nonneg_r; lia.
Qed.

(** ** The rounded value is monotone in the exact value *)

(** The same inequality between two dyadic numbers, read at another
    common exponent. *)
Lemma pow2_rebase X Y a b a' b' :
  0 <= a -> 0 <= b -> 0 <= a' -> 0 <= b' -> a - b = a' - b' ->
  X * 2 ^ a <= Y * 2 ^ b -> X * 2 ^ a' <= Y * 2 ^ b'.
Proof.
  intros Ha Hb Ha' Hb' E H.
  destruct (Z_le_gt_dec a a') as [L|G].
  - replace a' with (a + (a' - a)) by lia. replace b' with (b + (a' - a)) by lia.
    rewrite !pow2_split by lia. rewrite !Z.mul_assoc.
    apply Z.mul_le_mono_nonneg_r; [apply Z.pow_nonneg; lia|assumption].
  - replace a with (a' + (a - a')) in H by lia.
    replace b with (b' + (a - a')) in H by lia.
    rewrite !pow2_split in H by lia. rewrite !Z.mul_assoc in H.
    apply Z.mul_le_mono_pos_r in H; [assumption|apply Z.pow_pos_nonneg; lia].
Qed.

Lemma round_exp_mono N1 D1 e1 N2 D2 e2 :
  round_pre N1 D1 e1 -> round_pre N2 D2 e2 -> val_le N1 D1 e1 N2 D2 e2 ->
  round_exp N1 D1 e1 <= round_exp N2 D2 e2.
Proof.
  intros (HN1 & HD1 & Hk1) (HN2 & HD2 & Hk2) H.
  pose proof (round_exp_ge N2 D2 e2) as G2.
  destruct (Z_le_gt_dec (round_exp N1 D1 e1) emin) as [|G1]; [lia|].
  unfold round_exp in *. rewrite !fexp_eq in *. rewrite ?fexp_eq.
  set (d1 := Zdigits2 (N1 / D1)) in *. set (d2 := Zdigits2 (N2 / D2)) in *.
  assert (Hd1 : 53 <= d1) by flia.
  destruct (Z_le_gt_dec (d1 + e1) (d2 + e2)) as [|C]; [lia|exfalso].
  pose proof (Z.div_pos N1 D1 HN1 HD1) as Q1.
  pose proof (Z.div_pos N2 D2 HN2 HD2) as Q2.
  assert (P1 : 0 < N1 / D1).
  { destruct (Z.eq_dec (N1 / D1) 0) as [Z0|]; [|lia].
    unfold d1 in Hd1. rewrite Z0 in Hd1. simpl in Hd1. lia. }
  destruct (Zdigits2_bounds _ P1) as (_ & L1 & _). fold d1 in L1.
  pose proof (Zdigits2_ub _ Q2) as U2. fold d2 in U2.
  pose proof (Zdigits2_nonneg (N2 / D2)) as Dn2. fold d2 in Dn2.
  assert (B1 : 2 ^ (d1 - 1) * D1 <= N1).
  { pose proof (Z.div_mod N1 D1 ltac:(lia)). pose proof (Z.mod_pos_bound N1 D1 HD1). nia. }
  assert (B2 : N2 < 2 ^ d2 * D2).
  { pose proof (Z.div_mod N2 D2 ltac:(lia)). pose proof (Z.mod_pos_bound N2 D2 HD2). nia. }
  unfold val_le in H.
  set (b := Z.min e1 e2) in *.
  assert (Hb1 : 0 <= e1 - b) by lia. assert (Hb2 : 0 <= e2 - b) by lia.
  assert (PW : 2 ^ (d2 + (e2 - b)) <= 2 ^ ((d1 - 1) + (e1 - b)))
    by (apply pow2_le_mono; lia).
  rewrite !pow2_split in PW by lia.
  assert (0 < 2 ^ (e1 - b)) by (apply Z.pow_pos_nonneg; lia).
  assert (0 < 2 ^ (e2 - b)) by (apply Z.pow_pos_nonneg; lia).
  assert (0 < 2 ^ (d1 - 1)) by (apply Z.pow_pos_nonneg; lia).
  assert (0 < 2 ^ d2) by (apply Z.pow_pos_nonneg; lia).
  revert H B1 B2 PW H0 H1 H2 H3.
  generalize (2 ^ (e1 - b)) (2 ^ (e2 - b)) (2 ^ (d1 - 1)) (2 ^ d2).
  intros pa pb pd1 pd2; intros.
  assert (S1 : pd1 * pa * (D1 * D2) <= N1 * D2 * pa) by nia.
  assert (S2 : N2 * D1 * pb < pd2 * pb * (D1 * D2)) by nia.
  assert (S3 : pd2 * pb * (D1 * D2) <= pd1 * pa * (D1 * D2)) by nia.
  lia.
Qed.

Lemma round_val_mono N1 D1 e1 N2 D2 e2 :
  round_pre N1 D1 e1 -> round_pre N2 D2 e2 -> val_le N1 D1 e1 N2 D2 e2 ->
  round_val N1 D1 e1 <= round_val N2 D2 e2.
Proof.
  intros P1 P2 H.
  pose proof (round_exp_mono _ _ _ _ _ _ P1 P2 H) as HE.
  pose proof (round_mant_le _ _ _ P1) as [L1 U1].
  pose proof (round_mant_le _ _ _ P2) as [L2 U2].
  pose proof (round_mant_ge _ _ _ P2) as G2.
  pose proof (round_exp_ge N1 D1 e1) as M1.
  pose proof (round_exp_ge N2 D2 e2) as M2.
  unfold round_val.
  destruct (Z.eq_dec (round_exp N1 D1 e1) (round_exp N2 D2 e2)) as [EQ|NE].
  - (* same exponent: the mantissas are ordered *)
    rewrite <- EQ. apply Z.mul_le_mono_nonneg_r; [apply Z.pow_nonneg; lia|].
    unfold round_mant. rewrite <- EQ.
    destruct P1 as (HN1 & HD1 & Hk1), P2 as (HN2 & HD2 & Hk2).
    set (E := round_exp N1 D1 e1) in *.
    assert (0 < 2 ^ (E - e1)) by (apply Z.pow_pos_nonneg; lia).
    assert (0 < 2 ^ (E - e2)) by (apply Z.pow_pos_nonneg; lia).
    apply rne_mono; try nia.
    unfold val_le in H.
    replace (N1 * (2 ^ (E - e2) * D2)) with (N1 * D2 * 2 ^ (E - e2)) by ring.
    replace (N2 * (2 ^ (E - e1) * D1)) with (N2 * D1 * 2 ^ (E - e1)) by ring.
    (* bring both sides to exponent [E] *)
    destruct (Z_le_gt_dec (E - e2) (e1 - Z.min e1 e2)).
    + apply (pow2_rebase _ _ (e1 - Z.min e1 e2) (e2 - Z.min e1 e2)); try lia.
    + apply (pow2_rebase _ _ (e1 - Z.min e1 e2) (e2 - Z.min e1 e2)); try lia.
  - (* a higher binade *)
    assert (LT : round_exp N1 D1 e1 < round_exp N2 D2 e2) by lia.
    assert (G : 2 ^ 52 <= round_mant N2 D2 e2) by (apply G2; lia).
    set (E1 := round_exp N1 D1 e1) in *. set (E2 := round_exp N2 D2 e2) in *.
    apply Z.le_trans with (2 ^ 53 * 2 ^ (E1 - emin)).
    { apply Z.mul_le_mono_nonneg_r; [apply Z.pow_nonneg; lia|assumption]. }
    apply Z.le_trans with (2 ^ 52 * 2 ^ (E2 - emin)).
    { change (2 ^ 53) with (2 ^ 52 * 2 ^ 1). rewrite <- Z.mul_assoc.
      apply Z.mul_le_mono_nonneg_l; [apply Z.pow_nonneg; lia|].
      rewrite <- pow2_split by lia. apply pow2_le_mono; lia. }
    apply Z.mul_le_mono_nonneg_r; [apply Z.pow_nonneg; lia|assumption].
Qed.

(** ** Signs *)

Lemma scaled_opp x : scaled (SFopp x) = - scaled x.
Proof.
  destruct x as [s|s| |s m e]; try reflexivity;
    destruct s; unfold SFopp, scaled, negb, cond_Zopp; lia.
Qed.

Lemma valid_opp x : valid_binary (SFopp x) = valid_binary x.
Proof. now destruct x. Qed.

Lemma is_nan_opp x : is_nan_sf (SFopp x) = is_nan_sf x.
Proof. now destruct x. Qed.

Lemma SFopp_involutive x : SFopp (SFopp x) = x.
Proof. destruct x as [s|s| |s m e]; cbn; now rewrite ?negb_involutive. Qed.

Lemma sign_opp x : is_nan_sf x = false -> sign_sf (SFopp x) = negb (sign_sf x).
Proof. now destruct x. Qed.

Lemma scaled_sign_false x :
  valid_binary x = true -> sign_sf x = false -> 0 <= scaled x.
Proof.
  intros V S. destruct x as [s|s| |s m e]; unfold sign_sf in S; subst;
    unfold scaled, cond_Zopp; try lia.
  all: try (apply Z.pow_nonneg; lia).
  all: pose proof (scaled_finite_pos _ _ V); lia.
Qed.

Lemma scaled_zero_inv x :
  valid_binary x = true -> is_nan_sf x = false -> scaled x = 0 ->
  exists s, x = S754_zero s.
Proof.
  intros V Nn S. destruct x as [s|s| |s m e]; try discriminate.
  - now exists s.
  - exfalso. assert (0 < 2 ^ (emax - emin)) by reflexivity.
    destruct s; unfold scaled, cond_Zopp in S; lia.
  - exfalso. pose proof (scaled_finite_pos _ _ V).
    destruct s; unfold scaled, cond_Zopp in S; lia.
Qed.

(** A sign-symmetric operation that is monotone on the non-negative floats
    is monotone everywhere. *)
Lemma signed_mono (G : spec_float -> spec_float) :
  (forall x, G (SFopp x) = SFopp (G x)) ->
  (forall s, scaled (G (S754_zero s)) = 0) ->
  (forall x1 x2,
      valid_binary x1 = true -> valid_binary x2 = true ->
      is_nan_sf x1 = false -> is_nan_sf x2 = false ->
      sign_sf x1 = false -> sign_sf x2 = false ->
      scaled x1 <= scaled x2 -> scaled (G x1) <= scaled (G x2)) ->
  forall x1 x2,
    valid_binary x1 = true -> valid_binary x2 = true ->
    is_nan_sf x1 = false -> is_nan_sf x2 = false ->
    scaled x1 <= scaled x2 -> scaled (G x1) <= scaled (G x2).
Proof.
  intros Hopp Hzero Hpos x1 x2 V1 V2 N1 N2 H.
  assert (Hnn : forall x, valid_binary x = true -> is_nan_sf x = false ->
                          sign_sf x = false -> 0 <= scaled (G x)).
  { intros x V Nn S. rewrite <- (Hzero false).
    apply Hpos; try assumption; try reflexivity.
    cbn. now apply scaled_sign_false. }
  destruct (sign_sf x1) eqn:S1, (sign_sf x2) eqn:S2.
  - rewrite <- (SFopp_involutive x1), <- (SFopp_involutive x2).
    rewrite (Hopp (SFopp x1)), (Hopp (SFopp x2)), !scaled_opp.
    apply Z.opp_le_mono. rewrite !Z.opp_involutive.
    apply Hpos; rewrite ?valid_opp, ?is_nan_opp, ?sign_opp, ?S1, ?S2; try easy.
    rewrite !scaled_opp. lia.
  - rewrite <- (SFopp_involutive x1), (Hopp (SFopp x1)), scaled_opp.
    assert (0 <= scaled (G (SFopp x1))).
    { apply Hnn; rewrite ?valid_opp, ?is_nan_opp, ?sign_opp, ?S1; easy. }
    assert (0 <= scaled (G x2)) by now apply Hnn.
    lia.
  - pose proof (scaled_sign_false _ V1 S1).
    assert (0 <= scaled (SFopp x2)).
    { apply scaled_sign_false; rewrite ?valid_opp, ?sign_opp, ?S2; easy. }
    rewrite scaled_opp in H1.
    destruct (scaled_zero_inv x1 V1 N1 ltac:(lia)) as [s1 ->].
    destruct (scaled_zero_inv x2 V2 N2 ltac:(lia)) as [s2 ->].
    rewrite !Hzero. lia.
  - now apply Hpos.
Qed.

(** ** Multiplication and division by a positive finite float *)

Lemma binary_round_aux_opp s m e l :
  binary_round_aux prec emax (negb s) m e l
  = SFopp (binary_round_aux prec emax s m e l).
Proof.
  unfold binary_round_aux.
  destruct (shr_fexp prec emax m e l) as [mrs' e'].
  destruct (shr_fexp prec emax _ e' loc_Exact) as [mrs'' e''].
  destruct (shr_m mrs''); try reflexivity.
  destruct (e'' <=? emax - prec); reflexivity.
Qed.

Lemma rep_exact N : rep N 1 (shr_record_of_loc N loc_Exact).
Proof.
  unfold rep. cbn [shr_record_of_loc shr_m shr_r shr_s].
  rewrite Z.div_1_r, Z.mod_1_r. repeat split.
Qed.

Lemma val_le_min a b c : a <= b -> Z.min a c <= Z.min b c.
Proof. lia. Qed.

Lemma mul_round_pre m1 e1 m2 e2 :
  bounded prec emax m1 e1 = true -> bounded prec emax m2 e2 = true ->
  round_pre (Zpos (m1 * m2)) 1 (e1 + e2).
Proof.
  intros B1 B2. unfold round_pre, round_exp. rewrite Z.div_1_r, fexp_eq.
  repeat split; try lia.
  apply bounded_inv in B1, B2.
  destruct B1 as (He1 & Hd1 & C1), B2 as (He2 & Hd2 & C2).
  pose proof (digits2_pos_bounds m1) as [L1 _].
  pose proof (digits2_pos_bounds m2) as [L2 _].
  set (d1 := Zpos (digits2_pos m1)) in *. set (d2 := Zpos (digits2_pos m2)) in *.
  assert (d1 + d2 - 1 <= Zdigits2 (Zpos (m1 * m2))).
  { replace (d1 + d2 - 1) with ((d1 - 1) + (d2 - 1) + 1) by lia.
    apply Zdigits2_ge; [lia|]. rewrite pow2_split by lia.
    rewrite Pos2Z.inj_mul. apply Z.mul_le_mono_nonneg; try assumption;
      apply Z.pow_nonneg; lia. }
  flia.
Qed.

Lemma SFmul_finite_scaled sx mx ex sc mc ec :
  bounded prec emax mx ex = true -> bounded prec emax mc ec = true ->
  let r := SFmul prec emax (S754_finite sx mx ex) (S754_finite sc mc ec) in
  is_nan_sf r = false /\
  scaled r = cond_Zopp (xorb sx sc)
               (Z.min (round_val (Zpos (mx * mc)) 1 (ex + ec)) (2 ^ (emax - emin))).
Proof.
  intros Bx Bc. cbn [SFmul].
  apply binary_round_aux_scaled; [now apply mul_round_pre | apply rep_exact].
Qed.

Lemma SFmul_opp_l x c :
  SFmul prec emax (SFopp x) c = SFopp (SFmul prec emax x c).
Proof.
  destruct x as [s|s| |s m e], c as [sc|sc| |sc mc ec]; cbn [SFopp SFmul];
    try reflexivity; try (now destruct s, sc).
  replace (xorb (negb s) sc) with (negb (xorb s sc)) by now destruct s, sc.
  apply binary_round_aux_opp.
Qed.

Lemma round_val_nonneg N D e : round_pre N D e -> 0 <= round_val N D e.
Proof.
  intros P. pose proof (round_mant_le _ _ _ P) as [L _].
  unfold round_val. apply Z.mul_nonneg_nonneg; [assumption|apply Z.pow_nonneg; lia].
Qed.

Lemma scaled_top_inv x :
  valid_binary x = true -> 2 ^ (emax - emin) <= scaled x -> x = S754_infinity false.
Proof.
  assert (0 < 2 ^ (emax - emin)) by reflexivity.
  intros V. destruct x as [s|s| |s m e]; unfold scaled, cond_Zopp; try lia.
  - destruct s; [lia|reflexivity].
  - pose proof (scaled_finite_pos _ _ V). destruct s; lia.
Qed.

Lemma scaled_finite_val_le m1 e1 m2 e2 a :
  bounded prec emax m1 e1 = true -> bounded prec emax m2 e2 = true ->
  Zpos m1 * 2 ^ (e1 - emin) <= Zpos m2 * 2 ^ (e2 - emin) ->
  forall b, b <= e1 + a -> b <= e2 + a ->
  Zpos m1 * 2 ^ (e1 + a - b) <= Zpos m2 * 2 ^ (e2 + a - b).
Proof.
  intros B1 B2 H b Hb1 Hb2. apply bounded_inv in B1, B2.
  apply (pow2_rebase _ _ (e1 - emin) (e2 - emin)); try lia; assumption.
Qed.

Lemma nonneg_cases x :
  valid_binary x = true -> is_nan_sf x = false -> sign_sf x = false ->
  x = S754_zero false \/ x = S754_infinity false \/
  exists m e, x = S754_finite false m e /\ bounded prec emax m e = true.
Proof.
  intros V Nn S. destruct x as [s|s| |s m e]; try discriminate;
    cbn [sign_sf] in S; subst s; auto.
  right; right. now exists m, e.
Qed.

Theorem SFmul_mono_l c x1 x2 :
  (exists mc ec, c = S754_finite false mc ec /\ bounded prec emax mc ec = true) ->
  valid_binary x1 = true -> valid_binary x2 = true ->
  is_nan_sf x1 = false -> is_nan_sf x2 = false ->
  scaled x1 <= scaled x2 ->
  scaled (SFmul prec emax x1 c) <= scaled (SFmul prec emax x2 c).
Proof.
  intros (mc & ec & -> & Bc).
  apply (signed_mono (fun x => SFmul prec emax x (S754_finite false mc ec))).
  - intros x. apply SFmul_opp_l.
  - intros s. reflexivity.
  - clear x1 x2. intros x1 x2 V1 V2 N1 N2 S1 S2 H.
    assert (TOP : 0 < 2 ^ (emax - emin)) by reflexivity.
    destruct (nonneg_cases x1 V1 N1 S1) as [->|[->|(m1 & e1 & -> & B1)]].
    + (* zero *)
      destruct (nonneg_cases x2 V2 N2 S2) as [->|[->|(m2 & e2 & -> & B2)]].
      * cbn [SFmul xorb scaled]. lia.
      * cbn [SFmul xorb scaled cond_Zopp]. lia.
      * destruct (SFmul_finite_scaled false m2 e2 false mc ec B2 Bc) as (_ & ->).
        cbn [SFmul xorb scaled cond_Zopp].
        pose proof (round_val_nonneg _ _ _ (mul_round_pre _ _ _ _ B2 Bc)). lia.
    + (* infinity *)
      rewrite (scaled_top_inv x2 V2 H). cbn [SFmul xorb scaled cond_Zopp]. lia.
    + (* finite *)
      destruct (SFmul_finite_scaled false m1 e1 false mc ec B1 Bc) as (_ & ->).
      destruct (nonneg_cases x2 V2 N2 S2) as [->|[->|(m2 & e2 & -> & B2)]].
      * exfalso. pose proof (scaled_finite_pos _ _ B1). cbn [scaled cond_Zopp] in H. lia.
      * cbn [SFmul xorb scaled cond_Zopp]. lia.
      * destruct (SFmul_finite_scaled false m2 e2 false mc ec B2 Bc) as (_ & ->).
        cbn [xorb cond_Zopp]. apply val_le_min.
        apply round_val_mono; try (now apply mul_round_pre).
        unfold val_le. rewrite !Z.mul_1_r, !Pos2Z.inj_mul.
        cbn [scaled cond_Zopp] in H.
        pose proof (scaled_finite_val_le _ _ _ _ ec B1 B2 H
                      (Z.min (e1 + ec) (e2 + ec)) ltac:(lia) ltac:(lia)) as H'.
        nia.
Qed.

Lemma new_location_rep N D :
  0 <= N -> 0 < D ->
  rep N D (shr_record_of_loc (N / D) (new_location D (N mod D))).
Proof.
  intros HN HD. pose proof (Z.mod_pos_bound N D HD) as B.
  unfold rep. rewrite shr_m_of_loc. split; [reflexivity|].
  revert B. generalize (N mod D). intros r B.
  unfold new_location, new_location_even, new_location_odd.
  destruct (Z.even D) eqn:Ev.
  - destruct (Z.eqb_spec r 0) as [->|Hr].
    + cbn. split; [symmetry; apply Z.leb_gt; lia | reflexivity].
    + destruct (Z.compare_spec (2 * r) D);
        cbn [shr_record_of_loc shr_r shr_s negb andb]; split;
        try (symmetry; first [apply Z.leb_le; lia | apply Z.leb_gt; lia]);
        destruct (Z.eqb_spec (2 * r) D); cbn [negb]; try reflexivity; lia.
  - assert (Od : Z.odd D = true) by (rewrite <- Z.negb_even, Ev; reflexivity).
    apply Z.odd_spec in Od. destruct Od as [k Hk].
    destruct (Z.eqb_spec r 0) as [->|Hr].
    + cbn. split; [symmetry; apply Z.leb_gt; lia | reflexivity].
    + destruct (Z.compare_spec (2 * r + 1) D);
        cbn [shr_record_of_loc shr_r shr_s negb andb]; split;
        try (symmetry; first [apply Z.leb_le; lia | apply Z.leb_gt; lia]);
        destruct (Z.eqb_spec (2 * r) D); cbn [negb]; try reflexivity; lia.
Qed.

Lemma div_eucl_div_mod a b : Z.div_eucl a b = (a / b, a mod b).
Proof. unfold Z.div, Z.modulo. now destruct (Z.div_eucl a b). Qed.

(** The quotient and remainder [SFdiv] starts from are those of the
    dividend shifted left by [s] places. *)
Lemma SFdiv_core_binary_spec m1 e1 m2 e2 :
  exists s, 0 <= s /\
    SFdiv_core_binary prec emax (Zpos m1) e1 (Zpos m2) e2
    = ((Zpos m1 * 2 ^ s) / Zpos m2, e1 - e2 - s,
       new_location (Zpos m2) ((Zpos m1 * 2 ^ s) mod Zpos m2)) /\
    round_pre (Zpos m1 * 2 ^ s) (Zpos m2) (e1 - e2 - s).
Proof.
  unfold SFdiv_core_binary.
  set (d1 := Zdigits2 (Zpos m1)). set (d2 := Zdigits2 (Zpos m2)).
  set (e' := Z.min (fexp prec emax (d1 + e1 - (d2 + e2))) (e1 - e2)).
  set (s := e1 - e2 - e').
  assert (Hs : 0 <= s) by (unfold s, e'; lia).
  exists s. split; [assumption|].
  assert (Hm' : match s with Z.pos _ => Z.shiftl (Zpos m1) s | 0 => Zpos m1 | Z.neg _ => 0 end
                = Zpos m1 * 2 ^ s).
  { destruct s as [|p|p] eqn:Es; [change (2 ^ 0) with 1; lia | | lia].
    apply Z.shiftl_mul_pow2. lia. }
  rewrite Hm', div_eucl_div_mod.
  replace (e1 - e2 - s) with e' by (unfold s; lia).
  split; [reflexivity|].
  assert (P2 : 0 < 2 ^ s) by (apply Z.pow_pos_nonneg; lia).
  unfold round_pre. repeat split; try lia.
  unfold round_exp. rewrite fexp_eq.
  destruct (Z_le_gt_dec e' (-1074)) as [|G]; [lia|].
  assert (He' : e' <= d1 + e1 - (d2 + e2) - 53).
  { unfold e' in *. rewrite fexp_eq in *. lia. }
  destruct (Zdigits2_bounds (Zpos m1) ltac:(lia)) as (D1 & L1 & _). fold d1 in D1, L1.
  destruct (Zdigits2_bounds (Zpos m2) ltac:(lia)) as (D2 & _ & U2). fold d2 in D2, U2.
  assert (Q : 2 ^ 52 <= Zpos m1 * 2 ^ s / Zpos m2).
  { apply Z.div_le_lower_bound; [lia|].
    assert (PW : 2 ^ (d2 + 52) <= 2 ^ ((d1 - 1) + s)) by (apply pow2_le_mono; unfold s; lia).
    rewrite !pow2_split in PW by lia.
    assert (0 < 2 ^ 52) by reflexivity.
    revert L1 U2 PW P2 H. generalize (2 ^ 52) (2 ^ d2) (2 ^ (d1 - 1)) (2 ^ s).
    intros a b c d; intros.
    assert (Z.pos m2 * a <= b * a) by nia.
    assert (c * d <= Z.pos m1 * d) by nia. lia. }
  pose proof (Zdigits2_ge _ 52 ltac:(lia) Q). lia.
Qed.

Lemma SFdiv_finite_scaled sx mx ex sc mc ec :
  exists s, 0 <= s /\
    round_pre (Zpos mx * 2 ^ s) (Zpos mc) (ex - ec - s) /\
    let r := SFdiv prec emax (S754_finite sx mx ex) (S754_finite sc mc ec) in
    is_nan_sf r = false /\
    scaled r = cond_Zopp (xorb sx sc)
                 (Z.min (round_val (Zpos mx * 2 ^ s) (Zpos mc) (ex - ec - s))
                        (2 ^ (emax - emin))).
Proof.
  destruct (SFdiv_core_binary_spec mx ex mc ec) as (s & Hs & Hcore & Hpre).
  exists s. split; [assumption|]. split; [assumption|].
  cbn [SFdiv]. rewrite Hcore.
  apply binary_round_aux_scaled; [assumption|].
  apply new_location_rep; [|lia].
  assert (0 < 2 ^ s) by (apply Z.pow_pos_nonneg; lia). nia.
Qed.

Lemma SFdiv_opp_l x sc mc ec :
  SFdiv prec emax (SFopp x) (S754_finite sc mc ec)
  = SFopp (SFdiv prec emax x (S754_finite sc mc ec)).
Proof.
  destruct x as [s|s| |s m e]; cbn [SFopp SFdiv];
    try reflexivity; try (now destruct s, sc).
  destruct (SFdiv_core_binary prec emax (Z.pos m) e (Z.pos mc) ec) as [[mz ez] lz].
  replace (xorb (negb s) sc) with (negb (xorb s sc)) by now destruct s, sc.
  apply binary_round_aux_opp.
Qed.

Theorem SFdiv_mono_l c x1 x2 :
  (exists mc ec, c = S754_finite false mc ec /\ bounded prec emax mc ec = true) ->
  valid_binary x1 = true -> valid_binary x2 = true ->
  is_nan_sf x1 = false -> is_nan_sf x2 = false ->
  scaled x1 <= scaled x2 ->
  scaled (SFdiv prec emax x1 c) <= scaled (SFdiv prec emax x2 c).
Proof.
  intros (mc & ec & -> & Bc).
  apply (signed_mono (fun x => SFdiv prec emax x (S754_finite false mc ec))).
  - intros x. apply SFdiv_opp_l.
  - intros s. reflexivity.
  - clear x1 x2. intros x1 x2 V1 V2 N1 N2 S1 S2 H.
    assert (TOP : 0 < 2 ^ (emax - emin)) by reflexivity.
    destruct (nonneg_cases x1 V1 N1 S1) as [->|[->|(m1 & e1 & -> & B1)]].
    + (* zero *)
      destruct (nonneg_cases x2 V2 N2 S2) as [->|[->|(m2 & e2 & -> & B2)]].
      * cbn [SFdiv xorb scaled]. lia.
      * cbn [SFdiv xorb scaled cond_Zopp]. lia.
      * destruct (SFdiv_finite_scaled false m2 e2 false mc ec) as (s2 & Hs2 & P2 & _ & ->).
        cbn [SFdiv xorb scaled cond_Zopp].
        pose proof (round_val_nonneg _ _ _ P2). lia.
    + (* infinity *)
      rewrite (scaled_top_inv x2 V2 H). cbn [SFdiv xorb scaled cond_Zopp]. lia.
    + (* finite *)
      destruct (SFdiv_finite_scaled false m1 e1 false mc ec) as (s1 & Hs1 & P1 & _ & ->).
      destruct (nonneg_cases x2 V2 N2 S2) as [->|[->|(m2 & e2 & -> & B2)]].
      * exfalso. pose proof (scaled_finite_pos _ _ B1). cbn [scaled cond_Zopp] in H. lia.
      * cbn [SFdiv xorb scaled cond_Zopp]. lia.
      * destruct (SFdiv_finite_scaled false m2 e2 false mc ec) as (s2 & Hs2 & P2 & _ & ->).
        cbn [xorb cond_Zopp]. apply val_le_min.
        apply round_val_mono; try assumption.
        unfold val_le. cbn [scaled cond_Zopp] in H.
        set (b := Z.min (e1 - ec - s1) (e2 - ec - s2)).
        pose proof (scaled_finite_val_le _ _ _ _ (- ec) B1 B2 H b
                      ltac:(unfold b; lia) ltac:(unfold b; lia)) as H'.
        replace (e1 + - ec - b) with (s1 + (e1 - ec - s1 - b)) in H' by lia.
        replace (e2 + - ec - b) with (s2 + (e2 - ec - s2 - b)) in H' by lia.
        rewrite !pow2_split in H' by (unfold b; lia).
        nia.
Qed.

Lemma SFmul_not_nan x sc mc ec :
  bounded prec emax mc ec = true -> valid_binary x = true ->
  is_nan_sf x = false ->
  is_nan_sf (SFmul prec emax x (S754_finite sc mc ec)) = false.
Proof.
  intros Bc V Nn. destruct x as [s|s| |s m e]; try discriminate; try reflexivity.
  now destruct (SFmul_finite_scaled s m e sc mc ec V Bc).
Qed.

Lemma SFdiv_not_nan x sc mc ec :
  is_nan_sf x = false ->
  is_nan_sf (SFdiv prec emax x (S754_finite sc mc ec)) = false.
Proof.
  intros Nn. destruct x as [s|s| |s m e]; try discriminate; try reflexivity.
  now destruct (SFdiv_finite_scaled s m e sc mc ec) as (? & _ & _ & ? & _).
Qed.

(** ** Primitive floats *)

Lemma is_nan_spec f : PrimFloat.is_nan f = is_nan_sf (Prim2SF f).
Proof.
  unfold PrimFloat.is_nan. rewrite FloatAxioms.eqb_spec. unfold SFeqb.
  pose proof (Prim2SF_valid f) as V.
  destruct (is_nan_sf (Prim2SF f)) eqn:Nn.
  - destruct (Prim2SF f); try discriminate. reflexivity.
  - rewrite (SFcompare_scaled _ _ V V Nn Nn), Z.compare_refl. reflexivity.
Qed.

Lemma leb_scaled a b :
  PrimFloat.is_nan a = false -> PrimFloat.is_nan b = false ->
  PrimFloat.leb a b = (float_scaled a <=? float_scaled b).
Proof.
  rewrite !is_nan_spec. intros Na Nb. rewrite FloatAxioms.leb_spec. unfold SFleb.
  rewrite (SFcompare_scaled _ _ (Prim2SF_valid a) (Prim2SF_valid b) Na Nb).
  unfold float_scaled, Z.leb. now destruct (_ ?= _).
Qed.

Lemma ltb_scaled a b :
  PrimFloat.is_nan a = false -> PrimFloat.is_nan b = false ->
  PrimFloat.ltb a b = (float_scaled a <? float_scaled b).
Proof.
  rewrite !is_nan_spec. intros Na Nb. rewrite FloatAxioms.ltb_spec. unfold SFltb.
  rewrite (SFcompare_scaled _ _ (Prim2SF_valid a) (Prim2SF_valid b) Na Nb).
  unfold float_scaled, Z.ltb. now destruct (_ ?= _).
Qed.

Lemma eqb_scaled a b :
  PrimFloat.is_nan a = false -> PrimFloat.is_nan b = false ->
  PrimFloat.eqb a b = (float_scaled a =? float_scaled b).
Proof.
  rewrite !is_nan_spec. intros Na Nb. rewrite FloatAxioms.eqb_spec. unfold SFeqb.
  rewrite (SFcompare_scaled _ _ (Prim2SF_valid a) (Prim2SF_valid b) Na Nb).
  unfold float_scaled, Z.eqb.
  destruct (Z.compare_spec (scaled (Prim2SF a)) (scaled (Prim2SF b))) as [E|L|G].
  - rewrite E. now destruct (scaled (Prim2SF b)); rewrite ?Pos.eqb_refl.
  - destruct (scaled (Prim2SF a)), (scaled (Prim2SF b)); try reflexivity; try lia;
      symmetry; apply Pos.eqb_neq; lia.
  - destruct (scaled (Prim2SF a)), (scaled (Prim2SF b)); try reflexivity; try lia;
      symmetry; apply Pos.eqb_neq; lia.
Qed.

Lemma pos_finite_inv c :
  pos_finite c ->
  exists mc ec, Prim2SF c = S754_finite false mc ec /\ bounded prec emax mc ec = true.
Proof.
  unfold pos_finite, float_scaled, top. intros [L U].
  pose proof (Prim2SF_valid c) as V.
  destruct (Prim2SF c) as [s|s| |s m e]; unfold scaled, cond_Zopp in *; try lia.
  - destruct s; lia.
  - destruct s.
    + pose proof (scaled_finite_pos _ _ V). lia.
    + now exists m, e.
Qed.

Lemma pos_finite_not_nan c : pos_finite c -> PrimFloat.is_nan c = false.
Proof.
  intros H. destruct (pos_finite_inv c H) as (m & e & E & _).
  now rewrite is_nan_spec, E.
Qed.

Theorem div_mono a1 a2 c :
  pos_finite c ->
  PrimFloat.is_nan a1 = false -> PrimFloat.is_nan a2 = false ->
  float_scaled a1 <= float_scaled a2 ->
  PrimFloat.is_nan (a1 / c)%float = false /\ PrimFloat.is_nan (a2 / c)%float = false /\
  float_scaled (a1 / c)%float <= float_scaled (a2 / c)%float.
Proof.
  intros Hc N1 N2 H. destruct (pos_finite_inv c Hc) as (mc & ec & Ec & Bc).
  rewrite !is_nan_spec in *. unfold float_scaled in *.
  rewrite !FloatAxioms.div_spec. unfold SF64div. rewrite Ec.
  repeat split; try (now apply SFdiv_not_nan).
  apply SFdiv_mono_l; try assumption; try apply Prim2SF_valid.
  now exists mc, ec.
Qed.

Theorem mul_mono a1 a2 c :
  pos_finite c ->
  PrimFloat.is_nan a1 = false -> PrimFloat.is_nan a2 = false ->
  float_scaled a1 <= float_scaled a2 ->
  PrimFloat.is_nan (a1 * c)%float = false /\ PrimFloat.is_nan (a2 * c)%float = false /\
  float_scaled (a1 * c)%float <= float_scaled (a2 * c)%float.
Proof.
  intros Hc N1 N2 H. destruct (pos_finite_inv c Hc) as (mc & ec & Ec & Bc).
  rewrite !is_nan_spec in *. unfold float_scaled in *.
  rewrite !FloatAxioms.mul_spec. unfold SF64mul. rewrite Ec.
  repeat split; try (apply SFmul_not_nan; try assumption; apply Prim2SF_valid).
  apply SFmul_mono_l; try assumption; try apply Prim2SF_valid.
  now exists mc, ec.
Qed.

(** ** Conversion of an integer *)

Lemma iter_xO_Z m d : Zpos (Pos.iter xO m d) = Zpos m * 2 ^ Zpos d.
Proof.
  induction d as [|d IH] using Pos.peano_ind.
  - cbn [Pos.iter]. rewrite Pos2Z.inj_xO. change (2 ^ 1) with 2. lia.
  - rewrite Pos.iter_succ, Pos2Z.inj_xO, IH, Pos2Z.inj_succ, Z.pow_succ_r by lia. ring.
Qed.

Lemma round_val_canonical m e :
  Zdigits2 m = 53 -> emin <= e -> round_val m 1 e = m * 2 ^ (e - emin).
Proof.
  intros Hd He. unfold round_val, round_mant, round_exp.
  rewrite Z.div_1_r, Hd, fexp_eq.
  replace (Z.max (53 + e - 53) (-1074)) with e by flia.
  rewrite Z.sub_diag. change (2 ^ 0 * 1) with 1.
  replace m with (m * 1) at 1 by lia. now rewrite rne_exact by lia.
Qed.

Lemma round_pre_canonical m e :
  0 <= m -> Zdigits2 m = 53 -> round_pre m 1 e.
Proof.
  intros Hm Hd. unfold round_pre, round_exp. rewrite Z.div_1_r, Hd, fexp_eq. lia.
Qed.

(** Integers up to [2^53] are converted without rounding. *)
Lemma binary_round_int p :
  Zpos p <= 2 ^ 53 ->
  is_nan_sf (binary_round prec emax false p 0) = false /\
  scaled (binary_round prec emax false p 0) = Zpos p * 2 ^ (- emin).
Proof.
  intros Hp.
  destruct (Z.eq_dec (Zpos p) (2 ^ 53)) as [E|NE].
  - assert (p = Pos.pow 2 53) as -> by (apply Pos2Z.inj; exact E).
    split; vm_compute; reflexivity.
  - assert (Hlt : Zpos p < 2 ^ 53) by lia.
    pose proof (Zdigits2_le (Zpos p) 53 ltac:(lia) ltac:(lia)) as Hd.
    destruct (Zdigits2_bounds (Zpos p) ltac:(lia)) as (Hd1 & _).
    cbn [Zdigits2] in Hd, Hd1.
    unfold binary_round, shl_align. rewrite fexp_eq, Z.add_0_r, Z.sub_0_r.
    replace (Z.max (Z.pos (digits2_pos p) - 53) (-1074))
      with (Z.pos (digits2_pos p) - 53) by lia.
    destruct (Z.pos (digits2_pos p) - 53) as [|d|d] eqn:Ed; try lia.
    + (* already 53 digits *)
      assert (D53 : Zdigits2 (Zpos p) = 53) by (cbn [Zdigits2]; lia).
      destruct (binary_round_aux_scaled false (Zpos p) loc_Exact (Zpos p) 1 0
                  (round_pre_canonical (Zpos p) 0 ltac:(lia) D53) (rep_exact _)) as (Nn & Sc).
      split; [assumption|]. rewrite Sc, round_val_canonical by (assumption || flia).
      cbn [cond_Zopp]. rewrite Z.sub_0_l. apply Z.min_l.
      change (2 ^ (emax - emin)) with (2 ^ 1024 * 2 ^ (- emin)).
      apply Z.mul_le_mono_nonneg_r; [apply Z.pow_nonneg; lia|].
      assert (2 ^ 53 <= 2 ^ 1024) by (apply pow2_le_mono; lia). lia.
    + (* fewer digits: the mantissa is shifted left *)
      assert (D53 : Zdigits2 (Zpos (Pos.iter xO p d)) = 53).
      { rewrite iter_xO_Z.
        pose proof (digits2_pos_bounds p) as [L U].
        assert (P : 0 < 2 ^ Zpos d) by (apply Z.pow_pos_nonneg; lia).
        apply Z.le_antisymm.
        - apply Zdigits2_le; [lia|]. split; [lia|].
          replace 53 with (Zpos (digits2_pos p) + Zpos d) by lia.
          rewrite pow2_split by lia. nia.
        - replace 53 with (52 + 1) by lia. apply Zdigits2_ge; [lia|].
          replace 52 with ((Zpos (digits2_pos p) - 1) + Zpos d) by lia.
          rewrite pow2_split by lia. nia. }
      destruct (binary_round_aux_scaled false (Zpos (Pos.iter xO p d)) loc_Exact
                  (Zpos (Pos.iter xO p d)) 1 (Z.neg d)
                  (round_pre_canonical (Zpos (Pos.iter xO p d)) (Z.neg d) ltac:(lia) D53)
                  (rep_exact _)) as (Nn & Sc).
      split; [assumption|]. rewrite Sc, round_val_canonical by (assumption || flia).
      cbn [cond_Zopp]. rewrite iter_xO_Z.
      assert (EQ : Zpos p * 2 ^ Zpos d * 2 ^ (Z.neg d - emin) = Zpos p * 2 ^ (- emin)).
      { rewrite <- Z.mul_assoc, <- pow2_split by flia. f_equal. f_equal. lia. }
      rewrite EQ. apply Z.min_l.
      change (2 ^ (emax - emin)) with (2 ^ 1024 * 2 ^ (- emin)).
      apply Z.mul_le_mono_nonneg_r; [apply Z.pow_nonneg; lia|].
      assert (2 ^ 53 <= 2 ^ 1024) by (apply pow2_le_mono; lia). lia.
Qed.

Lemma float_of_int_scaled n :
  0 <= n <= 2 ^ 53 ->
  PrimFloat.is_nan (float_of_int n) = false /\
  float_scaled (float_of_int n) = n * 2 ^ (- emin).
Proof.
  intros Hn. unfold float_of_int, float_scaled.
  destruct (Z.ltb_spec n 0); [lia|].
  rewrite is_nan_spec, of_uint63_spec, Uint63.of_Z_spec.
  assert (2 ^ 53 < wB) by reflexivity.
  rewrite Z.mod_small by lia.
  destruct n as [|p|p]; try lia.
  - split; reflexivity.
  - cbn [binary_normalize]. apply binary_round_int. lia.
Qed.

(** ** Rounding respects bounds that are themselves floats *)

(** [K * 2^(-j)] with [0 < K < 2^53] is a binary64 number; a quotient or a
    product that is exactly below (above) it is rounded to a float below
    (above) it. *)

Lemma Zdigits2_shift K t :
  0 < K -> 0 <= t -> Zdigits2 (K * 2 ^ t) = Zdigits2 K + t.
Proof.
  intros HK Ht.
  destruct (Zdigits2_bounds K HK) as (D1 & L & U).
  assert (P : 0 < 2 ^ t) by (apply Z.pow_pos_nonneg; lia).
  apply Z.le_antisymm.
  - apply Zdigits2_le; [lia|]. split; [nia|].
    rewrite pow2_split by lia. nia.
  - replace (Zdigits2 K + t) with ((Zdigits2 K - 1 + t) + 1) by lia.
    apply Zdigits2_ge; [lia|]. rewrite pow2_split by lia. nia.
Qed.

Lemma val_le_scale_r N D e K e1 t :
  0 <= N -> 0 < D -> 0 <= K -> 0 <= t ->
  val_le N D e K 1 e1 -> val_le N D e (K * 2 ^ t) 1 (e1 - t).
Proof.
  unfold val_le. intros HN HD HK Ht H.
  set (b := Z.min e e1) in *. set (b' := Z.min e (e1 - t)).
  assert (Hb : b' <= b) by (unfold b, b'; lia).
  replace (e - b') with ((e - b) + (b - b')) by lia.
  replace (K * 2 ^ t * D * 2 ^ (e1 - t - b'))
    with (K * D * (2 ^ t * 2 ^ (e1 - t - b'))) by ring.
  rewrite <- pow2_split by (unfold b'; lia).
  replace (t + (e1 - t - b')) with ((e1 - b) + (b - b')) by lia.
  rewrite !pow2_split by (unfold b; lia). rewrite !Z.mul_assoc.
  apply Z.mul_le_mono_nonneg_r; [apply Z.pow_nonneg; lia|assumption].
Qed.

Lemma val_le_scale_l N D e K e1 t :
  0 <= N -> 0 < D -> 0 <= K -> 0 <= t ->
  val_le K 1 e1 N D e -> val_le (K * 2 ^ t) 1 (e1 - t) N D e.
Proof.
  unfold val_le. intros HN HD HK Ht H.
  set (b := Z.min e1 e) in *. set (b' := Z.min (e1 - t) e).
  assert (Hb : b' <= b) by (unfold b, b'; lia).
  replace (e - b') with ((e - b) + (b - b')) by lia.
  replace (K * 2 ^ t * D * 2 ^ (e1 - t - b'))
    with (K * D * (2 ^ t * 2 ^ (e1 - t - b'))) by ring.
  rewrite <- pow2_split by (unfold b'; lia).
  replace (t + (e1 - t - b')) with ((e1 - b) + (b - b')) by lia.
  rewrite !pow2_split by (unfold b; lia). rewrite !Z.mul_assoc.
  apply Z.mul_le_mono_nonneg_r; [apply Z.pow_nonneg; lia|assumption].
Qed.

(** The canonical mantissa and exponent of [K * 2^(-j)]. *)
Lemma dyadic_canonical K j :
  0 < K < 2 ^ 53 -> 0 <= j <= 1000 ->
  let t := 53 - Zdigits2 K in
  0 <= t /\ Zdigits2 (K * 2 ^ t) = 53 /\ emin <= - j - t /\
  K * 2 ^ t * 2 ^ (- j - t - emin) = K * 2 ^ (- emin - j).
Proof.
  intros HK Hj t.
  pose proof (Zdigits2_le K 53 ltac:(lia) ltac:(lia)) as Hd.
  destruct (Zdigits2_bounds K ltac:(lia)) as (Hd1 & _).
  assert (Ht : 0 <= t) by (unfold t; lia).
  split; [assumption|]. split; [rewrite Zdigits2_shift; unfold t; lia|].
  split; [unfold t; flia|].
  rewrite <- Z.mul_assoc, <- pow2_split by (unfold t; flia).
  f_equal. f_equal. lia.
Qed.

Lemma round_val_le_dyadic N D e K j :
  round_pre N D e -> 0 < K < 2 ^ 53 -> 0 <= j <= 1000 ->
  val_le N D e K 1 (- j) ->
  round_val N D e <= K * 2 ^ (- emin - j).
Proof.
  intros P HK Hj H.
  destruct (dyadic_canonical K j HK Hj) as (Ht & D53 & He & EQ).
  set (t := 53 - Zdigits2 K) in *.
  rewrite <- EQ, <- (round_val_canonical _ _ D53 He).
  assert (Pm : 0 <= K * 2 ^ t).
  { assert (0 < 2 ^ t) by (apply Z.pow_pos_nonneg; lia). nia. }
  apply round_val_mono; [assumption | now apply round_pre_canonical |].
  destruct P as (HN & HD & _). apply val_le_scale_r; try assumption; lia.
Qed.

Lemma round_val_ge_dyadic N D e K j :
  round_pre N D e -> 0 < K < 2 ^ 53 -> 0 <= j <= 1000 ->
  val_le K 1 (- j) N D e ->
  K * 2 ^ (- emin - j) <= round_val N D e.
Proof.
  intros P HK Hj H.
  destruct (dyadic_canonical K j HK Hj) as (Ht & D53 & He & EQ).
  set (t := 53 - Zdigits2 K) in *.
  rewrite <- EQ, <- (round_val_canonical _ _ D53 He).
  assert (Pm : 0 <= K * 2 ^ t).
  { assert (0 < 2 ^ t) by (apply Z.pow_pos_nonneg; lia). nia. }
  apply round_val_mono; [now apply round_pre_canonical | assumption |].
  destruct P as (HN & HD & _). apply val_le_scale_l; try assumption; lia.
Qed.

Lemma dyadic_below_top K j :
  0 < K < 2 ^ 53 -> 0 <= j -> K * 2 ^ (- emin - j) < 2 ^ (emax - emin) \/ 1074 < j.
Proof.
  intros HK Hj. destruct (Z_le_gt_dec j 1074) as [L|G]; [left|right; lia].
  assert (2 ^ (- emin - j) <= 2 ^ (- emin)) by (apply pow2_le_mono; flia).
  assert (0 < 2 ^ (- emin - j)) by (apply Z.pow_pos_nonneg; flia).
  change (2 ^ (emax - emin)) with (2 ^ 1024 * 2 ^ (- emin)).
  assert (2 ^ 53 < 2 ^ 1024) by reflexivity.
  assert (0 < 2 ^ (- emin)) by reflexivity.
  apply Z.le_lt_trans with (K * 2 ^ (- emin)); [nia|].
  apply Z.mul_lt_mono_pos_r; lia.
Qed.

Lemma nonneg_finite_cases x :
  valid_binary x = true -> is_nan_sf x = false ->
  0 <= scaled x < 2 ^ (emax - emin) ->
  (exists s, x = S754_zero s) \/
  exists m e, x = S754_finite false m e /\ bounded prec emax m e = true.
Proof.
  intros V Nn [L U]. assert (0 < 2 ^ (emax - emin)) by reflexivity.
  destruct x as [s|s| |s m e]; try discriminate.
  - left. now exists s.
  - exfalso. destruct s; unfold scaled, cond_Zopp in *; lia.
  - destruct s.
    + exfalso. pose proof (scaled_finite_pos _ _ V).
      unfold scaled, cond_Zopp in *. lia.
    + right. now exists m, e.
Qed.

Lemma div_le_dyadic a c K j :
  pos_finite c -> PrimFloat.is_nan a = false ->
  0 <= float_scaled a < top ->
  0 < K < 2 ^ 53 -> 0 <= j <= 1000 ->
  float_scaled a * 2 ^ j <= K * float_scaled c ->
  float_scaled (a / c)%float <= K * 2 ^ (- emin - j).
Proof.
  intros Hc Na Ha HK Hj H.
  destruct (pos_finite_inv c Hc) as (mc & ec & Ec & Bc).
  rewrite is_nan_spec in Na. unfold float_scaled, top in *.
  rewrite FloatAxioms.div_spec. unfold SF64div. rewrite Ec in *.
  assert (PK : 0 <= K * 2 ^ (- emin - j)).
  { assert (0 <= 2 ^ (- emin - j)) by (apply Z.pow_nonneg; lia). nia. }
  destruct (nonneg_finite_cases _ (Prim2SF_valid a) Na Ha)
    as [(s & Ea)|(ma & ea & Ea & Ba)]; rewrite Ea in *.
  - exact PK.
  - destruct (SFdiv_finite_scaled false ma ea false mc ec)
      as (s & Hs & P & _ & ->).
    cbn [xorb cond_Zopp]. eapply Z.le_trans; [apply Z.le_min_l|].
    apply round_val_le_dyadic; try assumption.
    unfold val_le, scaled, cond_Zopp in *.
    apply bounded_inv in Ba, Bc.
    set (b := Z.min (ea - ec - s) (- j)).
    rewrite Z.mul_1_r, <- Z.mul_assoc, <- pow2_split by (unfold b; lia).
    rewrite <- Z.mul_assoc, <- pow2_split in H by lia.
    rewrite Z.mul_assoc in H.
    apply (pow2_rebase _ _ (ea - emin + j) (ec - emin)); first [exact H | unfold b; lia].
Qed.

Lemma div_ge_dyadic a c K j :
  pos_finite c -> PrimFloat.is_nan a = false ->
  0 <= float_scaled a < top ->
  0 < K < 2 ^ 53 -> 0 <= j <= 1000 ->
  K * float_scaled c <= float_scaled a * 2 ^ j ->
  K * 2 ^ (- emin - j) <= float_scaled (a / c)%float.
Proof.
  intros Hc Na Ha HK Hj H.
  destruct (pos_finite_inv c Hc) as (mc & ec & Ec & Bc).
  pose proof Hc as [Hc0 _].
  rewrite is_nan_spec in Na. unfold float_scaled, top in *.
  rewrite FloatAxioms.div_spec. unfold SF64div. rewrite Ec in *.
  destruct (dyadic_below_top K j ltac:(lia) ltac:(lia)) as [T|T]; [|lia].
  destruct (nonneg_finite_cases _ (Prim2SF_valid a) Na Ha)
    as [(s & Ea)|(ma & ea & Ea & Ba)]; rewrite Ea in *.
  - exfalso. unfold scaled at 2 in H. nia.
  - destruct (SFdiv_finite_scaled false ma ea false mc ec)
      as (s & Hs & P & _ & ->).
    cbn [xorb cond_Zopp]. apply Z.min_glb; [|lia].
    apply round_val_ge_dyadic; try assumption.
    unfold val_le, scaled, cond_Zopp in *.
    apply bounded_inv in Ba, Bc.
    set (b := Z.min (- j) (ea - ec - s)).
    rewrite Z.mul_1_r, <- (Z.mul_assoc (Z.pos ma)), <- pow2_split by (unfold b; lia).
    rewrite <- (Z.mul_assoc (Z.pos ma)), <- pow2_split in H by lia.
    rewrite Z.mul_assoc in H.
    apply (pow2_rebase _ _ (ec - emin) (ea - emin + j)); first [exact H | unfold b; lia].
Qed.

Lemma mul_le_dyadic y c K j :
  pos_finite c -> PrimFloat.is_nan y = false ->
  0 <= float_scaled y < top ->
  0 < K < 2 ^ 53 -> 0 <= j <= 1000 ->
  float_scaled y * float_scaled c <= K * 2 ^ (- emin - j) * 2 ^ (- emin) ->
  float_scaled (y * c)%float <= K * 2 ^ (- emin - j).
Proof.
  intros Hc Ny Hy HK Hj H.
  destruct (pos_finite_inv c Hc) as (mc & ec & Ec & Bc).
  rewrite is_nan_spec in Ny. unfold float_scaled, top in *.
  rewrite FloatAxioms.mul_spec. unfold SF64mul. rewrite Ec in *.
  assert (PK : 0 <= K * 2 ^ (- emin - j)).
  { assert (0 <= 2 ^ (- emin - j)) by (apply Z.pow_nonneg; lia). nia. }
  destruct (nonneg_finite_cases _ (Prim2SF_valid y) Ny Hy)
    as [(s & Ey)|(my & ey & Ey & By)]; rewrite Ey in *.
  - exact PK.
  - destruct (SFmul_finite_scaled false my ey false mc ec By Bc) as (_ & ->).
    cbn [xorb cond_Zopp]. eapply Z.le_trans; [apply Z.le_min_l|].
    apply round_val_le_dyadic; try assumption; [now apply mul_round_pre|].
    unfold val_le, scaled, cond_Zopp in *.
    pose proof By as By'. pose proof Bc as Bc'.
    apply bounded_inv in By', Bc'.
    set (b := Z.min (ey + ec) (- j)).
    rewrite !Z.mul_1_r, Pos2Z.inj_mul.
    replace (Z.pos my * 2 ^ (ey - emin) * (Z.pos mc * 2 ^ (ec - emin)))
      with (Z.pos my * Z.pos mc * (2 ^ (ey - emin) * 2 ^ (ec - emin))) in H by ring.
    rewrite <- pow2_split in H by lia.
    replace (K * 2 ^ (- emin - j) * 2 ^ (- emin))
      with (K * 2 ^ (- emin - j + - emin)) in H
      by (rewrite pow2_split by flia; ring).
    apply (pow2_rebase _ _ (ey - emin + (ec - emin)) (- emin - j + - emin));
      first [exact H | unfold b; flia].
Qed.

Lemma mul_ge_dyadic y c K j :
  pos_finite c -> PrimFloat.is_nan y = false ->
  0 <= float_scaled y < top ->
  0 < K < 2 ^ 53 -> 0 <= j <= 1000 ->
  K * 2 ^ (- emin - j) * 2 ^ (- emin) <= float_scaled y * float_scaled c ->
  K * 2 ^ (- emin - j) <= float_scaled (y * c)%float.
Proof.
  intros Hc Ny Hy HK Hj H.
  destruct (pos_finite_inv c Hc) as (mc & ec & Ec & Bc).
  rewrite is_nan_spec in Ny. unfold float_scaled, top in *.
  rewrite FloatAxioms.mul_spec. unfold SF64mul. rewrite Ec in *.
  destruct (dyadic_below_top K j ltac:(lia) ltac:(lia)) as [T|T]; [|lia].
  assert (PK : 0 < K * 2 ^ (- emin - j) * 2 ^ (- emin)).
  { assert (0 < 2 ^ (- emin - j)) by (apply Z.pow_pos_nonneg; flia).
    assert (0 < 2 ^ (- emin)) by reflexivity. nia. }
  destruct (nonneg_finite_cases _ (Prim2SF_valid y) Ny Hy)
    as [(s & Ey)|(my & ey & Ey & By)]; rewrite Ey in *.
  - exfalso. unfold scaled at 1 in H. lia.
  - destruct (SFmul_finite_scaled false my ey false mc ec By Bc) as (_ & ->).
    cbn [xorb cond_Zopp]. apply Z.min_glb; [|lia].
    apply round_val_ge_dyadic; try assumption; [now apply mul_round_pre|].
    unfold val_le, scaled, cond_Zopp in *.
    pose proof By as By'. pose proof Bc as Bc'.
    apply bounded_inv in By', Bc'.
    set (b := Z.min (- j) (ey + ec)).
    rewrite !Z.mul_1_r, Pos2Z.inj_mul.
    replace (Z.pos my * 2 ^ (ey - emin) * (Z.pos mc * 2 ^ (ec - emin)))
      with (Z.pos my * Z.pos mc * (2 ^ (ey - emin) * 2 ^ (ec - emin))) in H by ring.
    rewrite <- pow2_split in H by lia.
    replace (K * 2 ^ (- emin - j) * 2 ^ (- emin))
      with (K * 2 ^ (- emin - j + - emin)) in H
      by (rewrite pow2_split by flia; ring).
    apply (pow2_rebase _ _ (- emin - j + - emin) (ey - emin + (ec - emin)));
      first [exact H | unfold b; flia].
Qed.

End Binary64.
Import Binary64.

(* ================================================================= *)
(** * Part III: the program *)
(* ================================================================= *)

(** ** Floats as rationals *)

Lemma two_power_pos (e : Z) : (0 < 2 ^ e)%Q.
Proof. apply Qpower_0_lt. reflexivity. Qed.

Lemma float_value_scaled (f : float) (q : Q) :
  float_value f = Some q ->
  PrimFloat.is_nan f = false /\
  (q == inject_Z (float_scaled f) * 2 ^ emin)%Q.
Proof.
  unfold float_value, float_scaled. rewrite is_nan_spec.
  pose proof (Prim2SF_valid f) as V.
  destruct (Prim2SF f) as [s|s| |s m e]; try discriminate.
  - intros [= <-]. split; [reflexivity|]. cbn [scaled]. ring.
  - intros [= <-]. split; [reflexivity|]. cbn [scaled].
    apply bounded_inv in V. destruct V as (He & _).
    assert (E : (2 ^ e == 2 ^ (e - emin) * 2 ^ emin)%Q).
    { rewrite <- Qpower_plus by discriminate. now replace (e - emin + emin) with e by lia. }
    rewrite E.
    assert (P : (inject_Z (2 ^ (e - emin)) == 2 ^ (e - emin))%Q).
    { apply (Zpower_Qpower 2). lia. }
    rewrite <- P.
    replace (cond_Zopp s (Z.pos m * 2 ^ (e - emin)))
      with (cond_Zopp s (Z.pos m) * 2 ^ (e - emin)) by (destruct s; unfold cond_Zopp; ring).
    rewrite inject_Z_mult. ring.
Qed.

Lemma float_value_lt (a b : float) (qa qb : Q) :
  float_value a = Some qa -> float_value b = Some qb ->
  PrimFloat.ltb a b = true <-> (qa < qb)%Q.
Proof.
  intros Ha Hb.
  destruct (float_value_scaled a qa Ha) as (Na & Ea).
  destruct (float_value_scaled b qb Hb) as (Nb & Eb).
  rewrite (ltb_scaled a b Na Nb), Z.ltb_lt, Ea, Eb.
  rewrite Qmult_lt_r by apply two_power_pos. rewrite <- Zlt_Qlt. reflexivity.
Qed.

Lemma float_value_le (a b : float) (qa qb : Q) :
  float_value a = Some qa -> float_value b = Some qb ->
  PrimFloat.leb a b = true <-> (qa <= qb)%Q.
Proof.
  intros Ha Hb.
  destruct (float_value_scaled a qa Ha) as (Na & Ea).
  destruct (float_value_scaled b qb Hb) as (Nb & Eb).
  rewrite (leb_scaled a b Na Nb), Z.leb_le, Ea, Eb.
  rewrite Qmult_le_r by apply two_power_pos. rewrite <- Zle_Qle. reflexivity.
Qed.

(** The three thresholds of [classify_bmi] are exact. *)
Lemma threshold_values :
  exists c185 c25 c30 : Q,
    float_value 18.5%float = Some c185 /\ (c185 == 37 # 2)%Q /\
    float_value (float_of_int 25) = Some c25 /\ (c25 == 25)%Q /\
    float_value (float_of_int 30) = Some c30 /\ (c30 == 30)%Q.
Proof.
  do 3 eexists. repeat split; try (vm_compute; reflexivity).
Qed.

(** ** BMI classification and advice *)

(** Turns the outcome of a comparison into the fact about the rationals. *)
Ltac order_fact F :=
  match type of F with
  | true = true <-> ?P =>
      let X := fresh "X" in assert (X : P) by (apply F; reflexivity); clear F
  | false = true <-> ?P =>
      let X := fresh "X" in
      assert (X : ~ P) by (let p := fresh in intro p; apply F in p; discriminate p);
      clear F
  end.

(** C1.  A float that stands for the rational [q] is classified by the
    band [q] lies in: below 18.5 Underweight, from 18.5 up to but not
    including 25 Normal, from 25 up to but not including 30 Overweight, from
    30 on Obese; the result is always one of the four categories. *)
Theorem classify_bmi_bands (bmi : float) (q : Q) :
  float_value bmi = Some q ->
  In (classify_bmi bmi) categories /\
  ((q < 37 # 2)%Q -> classify_bmi bmi = "Underweight") /\
  ((37 # 2 <= q < 25)%Q -> classify_bmi bmi = "Normal") /\
  ((25 <= q < 30)%Q -> classify_bmi bmi = "Overweight") /\
  ((30 <= q)%Q -> classify_bmi bmi = "Obese").
Proof.
  intros Hq.
  destruct threshold_values
    as (c185 & c25 & c30 & V185 & E185 & V25 & E25 & V30 & E30).
  pose proof (float_value_lt bmi _ q c185 Hq V185) as L185.
  pose proof (float_value_le _ bmi c185 q V185 Hq) as G185.
  pose proof (float_value_lt bmi _ q c25 Hq V25) as L25.
  pose proof (float_value_le _ bmi c25 q V25 Hq) as G25.
  pose proof (float_value_lt bmi _ q c30 Hq V30) as L30.
  rewrite E185 in L185, G185. rewrite E25 in L25, G25. rewrite E30 in L30.
  unfold classify_bmi, float_lt_int, int_le_float.
  destruct (PrimFloat.ltb bmi 18.5) eqn:B1;
    destruct (PrimFloat.leb 18.5 bmi) eqn:B2;
    destruct (PrimFloat.ltb bmi (float_of_int 25)) eqn:B3;
    destruct (PrimFloat.leb (float_of_int 25) bmi) eqn:B4;
    destruct (PrimFloat.ltb bmi (float_of_int 30)) eqn:B5;
    cbn [andb];
    order_fact L185; order_fact G185; order_fact L25;
    order_fact G25; order_fact L30;
    (split; [cbn; tauto|]);
    repeat split; intros; try reflexivity; exfalso; lra.
Qed.

(** At the thresholds themselves the higher band is returned. *)
Example classify_bmi_boundaries :
  classify_bmi 18.5%float = "Normal" /\
  classify_bmi 25%float = "Overweight" /\
  classify_bmi 30%float = "Obese".
Proof. repeat split; vm_compute; reflexivity. Qed.

(** Values that are not numbers fall through every comparison. *)
Example classify_bmi_nan : classify_bmi nan = "Obese".
Proof. vm_compute; reflexivity. Qed.

Lemma classify_bmi_bands_witness :
  float_value 25%float = Some (7036874417766400 # 281474976710656) /\
  classify_bmi 25%float = "Overweight".
Proof.
  split; [vm_compute; reflexivity|].
  destruct (classify_bmi_bands 25%float (7036874417766400 # 281474976710656))
    as (_ & _ & _ & H & _); [vm_compute; reflexivity|].
  apply H. split; [unfold Qle; simpl; lia | unfold Qlt; simpl; lia].
Defined.

(** C7.  The advice returned for a BMI is the advice of the table for the
    category of that same BMI; the table has four entries, one per
    category, and no two categories share an advisory string. *)
Theorem suggestion_agrees_with_category :
  (forall bmi : float, provide_suggestions bmi = suggestion (classify_bmi bmi)) /\
  List.length categories = 4%nat /\
  NoDup (map suggestion categories) /\
  (forall c1 c2 : string,
      In c1 categories -> In c2 categories ->
      suggestion c1 = suggestion c2 -> c1 = c2).
Proof.
  split; [|split; [reflexivity|split]].
  - intros bmi. unfold provide_suggestions, classify_bmi.
    destruct (PrimFloat.ltb bmi 18.5); [reflexivity|].
    destruct (PrimFloat.leb 18.5 bmi && float_lt_int bmi 25); [reflexivity|].
    destruct (int_le_float 25 bmi && float_lt_int bmi 30); reflexivity.
  - cbn. repeat constructor; cbn; intuition discriminate.
  - intros c1 c2 H1 H2. cbn in H1, H2.
    intuition subst; try reflexivity; cbn; discriminate.
Qed.

(** ** The input of the predictor *)

(** C5.  Whatever the scaler and the model are, the scaler is applied to a
    single row of exactly eight values in the order age, gender code,
    height, weight, running time, running speed, distance, heart rate; the
    model is applied to what the scaler returns; the gender code is 0 for
    "Female" and 1 for "Male". *)
Theorem predict_calories_input `{Runtime}
    (age : Z) (gender : string)
    (height weight running_time running_speed distance heart_rate : Z) :
  let row := [age; gender_code gender; height; weight;
              running_time; running_speed; distance; heart_rate] in
  input_data age gender height weight
             running_time running_speed distance heart_rate = [row] /\
  List.length row = 8%nat /\
  gender_code "Female" = 0 /\ gender_code "Male" = 1 /\
  predict_calories age gender height weight
                   running_time running_speed distance heart_rate
  = match scaler_transform [row] with
    | Raise e => Raise e
    | Ok scaled =>
        match model_predict scaled with
        | Raise e => Raise e
        | Ok [] => Raise IndexError
        | Ok (calories_burned :: _) => Ok calories_burned
        end
    end.
Proof.
  cbn zeta. do 4 (split; [reflexivity|]).
  unfold predict_calories, input_data, Py.bind.
  destruct (scaler_transform _) as [scaled|e]; [|reflexivity].
  destruct (model_predict scaled) as [[|c l]|e]; reflexivity.
Qed.

(** ** Workout intensity *)

(** C8.  With an age of at most 100 the division by [220 - age] does not
    raise and the intensity is [heart_rate / (220 - age) * 100]; the
    division raises [ZeroDivisionError] at age 220 and at no other age. *)
Theorem workout_intensity_division :
  (forall age heart_rate : Z,
      age <= 100 -> exact_int (220 - age) -> exact_int heart_rate ->
      calculate_workout_intensity age heart_rate
      = Ok (PrimFloat.mul
              (PrimFloat.div (float_of_int heart_rate)
                             (float_of_int (220 - age)))
              (float_of_int 100))) /\
  (forall age heart_rate : Z,
      calculate_workout_intensity age heart_rate = Raise ZeroDivisionError
      <-> age = 220) /\
  (forall age heart_rate : Z,
      age <> 220 -> exact_int (220 - age) -> exact_int heart_rate ->
      exists intensity, calculate_workout_intensity age heart_rate = Ok intensity).
Proof.
  unfold calculate_workout_intensity, int_truediv, float_mul_int, Py.bind.
  split; [|split].
  - intros a hr Hage _ _.
    destruct (Z.eqb_spec (220 - a) 0); [lia|reflexivity].
  - intros a hr. destruct (Z.eqb_spec (220 - a) 0); split; intros E;
      try reflexivity; try discriminate; lia.
  - intros a hr Hage _ _.
    destruct (Z.eqb_spec (220 - a) 0); [lia|]. eexists; reflexivity.
Qed.

Lemma workout_intensity_division_witness :
  25 <= 100 /\ exact_int (220 - 25) /\ exact_int 80 /\
  calculate_workout_intensity 25 80 = Ok 0x1.4834834834834p+5%float.
Proof.
  assert (E195 : exact_int (220 - 25)) by (unfold exact_int; lia).
  assert (E80 : exact_int 80) by (unfold exact_int; lia).
  split; [lia|]. split; [exact E195|]. split; [exact E80|].
  exact (proj1 workout_intensity_division 25 80 ltac:(lia) E195 E80).
Defined.

(** C10.  The oldest user at the highest heart rate the widgets allow gets
    an intensity above 100: the value is returned as computed. *)
Theorem workout_intensity_unclamped :
  exists age heart_rate : Z,
    10 <= age <= 100 /\ 50 <= heart_rate <= 200 /\
    calculate_workout_intensity age heart_rate = Ok 0x1.4d55555555556p+7%float /\
    PrimFloat.ltb (float_of_int 100) 0x1.4d55555555556p+7%float = true.
Proof.
  exists 100, 200. repeat split; try lia; vm_compute; reflexivity.
Qed.

(** ** Progress towards a goal *)

Lemma steps_progress_progress (steps_taken goal_steps : Z) :
  steps_progress steps_taken goal_steps
  = Ok (progress (float_of_int steps_taken) goal_steps).
Proof.
  unfold steps_progress, progress, int_truediv, Py.bind, float_mul_int.
  destruct (Z.gtb_spec goal_steps 0); [|reflexivity].
  destruct (Z.eqb_spec goal_steps 0); [lia|reflexivity].
Qed.

(** C2.  Both blocks under "Track Progress" compute [progress]: the quotient
    of actual and goal times 100 for a positive goal, the integer 0 for a
    goal of 0; nothing caps the result, which exceeds 100 when the goal is
    overshot. *)
Theorem progress_blocks :
  (forall (calories_burned : float) (goal_calories : Z),
      calories_progress calories_burned goal_calories
      = progress calories_burned goal_calories) /\
  (forall steps_taken goal_steps : Z,
      exact_int steps_taken -> exact_int goal_steps ->
      steps_progress steps_taken goal_steps
      = Ok (progress (float_of_int steps_taken) goal_steps)) /\
  (forall (actual : float) (goal : Z),
      0 < goal ->
      progress actual goal
      = Float (PrimFloat.mul (PrimFloat.div actual (float_of_int goal))
                             (float_of_int 100))) /\
  (forall actual : float, progress actual 0 = Int 0) /\
  calories_progress 750%float 500 = Float 150%float /\
  steps_progress 50000 5000 = Ok (Float 1000%float).
Proof.
  split; [reflexivity|]. split; [|split; [|split; [reflexivity|split]]].
  - intros st g _ _. apply steps_progress_progress.
  - intros actual goal Hg. unfold progress.
    destruct (Z.gtb_spec goal 0); [reflexivity|lia].
  - vm_compute; reflexivity.
  - vm_compute; reflexivity.
Qed.

Lemma progress_blocks_witness :
  0 < 5000 /\ exact_int 2000 /\ exact_int 5000 /\
  steps_progress 2000 5000 = Ok (Float 40%float) /\
  progress 2000%float 5000 = Float 40%float.
Proof.
  assert (E1 : exact_int 2000) by (unfold exact_int; lia).
  assert (E2 : exact_int 5000) by (unfold exact_int; lia).
  split; [lia|]. split; [exact E1|]. split; [exact E2|]. split.
  - exact (proj1 (proj2 progress_blocks) 2000 5000 E1 E2).
  - exact (proj1 (proj2 (proj2 progress_blocks)) 2000%float 5000 ltac:(lia)).
Defined.

(** ** Floats the program divides by *)

Lemma leb_true_not_nan (a b : float) :
  PrimFloat.leb a b = true ->
  PrimFloat.is_nan a = false /\ PrimFloat.is_nan b = false.
Proof.
  rewrite FloatAxioms.leb_spec, !is_nan_spec. unfold SFleb.
  destruct (Prim2SF a), (Prim2SF b); cbn [SFcompare is_nan_sf];
    try discriminate; auto.
Qed.

Lemma ltb_true_not_nan (a b : float) :
  PrimFloat.ltb a b = true ->
  PrimFloat.is_nan a = false /\ PrimFloat.is_nan b = false.
Proof.
  rewrite FloatAxioms.ltb_spec, !is_nan_spec. unfold SFltb.
  destruct (Prim2SF a), (Prim2SF b); cbn [SFcompare is_nan_sf];
    try discriminate; auto.
Qed.

Lemma float_of_int_pos_finite (n : Z) :
  0 < n <= 2 ^ 53 -> pos_finite (float_of_int n).
Proof.
  intros Hn. destruct (float_of_int_scaled n ltac:(lia)) as (_ & E).
  unfold pos_finite, top. rewrite E.
  assert (P : 0 < 2 ^ (- emin)) by reflexivity.
  split; [nia|].
  change (2 ^ (emax - emin)) with (2 ^ 1024 * 2 ^ (- emin)).
  assert (2 ^ 53 < 2 ^ 1024) by reflexivity. nia.
Qed.

Lemma pos_finite_positive (c : float) :
  pos_finite c <-> positive_finite c = true.
Proof.
  unfold positive_finite. rewrite andb_true_iff. split.
  - intros H. pose proof (pos_finite_not_nan c H) as Nn.
    rewrite !ltb_scaled by (assumption || reflexivity).
    unfold pos_finite in H. split; apply Z.ltb_lt; apply H.
  - intros (L & U). destruct (ltb_true_not_nan _ _ L) as (_ & Nn).
    rewrite ltb_scaled in L, U by (assumption || reflexivity).
    apply Z.ltb_lt in L, U. split; assumption.
Qed.

Lemma pos_finite_eqb_zero (c : float) :
  pos_finite c -> PrimFloat.eqb c 0%float = false.
Proof.
  intros H. rewrite eqb_scaled by first [reflexivity | now apply pos_finite_not_nan].
  apply Z.eqb_neq. change (float_scaled 0%float) with 0. unfold pos_finite in H. lia.
Qed.

Lemma pos_finite_abs (c : float) : pos_finite c -> PrimFloat.abs c = c.
Proof.
  intros H. destruct (pos_finite_inv c H) as (m & e & E & _).
  apply Prim2SF_inj. now rewrite abs_spec, E.
Qed.

Lemma pos_finite_is_infinity (c : float) :
  pos_finite c -> PrimFloat.is_infinity c = false.
Proof.
  intros H. unfold PrimFloat.is_infinity. rewrite (pos_finite_abs c H).
  rewrite eqb_scaled by first [reflexivity | now apply pos_finite_not_nan].
  apply Z.eqb_neq. change (float_scaled infinity) with top.
  unfold pos_finite in H. lia.
Qed.

(** A quotient by a positive finite float stays between the quotients of
    the bounds of the numerator. *)
Lemma div_between (a lo hi c : float) :
  pos_finite c ->
  PrimFloat.is_nan lo = false -> PrimFloat.is_nan a = false ->
  PrimFloat.is_nan hi = false ->
  float_scaled lo <= float_scaled a <= float_scaled hi ->
  float_scaled (lo / c)%float <= float_scaled (a / c)%float
                             <= float_scaled (hi / c)%float.
Proof.
  intros Hc Nl Na Nh [L U]. split.
  - now apply (div_mono lo a c Hc Nl Na).
  - now apply (div_mono a hi c Hc Na Nh).
Qed.

(** The quotient of an exact positive [int] by a positive [int] literal. *)
Lemma int_truediv_literal (a b : Z) :
  0 < a <= 2 ^ 53 -> 0 < b <= 2 ^ 53 ->
  int_truediv a b = Ok (float_of_int a / float_of_int b)%float /\
  float_scaled (float_of_int 1 / float_of_int b)%float
  <= float_scaled (float_of_int a / float_of_int b)%float
  <= float_scaled (float_of_int (2 ^ 53) / float_of_int b)%float.
Proof.
  intros Ha Hb. split.
  - unfold int_truediv. destruct (Z.eqb_spec b 0); [lia|reflexivity].
  - destruct (float_of_int_scaled a ltac:(lia)) as (Na & Ea).
    destruct (float_of_int_scaled 1 ltac:(lia)) as (N1 & E1).
    destruct (float_of_int_scaled (2 ^ 53) ltac:(lia)) as (N2 & E2).
    apply div_between; try assumption; [now apply float_of_int_pos_finite|].
    rewrite Ea, E1, E2. assert (P : 0 < 2 ^ (- emin)) by reflexivity. nia.
Qed.

(** ** Running speed *)

Lemma sixtieth_bounds :
  0 < float_scaled (float_of_int 1 / float_of_int 60)%float /\
  float_scaled (float_of_int (2 ^ 53) / float_of_int 60)%float < top.
Proof. split; vm_compute; reflexivity. Qed.

(** C4.  With a positive running time the speed is
    [distance / (running_time / 60)] and nothing raises; with a running
    time of 0 the result is the integer 0, whatever the distance. *)
Theorem running_speed_cases :
  (forall distance running_time : Z,
      0 < running_time -> running_time <= 2 ^ 53 -> exact_int distance ->
      calculate_running_speed distance running_time
      = Ok (Float (float_of_int distance
                   / (float_of_int running_time / float_of_int 60))%float)) /\
  (forall distance : Z, calculate_running_speed distance 0 = Ok (Int 0)).
Proof.
  split; [|reflexivity].
  intros d rt Hpos Hle _. unfold calculate_running_speed.
  destruct (Z.gtb_spec rt 0); [|lia].
  destruct (int_truediv_literal rt 60 ltac:(lia) ltac:(lia)) as (-> & L & U).
  destruct sixtieth_bounds as (B1 & B2).
  assert (P : pos_finite (float_of_int rt / float_of_int 60)%float)
    by (unfold pos_finite; lia).
  cbn [Py.bind]. unfold int_div_float.
  now rewrite (pos_finite_eqb_zero _ P).
Qed.

Lemma running_speed_cases_witness :
  0 < 30 /\ 30 <= 2 ^ 53 /\ exact_int 5 /\
  calculate_running_speed 5 30 = Ok (Float 10%float).
Proof.
  assert (E5 : exact_int 5) by (unfold exact_int; lia).
  split; [lia|]. split; [lia|]. split; [exact E5|].
  exact (proj1 running_speed_cases 5 30 ltac:(lia) ltac:(lia) E5).
Defined.

(** ** Body mass index *)

Lemma hundredth_bounds :
  float_scaled 0x1p-511%float
  <= float_scaled (float_of_int 1 / float_of_int 100)%float /\
  float_scaled (float_of_int (2 ^ 53) / float_of_int 100)%float
  <= float_scaled 0x1p+511%float /\
  0 < float_scaled 0x1p-511%float /\ float_scaled 0x1p+511%float < top.
Proof. repeat split; vm_compute; try reflexivity; discriminate. Qed.

(** C3.  For a positive height the BMI is
    [weight / (height / 100) ** 2] and nothing raises: the square is what
    the C library's [pow] returns (1.0 at exactly 1.0, where CPython does
    not call it), a positive finite float, and the quotient is returned as
    it is. *)
Theorem calculate_bmi_formula `{Runtime} (height weight : Z) :
  pow_in_range ->
  0 < height -> height <= 2 ^ 53 -> 0 <= weight -> weight <= 2 ^ 53 ->
  let h_m := (float_of_int height / float_of_int 100)%float in
  let square :=
    if PrimFloat.eqb h_m 1%float then 1%float else libm_pow h_m 2%float in
  positive_finite square = true /\
  calculate_bmi height weight = Ok (float_of_int weight / square)%float.
Proof.
  intros Hpow Hpos Hle _ _ h_m square.
  destruct (int_truediv_literal height 100 ltac:(lia) ltac:(lia)) as (E & L & U).
  fold h_m in E, L, U.
  destruct hundredth_bounds as (B1 & B2 & B3 & B4).
  assert (P : pos_finite h_m) by (unfold pos_finite; lia).
  pose proof (pos_finite_not_nan _ P) as Nn.
  assert (S : positive_finite square = true).
  { unfold square. destruct (PrimFloat.eqb h_m 1); [reflexivity|].
    apply Hpow; rewrite leb_scaled by first [reflexivity | assumption];
      apply Z.leb_le; lia. }
  split; [assumption|].
  unfold calculate_bmi. rewrite E. cbn [Py.bind].
  unfold float_pow2.
  rewrite Nn, (pos_finite_is_infinity _ P), (pos_finite_eqb_zero _ P),
    (pos_finite_abs _ P).
  fold square.
  assert (Psq : pos_finite square) by now apply pos_finite_positive.
  assert (R : (if PrimFloat.eqb h_m 1 then Ok 1%float
               else if PrimFloat.is_infinity (libm_pow h_m 2)
                    then Raise OverflowError else Ok (libm_pow h_m 2))
              = Ok square).
  { unfold square in *. destruct (PrimFloat.eqb h_m 1); [reflexivity|].
    now rewrite (pos_finite_is_infinity _ Psq). }
  rewrite R. cbn [Py.bind]. unfold int_div_float.
  now rewrite (pos_finite_eqb_zero _ Psq).
Qed.

(** Multiplication of floats commutes. *)
Lemma SFmul_comm (x y : spec_float) : SFmul prec emax x y = SFmul prec emax y x.
Proof.
  destruct x as [sx|sx| |sx mx ex], y as [sy|sy| |sy my ey]; cbn [SFmul];
    try reflexivity; rewrite (xorb_comm sx sy); try reflexivity.
  now rewrite (Pos.mul_comm mx my), (Z.add_comm ex ey).
Qed.

Lemma float_mul_comm (x y : float) : (x * y)%float = (y * x)%float.
Proof.
  apply Prim2SF_inj. rewrite !FloatAxioms.mul_spec. apply SFmul_comm.
Qed.

Lemma square_between (x lo hi : float) :
  pos_finite lo -> pos_finite hi ->
  PrimFloat.is_nan x = false ->
  float_scaled lo <= float_scaled x <= float_scaled hi ->
  float_scaled (lo * lo)%float <= float_scaled (x * x)%float
                              <= float_scaled (hi * hi)%float.
Proof.
  intros Plo Phi Nx [L U].
  pose proof (pos_finite_not_nan _ Plo) as Nlo.
  pose proof (pos_finite_not_nan _ Phi) as Nhi.
  assert (Px : pos_finite x) by (unfold pos_finite in *; lia).
  split.
  - apply Z.le_trans with (float_scaled (x * lo)%float).
    + now apply (mul_mono lo x lo Plo Nlo Nx).
    + rewrite (float_mul_comm x lo). now apply (mul_mono lo x x Px Nlo Nx).
  - apply Z.le_trans with (float_scaled (x * hi)%float).
    + rewrite (float_mul_comm x hi). now apply (mul_mono x hi x Px Nx Nhi).
    + now apply (mul_mono x hi hi Phi Nx Nhi).
Qed.

(** The reference runtime squares by multiplying, which meets what is asked
    of [pow]. *)
Lemma reference_pow_in_range : @pow_in_range reference_runtime.
Proof.
  intros x Hlo Hhi.
  destruct (leb_true_not_nan _ _ Hlo) as (Nlo & Nx).
  destruct (leb_true_not_nan _ _ Hhi) as (_ & Nhi).
  rewrite leb_scaled in Hlo, Hhi by assumption. apply Z.leb_le in Hlo, Hhi.
  destruct hundredth_bounds as (_ & _ & B3 & B4).
  assert (Plo : pos_finite 0x1p-511%float).
  { split; [assumption|]. vm_compute; reflexivity. }
  assert (Phi : pos_finite 0x1p+511%float).
  { split; [|assumption]. vm_compute; reflexivity. }
  destruct (square_between x _ _ Plo Phi Nx (conj Hlo Hhi)) as (L & U).
  change (libm_pow x 2%float) with (x * x)%float.
  apply pos_finite_positive. split.
  - eapply Z.lt_le_trans; [|exact L]. vm_compute; reflexivity.
  - eapply Z.le_lt_trans; [exact U|]. vm_compute; reflexivity.
Qed.

Lemma calculate_bmi_formula_witness :
  0 < 170 /\ 170 <= 2 ^ 53 /\ 0 <= 70 /\ 70 <= 2 ^ 53 /\
  @calculate_bmi reference_runtime 170 70 = Ok 0x1.838b129a21a94p+4%float.
Proof.
  do 4 (split; [lia|]).
  exact (proj2 (@calculate_bmi_formula reference_runtime 170 70
                  reference_pow_in_range
                  ltac:(lia) ltac:(lia) ltac:(lia) ltac:(lia))).
Defined.

(** ** Progress is monotone *)

Lemma progress_le (goal : Z) (a1 a2 : float) :
  0 < goal <= 2 ^ 53 ->
  PrimFloat.is_nan a1 = false -> PrimFloat.is_nan a2 = false ->
  float_scaled a1 <= float_scaled a2 ->
  PrimFloat.leb (a1 / float_of_int goal * float_of_int 100)%float
                (a2 / float_of_int goal * float_of_int 100)%float = true.
Proof.
  intros Hg N1 N2 H.
  destruct (div_mono a1 a2 _ (float_of_int_pos_finite goal Hg) N1 N2 H)
    as (D1 & D2 & HD).
  destruct (mul_mono _ _ _ (float_of_int_pos_finite 100 ltac:(lia)) D1 D2 HD)
    as (M1 & M2 & HM).
  rewrite leb_scaled by assumption. now apply Z.leb_le.
Qed.

Lemma div_nonneg (a c : float) :
  pos_finite c -> PrimFloat.is_nan a = false -> 0 <= float_scaled a ->
  PrimFloat.is_nan (a / c)%float = false /\ 0 <= float_scaled (a / c)%float.
Proof.
  intros Hc Na Ha.
  destruct (div_mono 0%float a c Hc eq_refl Na Ha) as (_ & N & H).
  split; [assumption|]. eapply Z.le_trans; [|exact H].
  destruct (pos_finite_inv c Hc) as (mc & ec & Ec & _).
  unfold float_scaled. rewrite FloatAxioms.div_spec. unfold SF64div.
  rewrite Ec. change (Prim2SF 0%float) with (S754_zero false).
  cbn [SFdiv xorb scaled]. lia.
Qed.

(** Two step counts within the widget range are at least [1 / goal] apart,
    which leaves room for two floats between the two quotients: the
    multiples [(k + 1) / 2^18] and [(k + 2) / 2^18] with [k] the integer part
    of [s1 * 2^18 / goal]. *)
Lemma steps_progress_lt (goal s1 s2 : Z) :
  0 < goal <= 50000 -> 0 <= s1 -> s1 < s2 -> s2 <= 50000 ->
  PrimFloat.ltb
    (float_of_int s1 / float_of_int goal * float_of_int 100)%float
    (float_of_int s2 / float_of_int goal * float_of_int 100)%float = true.
Proof.
  intros Hg H1 Hlt H2.
  assert (B : 50000 < 2 ^ 53) by reflexivity.
  pose proof (float_of_int_pos_finite goal ltac:(lia)) as Pg.
  pose proof (float_of_int_pos_finite 100 ltac:(lia)) as P100.
  destruct (float_of_int_scaled goal ltac:(lia)) as (_ & Eg).
  destruct (float_of_int_scaled 100 ltac:(lia)) as (_ & E100).
  destruct (float_of_int_scaled s1 ltac:(lia)) as (N1 & E1).
  destruct (float_of_int_scaled s2 ltac:(lia)) as (N2 & E2).
  assert (PP : 0 < 2 ^ (- emin)) by reflexivity.
  assert (T : 2 ^ (- emin) * 2 ^ 53 < top) by reflexivity.
  set (k := s1 * 2 ^ 18 / goal).
  assert (Hk : 0 <= k) by (apply Z.div_pos; lia).
  assert (F1 : s1 * 2 ^ 18 < (k + 1) * goal).
  { pose proof (Z.div_mod (s1 * 2 ^ 18) goal ltac:(lia)).
    pose proof (Z.mod_pos_bound (s1 * 2 ^ 18) goal ltac:(lia)). fold k in H. lia. }
  assert (F0 : k * goal <= s1 * 2 ^ 18).
  { pose proof (Z.div_mod (s1 * 2 ^ 18) goal ltac:(lia)).
    pose proof (Z.mod_pos_bound (s1 * 2 ^ 18) goal ltac:(lia)). fold k in H. lia. }
  assert (F2 : (k + 2) * goal <= s2 * 2 ^ 18) by lia.
  assert (Kb : 100 * (k + 2) < 2 ^ 53) by nia.
  set (y1 := (float_of_int s1 / float_of_int goal)%float).
  set (y2 := (float_of_int s2 / float_of_int goal)%float).
  set (u := 2 ^ (- emin - 18)).
  assert (Pu : 0 < u) by reflexivity.
  (* the two quotients *)
  destruct (div_nonneg _ _ Pg N1 ltac:(rewrite E1; nia)) as (Ny1 & L1).
  destruct (div_nonneg _ _ Pg N2 ltac:(rewrite E2; nia)) as (Ny2 & L2).
  fold y1 in Ny1, L1. fold y2 in Ny2, L2.
  assert (U1 : float_scaled y1 <= (k + 1) * u).
  { apply div_le_dyadic; try assumption; try lia.
    - rewrite E1. split; [nia|]. unfold top in *. nia.
    - rewrite E1, Eg. nia. }
  assert (U2 : float_scaled y2 <= s2 * 2 ^ (- emin - 0)).
  { apply div_le_dyadic; try assumption; try lia.
    - rewrite E2. split; [nia|]. unfold top in *. nia.
    - rewrite E2, Eg. change (2 ^ 0) with 1. rewrite Z.mul_1_r.
      replace (s2 * (goal * 2 ^ (- emin))) with (s2 * 2 ^ (- emin) * goal) by ring.
      apply Z.le_mul_diag_r; nia. }
  assert (G2 : (k + 2) * u <= float_scaled y2).
  { apply div_ge_dyadic; try assumption; try lia.
    - rewrite E2. split; [nia|]. unfold top in *. nia.
    - rewrite E2, Eg. nia. }
  change (2 ^ (- emin - 0)) with (2 ^ (- emin)) in U2.
  assert (Uu : (k + 1) * u < top).
  { change top with (u * 2 ^ (18 + 1024)).
    assert (2 ^ 53 < 2 ^ (18 + 1024)) by reflexivity. nia. }
  (* the two products *)
  assert (Z1 : float_scaled (y1 * float_of_int 100)%float <= 100 * (k + 1) * u).
  { apply mul_le_dyadic; try assumption; try lia.
    rewrite E100. fold u. nia. }
  assert (Z2 : 100 * (k + 2) * u <= float_scaled (y2 * float_of_int 100)%float).
  { apply mul_ge_dyadic; try assumption; try lia.
    - split; [lia|]. unfold top in *. nia.
    - rewrite E100. fold u. nia. }
  destruct (mul_mono y1 y2 _ P100 Ny1 Ny2 ltac:(lia)) as (M1 & M2 & _).
  rewrite ltb_scaled by assumption. apply Z.ltb_lt. nia.
Qed.

(** C9, as the code has it.  For a positive goal a larger actual value never
    gives a smaller progress, for the calories (any two floats) and for the
    steps (any two exact integers); within the ranges of the step widgets
    the progress of the steps is strictly increasing. *)
Theorem progress_nondecreasing (goal : Z) :
  0 < goal -> goal <= 2 ^ 53 ->
  (forall a1 a2 : float,
      PrimFloat.ltb a1 a2 = true ->
      num_leb (calories_progress a1 goal) (calories_progress a2 goal) = true) /\
  (forall s1 s2 : Z,
      0 <= s1 -> s1 < s2 -> s2 <= 2 ^ 53 ->
      exists p1 p2 : num,
        steps_progress s1 goal = Ok p1 /\ steps_progress s2 goal = Ok p2 /\
        num_leb p1 p2 = true) /\
  (forall s1 s2 : Z,
      goal <= 50000 -> 0 <= s1 -> s1 < s2 -> s2 <= 50000 ->
      exists p1 p2 : num,
        steps_progress s1 goal = Ok p1 /\ steps_progress s2 goal = Ok p2 /\
        num_ltb p1 p2 = true).
Proof.
  intros Hpos Hle. split; [|split].
  - intros a1 a2 Hlt.
    destruct (ltb_true_not_nan _ _ Hlt) as (N1 & N2).
    rewrite ltb_scaled in Hlt by assumption. apply Z.ltb_lt in Hlt.
    unfold calories_progress, float_mul_int, float64_div_int, num_leb.
    destruct (Z.gtb_spec goal 0); [|lia]. cbn [num_to_float].
    apply progress_le; try assumption; lia.
  - intros s1 s2 H0 Hlt H2.
    do 2 eexists.
    split; [apply steps_progress_progress|].
    split; [apply steps_progress_progress|].
    unfold progress, num_leb. destruct (Z.gtb_spec goal 0); [|lia].
    cbn [num_to_float].
    destruct (float_of_int_scaled s1 ltac:(lia)) as (N1 & E1).
    destruct (float_of_int_scaled s2 ltac:(lia)) as (N2 & E2).
    apply progress_le; try assumption; [lia|].
    rewrite E1, E2. assert (0 < 2 ^ (- emin)) by reflexivity. nia.
  - intros s1 s2 Hg H0 Hlt H2.
    do 2 eexists.
    split; [apply steps_progress_progress|].
    split; [apply steps_progress_progress|].
    unfold progress, num_ltb. destruct (Z.gtb_spec goal 0); [|lia].
    cbn [num_to_float]. apply steps_progress_lt; lia.
Qed.

Lemma progress_nondecreasing_witness :
  0 < 3 /\ 3 <= 2 ^ 53 /\
  num_leb (calories_progress 100%float 3)
          (calories_progress 0x1.9000000000001p+6%float 3) = true.
Proof.
  split; [lia|]. split; [lia|].
  apply (proj1 (progress_nondecreasing 3 ltac:(lia) ltac:(lia))).
  vm_compute; reflexivity.
Defined.

(** C9, as the claim has it, fails: 100.0 and the next float above it are
    mapped to the same progress towards a goal of 3. *)
Lemma progress_strict_counterexample :
  0 < 3 /\
  PrimFloat.ltb 100%float 0x1.9000000000001p+6%float = true /\
  calories_progress 100%float 3
  = calories_progress 0x1.9000000000001p+6%float 3 /\
  num_ltb (calories_progress 100%float 3)
          (calories_progress 0x1.9000000000001p+6%float 3) = false.
Proof. repeat split; vm_compute; reflexivity. Qed.

(** ** The report at the end of the script *)

Lemma emit_all_spec (l page : list element) :
  emit_all l page = ((page ++ l)%list, Ok tt).
Proof.
  revert page. induction l as [|x l IH]; intros page; cbn [emit_all].
  - unfold sret. now rewrite app_nil_r.
  - unfold sbind, emit. rewrite IH, <- app_assoc. reflexivity.
Qed.

Ltac no_success :=
  let s := fresh "s" in
  intros s; cbn [In List.app]; intuition discriminate.

(** What the two dataset blocks add does not depend on what is already on
    the page. *)
Lemma show_data_analysis_adds (w : World) :
  exists added : list element,
    (forall page : list element,
        show_data_analysis w page = ((page ++ added)%list, Ok tt)) /\
    forall s : string, ~ In (st_success s) added.
Proof.
  unfold show_data_analysis, try_except, sbind, lift, emit.
  destruct (read_csv w) as [df|e].
  - destruct (calories_chart df) as [[]|e].
    + eexists. split; [intros page; rewrite <- !app_assoc; reflexivity|].
      no_success.
    + eexists. split; [intros page; rewrite <- !app_assoc; reflexivity|].
      no_success.
  - eexists. split; [intros page; reflexivity|no_success].
Qed.

Lemma compare_with_averages_adds (w : World) (m : Metrics) :
  exists added : list element,
    (forall page : list element,
        compare_with_averages w m page = ((page ++ added)%list, Ok tt)) /\
    forall s : string, ~ In (st_success s) added.
Proof.
  unfold compare_with_averages, when.
  destruct (compare_button w).
  - unfold try_except, sbind, lift, emit.
    destruct (read_csv w) as [df|e].
    + destruct (column_means df) as [[[[a b] c] d]|e].
      * eexists. split; [intros page; rewrite <- !app_assoc; reflexivity|].
        no_success.
      * eexists. split; [intros page; reflexivity|no_success].
    + eexists. split; [intros page; reflexivity|no_success].
  - exists []. split; [intros page; unfold sret; now rewrite app_nil_r|].
    no_success.
Qed.




(** ** The scenarios of the specification, evaluated *)

Example scenario_default_widgets :
  @compute_metrics reference_runtime default_world
  = Ok {| calories_burned := 390%float;
          bmi := 0x1.838b129a21a94p+4%float;
          intensity := 0x1.4834834834834p+5%float;
          speed := Float 10%float;
          bmi_category := "Normal";
          suggestion_text :=
            "Maintain current routine. Keep up the good work!" |}.
Proof. vm_compute; reflexivity. Qed.

Example scenario_obese :
  (bmi <- @calculate_bmi reference_runtime 170 90 ;;
   Ok (bmi, classify_bmi bmi, provide_suggestions bmi))%py
  = Ok (0x1.f24517eabd907p+4%float, "Obese",
        "Consult a healthcare provider for a tailored fitness plan.").
Proof. vm_compute; reflexivity. Qed.

Example scenario_no_goal (calories_burned : float) :
  calories_progress calories_burned 0 = Int 0.
Proof. reflexivity. Qed.

Example scenario_running_speed :
  calculate_running_speed 5 30 = Ok (Float 10%float).
Proof. vm_compute; reflexivity. Qed.

Example scenario_default_page :
  fst (@run reference_runtime default_world)
  = [ st_title "SMARTFIT AI - Personal Fitness Tracker";
      st_subheader "Your Fitness Metrics";
      st_write "**Calories Burned:** {:.2f}" [Fixed2 (Float 390%float)];
      st_write "**BMI:** {:.2f} ({})"
               [Fixed2 (Float 0x1.838b129a21a94p+4%float); Text "Normal"];
      st_write "**Workout Intensity:** {:.2f}%"
               [Fixed2 (Float 0x1.4834834834834p+5%float)];
      st_write "**Running Speed:** {:.2f} km/h" [Fixed2 (Float 10%float)];
      st_write "**Fitness Suggestion:** {}"
               [Text "Maintain current routine. Keep up the good work!"];
      st_subheader "Progress";
      st_write "**Calories Progress:** {:.2f}%" [Fixed2 (Float 78%float)];
      st_write "**Steps Progress:** {:.2f}%" [Fixed2 (Float 40%float)];
      st_warning "Dataset 'calories_burned_data.csv' not found for plotting." ].
Proof. vm_compute; reflexivity. Qed.

(* ================================================================= *)
(** * Part IV: further properties of the script *)
(* ================================================================= *)

(** ** Checks over a range, equal floats *)

Lemma forall_from_spec (p : Z -> bool) (n : nat) :
  forall lo : Z,
    forall_from lo n p = true ->
    forall z : Z, lo <= z < lo + Z.of_nat n -> p z = true.
Proof.
  induction n as [|n IH]; intros lo H z Hz.
  - lia.
  - cbn [forall_from] in H. apply andb_true_iff in H. destruct H as (H0 & H1).
    destruct (Z.eq_dec z lo) as [->|Hne]; [assumption|].
    apply (IH (lo + 1) H1). lia.
Qed.

Lemma forall_range_spec (lo hi : Z) (p : Z -> bool) :
  forall_range lo hi p = true ->
  forall z : Z, lo <= z <= hi -> p z = true.
Proof.
  intros H z Hz. apply (forall_from_spec p _ lo H). lia.
Qed.

(** Two floats that are numbers and stand for the same nonzero value are
    the same float. *)
Lemma float_scaled_inj (a b : float) :
  PrimFloat.is_nan a = false -> PrimFloat.is_nan b = false ->
  float_scaled a = float_scaled b -> float_scaled a <> 0 -> a = b.
Proof.
  rewrite !is_nan_spec. unfold float_scaled. intros Na Nb E Z0.
  apply Prim2SF_inj.
  pose proof (Prim2SF_valid a) as Va. pose proof (Prim2SF_valid b) as Vb.
  assert (T : 0 < 2 ^ (emax - emin)) by reflexivity.
  destruct (Prim2SF a) as [sa|sa| |sa ma ea] eqn:Ea;
    [exfalso; apply Z0; reflexivity| |discriminate|];
    (destruct (Prim2SF b) as [sb|sb| |sb mb eb] eqn:Eb; [| |discriminate|]);
    cbn [scaled] in E, Z0.
  - exfalso. destruct sa; cbn [cond_Zopp] in *; lia.
  - destruct sa, sb; cbn [cond_Zopp] in E; try reflexivity; exfalso; lia.
  - exfalso. pose proof (scaled_finite_pos mb eb Vb).
    destruct sa, sb; cbn [cond_Zopp] in E; lia.
  - exfalso. pose proof (scaled_finite_pos ma ea Va).
    destruct sa; cbn [cond_Zopp] in *; lia.
  - exfalso. pose proof (scaled_finite_pos ma ea Va).
    destruct sa, sb; cbn [cond_Zopp] in E; lia.
  - pose proof (scaled_finite_pos ma ea Va) as Pa.
    pose proof (scaled_finite_pos mb eb Vb) as Pb.
    assert (Es : sa = sb).
    { destruct sa, sb; cbn [cond_Zopp] in E; try reflexivity; exfalso; lia. }
    subst sb.
    assert (Em : Zpos ma * 2 ^ (ea - emin) = Zpos mb * 2 ^ (eb - emin)).
    { destruct sa; cbn [cond_Zopp] in E; lia. }
    pose proof (finite_compare ma ea mb eb Va Vb) as C.
    rewrite Em, Z.compare_refl in C.
    destruct (Z.compare_spec ea eb) as [->| |]; try discriminate.
    apply Pcompare_Eq_eq in C. now subst.
Qed.

(** ** The page, stage by stage *)

Lemma track_progress_page (w : World) (m : Metrics) (page : list element) :
  track_progress w m page = ((page ++ progress_lines w m)%list, Ok tt).
Proof.
  unfold track_progress, sbind, lift, emit, progress_lines.
  rewrite steps_progress_progress. rewrite <- !app_assoc. reflexivity.
Qed.

Lemma run_metrics_raise `{Runtime} (w : World) (e : exn) :
  compute_metrics w = Raise e ->
  run w = ([st_title "SMARTFIT AI - Personal Fitness Tracker"], Raise e).
Proof.
  intros Hm. unfold run, script. unfold sbind at 1. cbn [emit List.app].
  unfold sbind at 1. unfold lift at 1. now rewrite Hm.
Qed.

Lemma before_report_ok (w : World) (m : Metrics) (start : list element) :
  exists added : list element,
    (emit_all (metric_lines m) ;;
     track_progress w m ;;
     show_data_analysis w ;;
     compare_with_averages w m)%script start
    = ((start ++ metric_lines m ++ progress_lines w m ++ added)%list, Ok tt) /\
    forall s : string, ~ In (st_success s) added.
Proof.
  destruct (show_data_analysis_adds w) as (a2 & E2 & S2).
  destruct (compare_with_averages_adds w m) as (a3 & E3 & S3).
  exists ((a2 ++ a3)%list). split.
  - unfold sbind at 1. rewrite emit_all_spec.
    unfold sbind at 1. rewrite track_progress_page.
    unfold sbind at 1. rewrite E2. rewrite E3.
    now rewrite <- !app_assoc.
  - intros s. rewrite in_app_iff. intros [Hs|Hs]; [now apply (S2 s)|now apply (S3 s)].
Qed.

Lemma run_metrics_ok `{Runtime} (w : World) (m : Metrics) :
  compute_metrics w = Ok m ->
  run w = generate_pdf_report w m (page_before_report w m).
Proof.
  intros Hm. unfold run, script, page_before_report.
  destruct (before_report_ok w m
              [st_title "SMARTFIT AI - Personal Fitness Tracker";
               st_subheader "Your Fitness Metrics"]) as (added & E & _).
  unfold sbind at 1. cbn [emit List.app].
  unfold sbind at 1. unfold lift at 1. rewrite Hm.
  unfold sbind at 1. cbn [emit List.app].
  revert E. unfold sbind.
  destruct (emit_all (metric_lines m) _) as [p1 [[]|e1]]; [|discriminate].
  destruct (track_progress w m p1) as [p2 [[]|e2]]; [|discriminate].
  destruct (show_data_analysis w p2) as [p3 [[]|e3]]; [|discriminate].
  destruct (compare_with_averages w m p3) as [p4 [[]|e4]]; [|discriminate].
  reflexivity.
Qed.

Lemma page_before_report_spec (w : World) (m : Metrics) :
  exists added : list element,
    page_before_report w m
    = ([st_title "SMARTFIT AI - Personal Fitness Tracker";
        st_subheader "Your Fitness Metrics"]
       ++ metric_lines m ++ progress_lines w m ++ added)%list /\
    forall s : string, ~ In (st_success s) added.
Proof.
  unfold page_before_report.
  destruct (before_report_ok w m
              [st_title "SMARTFIT AI - Personal Fitness Tracker";
               st_subheader "Your Fitness Metrics"]) as (added & E & S).
  exists added. rewrite E. split; [reflexivity|exact S].
Qed.

Lemma page_kept `{Runtime} (w : World) (m : Metrics) (line : element) :
  compute_metrics w = Ok m ->
  In line (page_before_report w m) -> In line (fst (run w)).
Proof.
  intros Hm Hin. rewrite (run_metrics_ok w m Hm).
  unfold generate_pdf_report, when.
  destruct (report_button w); [|exact Hin].
  unfold sbind, lift, emit.
  destruct (pdf_output w (report_cells w m)) as [[]|e]; cbn [fst];
    [apply in_or_app; now left|exact Hin].
Qed.

(** X1.  The script ends with an exception exactly when the metric
    computation raises it or, with "Generate PDF Report" pressed, writing
    the PDF raises it: whatever is wrong with the dataset never ends the
    script. *)
Theorem script_raises `{Runtime} (w : World) (e : exn) :
  snd (run w) = Raise e <->
  compute_metrics w = Raise e \/
  (exists m : Metrics,
      compute_metrics w = Ok m /\ report_button w = true /\
      pdf_output w (report_cells w m) = Raise e).
Proof.
  destruct (compute_metrics w) as [m|e0] eqn:Hm.
  - rewrite (run_metrics_ok w m Hm).
    unfold generate_pdf_report, when.
    destruct (report_button w) eqn:Hb.
    + unfold sbind, lift, emit.
      destruct (pdf_output w (report_cells w m)) as [[]|e1] eqn:Hw; cbn [snd].
      * split; [discriminate|].
        intros [D|(m' & [= <-] & _ & D)]; [discriminate|]. congruence.
      * split.
        -- intros [= ->]. right. exists m. auto.
        -- intros [D|(m' & [= <-] & _ & D)]; [discriminate|]. congruence.
    + unfold sret. cbn [snd]. split; [discriminate|].
      intros [D|(m' & _ & D & _)]; discriminate.
  - rewrite (run_metrics_raise w e0 Hm). cbn [snd]. split.
    + intros [= ->]. now left.
    + intros [[= ->]|(m' & D & _)]; [reflexivity|discriminate].
Qed.

(** X2.  Without the dataset file the page still carries every metric and
    progress line; the only trace of the missing file is one warning under
    them, and a second one when "Compare with Dataset Averages" is pressed
    (the comparison finds no [df]).  The script goes on to its end. *)
Theorem page_without_dataset `{Runtime} (w : World) (m : Metrics) (e : exn) :
  compute_metrics w = Ok m ->
  read_csv w = Raise e ->
  report_button w = false ->
  run w
  = (([st_title "SMARTFIT AI - Personal Fitness Tracker";
       st_subheader "Your Fitness Metrics"]
      ++ metric_lines m ++ progress_lines w m
      ++ [st_warning "Dataset 'calories_burned_data.csv' not found for plotting."]
      ++ (if compare_button w
          then [st_warning "Dataset not available for comparison."]
          else []))%list,
     Ok tt).
Proof.
  intros Hm Hr Hb. rewrite (run_metrics_ok w m Hm).
  unfold generate_pdf_report, when. rewrite Hb. unfold sret.
  unfold page_before_report.
  unfold sbind at 1. rewrite emit_all_spec.
  unfold sbind at 1. rewrite track_progress_page.
  unfold sbind at 1.
  unfold show_data_analysis, try_except. unfold sbind at 1. unfold lift at 1.
  rewrite Hr. unfold emit at 1.
  unfold compare_with_averages, when.
  destruct (compare_button w).
  - unfold try_except. unfold sbind at 1. unfold lift at 1. rewrite Hr.
    unfold emit. cbn [fst]. now rewrite <- !app_assoc.
  - unfold sret. cbn [fst]. now rewrite <- !app_assoc, app_nil_r.
Qed.

Lemma page_without_dataset_witness :
  read_csv default_world = Raise (LibraryError "FileNotFoundError") /\
  report_button default_world = false /\
  fst (@run reference_runtime default_world)
  = [ st_title "SMARTFIT AI - Personal Fitness Tracker";
      st_subheader "Your Fitness Metrics";
      st_write "**Calories Burned:** {:.2f}" [Fixed2 (Float 390%float)];
      st_write "**BMI:** {:.2f} ({})"
               [Fixed2 (Float 0x1.838b129a21a94p+4%float); Text "Normal"];
      st_write "**Workout Intensity:** {:.2f}%"
               [Fixed2 (Float 0x1.4834834834834p+5%float)];
      st_write "**Running Speed:** {:.2f} km/h" [Fixed2 (Float 10%float)];
      st_write "**Fitness Suggestion:** {}"
               [Text "Maintain current routine. Keep up the good work!"];
      st_subheader "Progress";
      st_write "**Calories Progress:** {:.2f}%" [Fixed2 (Float 78%float)];
      st_write "**Steps Progress:** {:.2f}%" [Fixed2 (Float 40%float)];
      st_warning "Dataset 'calories_burned_data.csv' not found for plotting." ].
Proof.
  split; [reflexivity|]. split; [reflexivity|].
  assert (Hm : @compute_metrics reference_runtime default_world
               = Ok {| calories_burned := 390%float;
                       bmi := 0x1.838b129a21a94p+4%float;
                       intensity := 0x1.4834834834834p+5%float;
                       speed := Float 10%float;
                       bmi_category := "Normal";
                       suggestion_text :=
                         "Maintain current routine. Keep up the good work!" |})
    by (vm_compute; reflexivity).
  rewrite (@page_without_dataset reference_runtime default_world _
             (LibraryError "FileNotFoundError") Hm eq_refl eq_refl).
  vm_compute. reflexivity.
Defined.

(** X3.  A dataset that is read but has no "Calories Burned" column leaves
    the heading of the chart on the page, followed by the warning that the
    file was not found; the comparison, whose heading comes after its four
    means, never leaves a part of itself: it adds nothing when its button
    is not pressed, the heading and four lines when all means are there,
    and its warning alone otherwise. *)
Theorem partial_dataset (w : World) (m : Metrics) (page : list element) :
  (forall (df : DataFrame) (e : exn),
      read_csv w = Ok df -> calories_chart df = Raise e ->
      show_data_analysis w page
      = ((page ++ [st_subheader "Calories Burned Distribution";
                   st_warning
                     "Dataset 'calories_burned_data.csv' not found for plotting."])%list,
         Ok tt)) /\
  (forall df : DataFrame,
      read_csv w = Ok df -> calories_chart df = Ok tt ->
      show_data_analysis w page
      = ((page ++ [st_subheader "Calories Burned Distribution";
                   st_bar_chart])%list, Ok tt)) /\
  (compare_button w = false -> compare_with_averages w m page = (page, Ok tt)) /\
  (forall (df : DataFrame) (e : exn),
      compare_button w = true ->
      read_csv w = Ok df -> column_means df = Raise e ->
      compare_with_averages w m page
      = ((page ++ [st_warning "Dataset not available for comparison."])%list,
         Ok tt)) /\
  (forall (df : DataFrame)
          (avg_calories_burned avg_bmi avg_running_speed avg_heart_rate : float),
      compare_button w = true ->
      read_csv w = Ok df ->
      column_means df
      = Ok (avg_calories_burned, avg_bmi, avg_running_speed, avg_heart_rate) ->
      compare_with_averages w m page
      = ((page ++
          [ st_subheader "Comparison with Dataset Averages";
            st_write "**Your Calories Burned:** {:.2f} | Dataset Avg: {:.2f}"
                     [Fixed2 (Float (calories_burned m));
                      Fixed2 (Float avg_calories_burned)];
            st_write "**Your BMI:** {:.2f} | Dataset Avg: {:.2f}"
                     [Fixed2 (Float (bmi m)); Fixed2 (Float avg_bmi)];
            st_write "**Your Running Speed:** {:.2f} | Dataset Avg: {:.2f}"
                     [Fixed2 (speed m); Fixed2 (Float avg_running_speed)];
            st_write "**Your Heart Rate:** {:.2f} | Dataset Avg: {:.2f}"
                     [Fixed2 (Int (heart_rate w));
                      Fixed2 (Float avg_heart_rate)] ])%list,
         Ok tt)).
Proof.
  split; [|split; [|split; [|split]]].
  - intros df e Hr Hc.
    unfold show_data_analysis, try_except, sbind, lift, emit.
    rewrite Hr, Hc. now rewrite <- !app_assoc.
  - intros df Hr Hc.
    unfold show_data_analysis, try_except, sbind, lift, emit.
    rewrite Hr, Hc. now rewrite <- !app_assoc.
  - intros Hb. unfold compare_with_averages, when. now rewrite Hb.
  - intros df e Hb Hr Hc.
    unfold compare_with_averages, when, try_except, sbind, lift, emit.
    now rewrite Hb, Hr, Hc.
  - intros df a b c d Hb Hr Hc.
    unfold compare_with_averages, when, try_except, sbind, lift, emit.
    rewrite Hb, Hr, Hc. now rewrite <- !app_assoc.
Qed.

Lemma partial_dataset_witness :
  read_csv (with_dataset (Ok dataset_without_columns) true)
  = Ok dataset_without_columns /\
  calories_chart dataset_without_columns = Raise (LibraryError "KeyError") /\
  show_data_analysis (with_dataset (Ok dataset_without_columns) true) []
  = ([st_subheader "Calories Burned Distribution";
      st_warning "Dataset 'calories_burned_data.csv' not found for plotting."],
     Ok tt).
Proof.
  split; [reflexivity|]. split; [reflexivity|].
  exact (proj1 (partial_dataset (with_dataset (Ok dataset_without_columns) true)
                  {| calories_burned := 390%float;
                     bmi := 0x1.838b129a21a94p+4%float;
                     intensity := 0x1.4834834834834p+5%float;
                     speed := Float 10%float;
                     bmi_category := "Normal";
                     suggestion_text :=
                       "Maintain current routine. Keep up the good work!" |}
                  [])
           dataset_without_columns (LibraryError "KeyError") eq_refl eq_refl).
Defined.

(** ** The report *)

(** X4.  The PDF is written only when "Generate PDF Report" is pressed:
    without the button the run is the same whatever writing would do, and
    no success message appears.  With the button and a write that succeeds
    the run ends normally with the success message as the last thing on
    the page, after every metric line, and what is written has twelve
    cells. *)
Theorem report_on_demand `{Runtime} (w : World) (m : Metrics) :
  compute_metrics w = Ok m ->
  (report_button w = false ->
   (forall f, run (with_pdf_output w f) = run w) /\
   snd (run w) = Ok tt /\
   forall s : string, ~ In (st_success s) (fst (run w))) /\
  (report_button w = true ->
   pdf_output w (report_cells w m) = Ok tt ->
   List.length (report_cells w m) = 12%nat /\
   exists page : list element,
     run w
     = ((page ++ [st_success "PDF report generated as fitness_report.pdf"])%list,
        Ok tt) /\
     (forall line, In line (metric_lines m) -> In line page) /\
     forall s : string, ~ In (st_success s) page).
Proof.
  intros Hm.
  destruct (page_before_report_spec w m) as (added & E & S).
  assert (NS : forall s : string, ~ In (st_success s) (page_before_report w m)).
  { intros s. rewrite E, !in_app_iff. intros [Hs|[Hs|[Hs|Hs]]].
    - cbn in Hs. intuition discriminate.
    - cbn in Hs. intuition discriminate.
    - cbn in Hs. intuition discriminate.
    - now apply (S s). }
  split.
  - intros Hb. split; [|split].
    + intros f.
      assert (Hm' : compute_metrics (with_pdf_output w f) = Ok m) by exact Hm.
      rewrite (run_metrics_ok w m Hm), (run_metrics_ok _ m Hm').
      unfold generate_pdf_report, when.
      change (report_button (with_pdf_output w f)) with (report_button w).
      rewrite Hb. reflexivity.
    + rewrite (run_metrics_ok w m Hm). unfold generate_pdf_report, when.
      now rewrite Hb.
    + rewrite (run_metrics_ok w m Hm). unfold generate_pdf_report, when.
      rewrite Hb. exact NS.
  - intros Hb Hw. split; [reflexivity|].
    exists (page_before_report w m). split; [|split].
    + rewrite (run_metrics_ok w m Hm). unfold generate_pdf_report, when.
      rewrite Hb. unfold sbind, lift, emit. now rewrite Hw.
    + intros line Hin. rewrite E, !in_app_iff. auto.
    + exact NS.
Qed.

Lemma report_on_demand_witness :
  report_button default_world = false /\
  snd (@run reference_runtime default_world) = Ok tt.
Proof.
  split; [reflexivity|].
  assert (Hm : @compute_metrics reference_runtime default_world
               = Ok {| calories_burned := 390%float;
                       bmi := 0x1.838b129a21a94p+4%float;
                       intensity := 0x1.4834834834834p+5%float;
                       speed := Float 10%float;
                       bmi_category := "Normal";
                       suggestion_text :=
                         "Maintain current routine. Keep up the good work!" |})
    by (vm_compute; reflexivity).
  exact (proj1 (proj2 (proj1 (@report_on_demand reference_runtime
                                default_world _ Hm) eq_refl))).
Defined.

(** ** Start-up *)

Lemma bind_ok {A B : Type} (c : res A) (k : A -> res B) (b : B) :
  Py.bind c k = Ok b -> exists a, c = Ok a /\ k a = Ok b.
Proof. destruct c as [a|e]; [|discriminate]. intros E. now exists a. Qed.

(** X5.  The script loads five pickles, in the order calories model, BMI
    model, heart-rate model, running-speed model, scaler, and all of them
    must load, also the three models it never uses: the first file in that
    order whose load fails ends the script with the exception of that very
    load, before anything is on the page.  When all five are loaded the
    page is computed with [predict] of the calories model and [transform]
    of the scaler, and nothing depends on what the other three are. *)
Theorem unused_models (pow : float -> float -> float)
    (joblib_load : string -> res Pickle) (w : World) :
  (forall (before after : list string) (path : string) (e : exn),
      model_files = (before ++ path :: after)%list ->
      (forall p : string,
          In p before -> exists loaded : Pickle, joblib_load p = Ok loaded) ->
      joblib_load path = Raise e ->
      app_py pow joblib_load w = ([], Raise e)) /\
  (forall calories_model bmi_model heart_rate_model running_speed_model
          scaler : Pickle,
      joblib_load "models/calories_model.pkl" = Ok calories_model ->
      joblib_load "models/bmi_model.pkl" = Ok bmi_model ->
      joblib_load "models/heart_rate_model.pkl" = Ok heart_rate_model ->
      joblib_load "models/running_speed_model.pkl" = Ok running_speed_model ->
      joblib_load "models/scaler.pkl" = Ok scaler ->
      app_py pow joblib_load w
      = @run (loaded_runtime pow calories_model scaler) w) /\
  (forall (joblib_load' : string -> res Pickle)
          (loaded loaded' : Pickle * Pickle * Pickle * Pickle * Pickle),
      load_models joblib_load = Ok loaded ->
      load_models joblib_load' = Ok loaded' ->
      joblib_load' "models/calories_model.pkl"
      = joblib_load "models/calories_model.pkl" ->
      joblib_load' "models/scaler.pkl" = joblib_load "models/scaler.pkl" ->
      app_py pow joblib_load' w = app_py pow joblib_load w).
Proof.
  split; [|split].
  - intros before after path e Hsplit Hbefore He.
    unfold model_files in Hsplit. unfold app_py, load_models.
    destruct before as [|b0 before]; cbn [List.app] in Hsplit.
    { injection Hsplit as <- _. now rewrite He. }
    injection Hsplit as <- Hsplit.
    destruct (Hbefore "models/calories_model.pkl") as (x0 & E0);
      [cbn [In]; tauto|]. rewrite E0. cbn [Py.bind].
    destruct before as [|b1 before]; cbn [List.app] in Hsplit.
    { injection Hsplit as <- _. now rewrite He. }
    injection Hsplit as <- Hsplit.
    destruct (Hbefore "models/bmi_model.pkl") as (x1 & E1);
      [cbn [In]; tauto|]. rewrite E1. cbn [Py.bind].
    destruct before as [|b2 before]; cbn [List.app] in Hsplit.
    { injection Hsplit as <- _. now rewrite He. }
    injection Hsplit as <- Hsplit.
    destruct (Hbefore "models/heart_rate_model.pkl") as (x2 & E2);
      [cbn [In]; tauto|]. rewrite E2. cbn [Py.bind].
    destruct before as [|b3 before]; cbn [List.app] in Hsplit.
    { injection Hsplit as <- _. now rewrite He. }
    injection Hsplit as <- Hsplit.
    destruct (Hbefore "models/running_speed_model.pkl") as (x3 & E3);
      [cbn [In]; tauto|]. rewrite E3. cbn [Py.bind].
    destruct before as [|b4 before]; cbn [List.app] in Hsplit.
    { injection Hsplit as <- _. now rewrite He. }
    injection Hsplit as _ Hsplit.
    destruct before; discriminate.
  - intros c b h r s Ec Eb Eh Er Es.
    unfold app_py, load_models. now rewrite Ec, Eb, Eh, Er, Es.
  - intros load' [[[[c b] h] r] s] [[[[c' b'] h'] r'] s'] Hl Hl' Hc Hs.
    unfold app_py. rewrite Hl, Hl'.
    unfold load_models in Hl, Hl'.
    apply bind_ok in Hl. destruct Hl as (x1 & L1 & Hl).
    apply bind_ok in Hl. destruct Hl as (x2 & L2 & Hl).
    apply bind_ok in Hl. destruct Hl as (x3 & L3 & Hl).
    apply bind_ok in Hl. destruct Hl as (x4 & L4 & Hl).
    apply bind_ok in Hl. destruct Hl as (x5 & L5 & Hl).
    apply bind_ok in Hl'. destruct Hl' as (y1 & M1 & Hl').
    apply bind_ok in Hl'. destruct Hl' as (y2 & M2 & Hl').
    apply bind_ok in Hl'. destruct Hl' as (y3 & M3 & Hl').
    apply bind_ok in Hl'. destruct Hl' as (y4 & M4 & Hl').
    apply bind_ok in Hl'. destruct Hl' as (y5 & M5 & Hl').
    injection Hl as <- <- <- <- <-. injection Hl' as <- <- <- <- <-.
    rewrite Hc, L1 in M1. rewrite Hs, L5 in M5.
    injection M1 as <-. injection M5 as <-. reflexivity.
Qed.

(** Two files are broken; the script ends with the exception of the one it
    loads first. *)
Lemma unused_models_witness :
  model_files
  = (["models/calories_model.pkl"]
     ++ "models/bmi_model.pkl"
     :: ["models/heart_rate_model.pkl"; "models/running_speed_model.pkl";
         "models/scaler.pkl"])%list /\
  broken_models "models/calories_model.pkl" = Ok reference_pickle /\
  broken_models "models/bmi_model.pkl"
  = Raise (LibraryError "FileNotFoundError") /\
  broken_models "models/scaler.pkl" = Raise (LibraryError "UnpicklingError") /\
  app_py (@libm_pow reference_runtime) broken_models default_world
  = ([], Raise (LibraryError "FileNotFoundError")).
Proof.
  split; [reflexivity|]. split; [reflexivity|]. split; [reflexivity|].
  split; [reflexivity|].
  apply (proj1 (unused_models (@libm_pow reference_runtime)
                  broken_models default_world)
           ["models/calories_model.pkl"]
           ["models/heart_rate_model.pkl"; "models/running_speed_model.pkl";
            "models/scaler.pkl"]
           "models/bmi_model.pkl" (LibraryError "FileNotFoundError")).
  - reflexivity.
  - intros p [<-|[]]. now exists reference_pickle.
  - reflexivity.
Defined.

(** ** BMI: order *)

Lemma threshold_order :
  PrimFloat.is_nan 18.5%float = false /\
  PrimFloat.is_nan (float_of_int 25) = false /\
  PrimFloat.is_nan (float_of_int 30) = false /\
  float_scaled 18.5%float < float_scaled (float_of_int 25) /\
  float_scaled (float_of_int 25) < float_scaled (float_of_int 30).
Proof. repeat split; vm_compute; reflexivity. Qed.

Lemma classify_bmi_rank (bmi : float) :
  PrimFloat.is_nan bmi = false ->
  category_rank (classify_bmi bmi)
  = if float_scaled bmi <? float_scaled 18.5%float then 0%nat
    else if float_scaled bmi <? float_scaled (float_of_int 25) then 1%nat
    else if float_scaled bmi <? float_scaled (float_of_int 30) then 2%nat
    else 3%nat.
Proof.
  intros Nn. destruct threshold_order as (N1 & N2 & N3 & L1 & L2).
  unfold classify_bmi, float_lt_int, int_le_float.
  rewrite !ltb_scaled, !leb_scaled by assumption.
  revert L1 L2.
  generalize (float_scaled 18.5%float) (float_scaled (float_of_int 25))
    (float_scaled (float_of_int 30)) (float_scaled bmi).
  intros t1 t2 t3 b L1 L2.
  destruct (Z.ltb_spec b t1), (Z.leb_spec t1 b), (Z.ltb_spec b t2),
    (Z.leb_spec t2 b), (Z.ltb_spec b t3); cbn [andb];
    try reflexivity; exfalso; lia.
Qed.

Lemma classify_bmi_monotone_aux (bmi1 bmi2 : float) :
  PrimFloat.leb bmi1 bmi2 = true ->
  (category_rank (classify_bmi bmi1) <= category_rank (classify_bmi bmi2))%nat.
Proof.
  intros H. destruct (leb_true_not_nan _ _ H) as (N1 & N2).
  rewrite leb_scaled in H by assumption. apply Z.leb_le in H.
  rewrite !classify_bmi_rank by assumption.
  destruct threshold_order as (_ & _ & _ & L1 & L2).
  revert H L1 L2.
  generalize (float_scaled 18.5%float) (float_scaled (float_of_int 25))
    (float_scaled (float_of_int 30)) (float_scaled bmi1) (float_scaled bmi2).
  intros t1 t2 t3 b1 b2 H L1 L2.
  destruct (Z.ltb_spec b1 t1), (Z.ltb_spec b1 t2), (Z.ltb_spec b1 t3),
    (Z.ltb_spec b2 t1), (Z.ltb_spec b2 t2), (Z.ltb_spec b2 t3); lia.
Qed.

(** X6.  A higher BMI never gets a lower category: in the order
    Underweight, Normal, Overweight, Obese the category of the larger of
    two values is the same or a later one.  A BMI that is not a number
    fails every comparison and comes out as Obese. *)
Theorem classify_bmi_monotone :
  (forall bmi1 bmi2 : float,
      PrimFloat.leb bmi1 bmi2 = true ->
      (category_rank (classify_bmi bmi1)
       <= category_rank (classify_bmi bmi2))%nat) /\
  (forall bmi : float,
      PrimFloat.is_nan bmi = true ->
      classify_bmi bmi = "Obese" /\
      provide_suggestions bmi
      = "Consult a healthcare provider for a tailored fitness plan.").
Proof.
  split; [exact classify_bmi_monotone_aux|].
  intros bmi Hn.
  assert (L : forall c, PrimFloat.ltb bmi c = false).
  { intros c. destruct (PrimFloat.ltb bmi c) eqn:E; [|reflexivity].
    apply ltb_true_not_nan in E. destruct E; congruence. }
  assert (G : forall c, PrimFloat.leb c bmi = false).
  { intros c. destruct (PrimFloat.leb c bmi) eqn:E; [|reflexivity].
    apply leb_true_not_nan in E. destruct E; congruence. }
  unfold classify_bmi, provide_suggestions, float_lt_int, int_le_float.
  now rewrite !L, !G.
Qed.

Lemma classify_bmi_monotone_witness :
  PrimFloat.leb 24.5%float 31%float = true /\
  classify_bmi 24.5%float = "Normal" /\ classify_bmi 31%float = "Obese" /\
  (category_rank "Normal" <= category_rank "Obese")%nat.
Proof.
  split; [reflexivity|]. split; [reflexivity|]. split; [reflexivity|].
  exact (proj1 classify_bmi_monotone 24.5%float 31%float eq_refl).
Defined.

(** ** BMI: the value *)

Lemma calculate_bmi_value `{Runtime} (height : Z) :
  pow_in_range -> 0 < height <= 2 ^ 53 ->
  exists square : float,
    pos_finite square /\
    forall weight : Z,
      calculate_bmi height weight = Ok (float_of_int weight / square)%float.
Proof.
  intros Hpow Hh.
  set (h_m := (float_of_int height / float_of_int 100)%float).
  destruct (int_truediv_literal height 100 ltac:(lia) ltac:(lia)) as (E & L & U).
  fold h_m in E, L, U.
  destruct hundredth_bounds as (B1 & B2 & B3 & B4).
  assert (P : pos_finite h_m) by (unfold pos_finite; lia).
  pose proof (pos_finite_not_nan _ P) as Nn.
  set (square := if PrimFloat.eqb h_m 1%float then 1%float
                 else libm_pow h_m 2%float).
  assert (S : positive_finite square = true).
  { unfold square. destruct (PrimFloat.eqb h_m 1); [reflexivity|].
    apply Hpow; rewrite leb_scaled by first [reflexivity | assumption];
      apply Z.leb_le; lia. }
  assert (Psq : pos_finite square) by now apply pos_finite_positive.
  exists square. split; [assumption|]. intros weight.
  unfold calculate_bmi. rewrite E. cbn [Py.bind].
  unfold float_pow2.
  rewrite Nn, (pos_finite_is_infinity _ P), (pos_finite_eqb_zero _ P),
    (pos_finite_abs _ P).
  fold square.
  assert (R : (if PrimFloat.eqb h_m 1 then Ok 1%float
               else if PrimFloat.is_infinity (libm_pow h_m 2)
                    then Raise OverflowError else Ok (libm_pow h_m 2))
              = Ok square).
  { unfold square in *. destruct (PrimFloat.eqb h_m 1); [reflexivity|].
    now rewrite (pos_finite_is_infinity _ Psq). }
  rewrite R. cbn [Py.bind]. unfold int_div_float.
  now rewrite (pos_finite_eqb_zero _ Psq).
Qed.

(** X7.  At a given height a higher weight never gives a lower BMI, nor a
    lower category; the BMI is never negative and never NaN. *)
Theorem bmi_nondecreasing_in_weight `{Runtime} (height weight1 weight2 : Z) :
  pow_in_range ->
  0 < height <= 2 ^ 53 ->
  0 <= weight1 -> weight1 <= weight2 -> weight2 <= 2 ^ 53 ->
  exists bmi1 bmi2 : float,
    calculate_bmi height weight1 = Ok bmi1 /\
    calculate_bmi height weight2 = Ok bmi2 /\
    PrimFloat.leb 0%float bmi1 = true /\
    PrimFloat.leb bmi1 bmi2 = true /\
    (category_rank (classify_bmi bmi1)
     <= category_rank (classify_bmi bmi2))%nat.
Proof.
  intros Hpow Hh H0 H12 H2.
  destruct (calculate_bmi_value height Hpow Hh) as (sq & Psq & E).
  destruct (float_of_int_scaled weight1 ltac:(lia)) as (N1 & E1).
  destruct (float_of_int_scaled weight2 ltac:(lia)) as (N2 & E2).
  assert (PP : 0 < 2 ^ (- emin)) by reflexivity.
  destruct (div_nonneg _ _ Psq N1 ltac:(rewrite E1; nia)) as (Nb1 & P1).
  destruct (div_mono _ _ sq Psq N1 N2 ltac:(rewrite E1, E2; nia))
    as (_ & Nb2 & L).
  assert (LE : PrimFloat.leb (float_of_int weight1 / sq)%float
                             (float_of_int weight2 / sq)%float = true).
  { rewrite leb_scaled by assumption. now apply Z.leb_le. }
  exists (float_of_int weight1 / sq)%float, (float_of_int weight2 / sq)%float.
  split; [apply E|]. split; [apply E|]. split; [|split].
  - rewrite leb_scaled by first [reflexivity|assumption]. now apply Z.leb_le.
  - exact LE.
  - now apply classify_bmi_monotone_aux.
Qed.

Lemma bmi_nondecreasing_in_weight_witness :
  0 < 170 <= 2 ^ 53 /\ 0 <= 70 /\ 70 <= 90 /\ 90 <= 2 ^ 53 /\
  exists bmi1 bmi2 : float,
    @calculate_bmi reference_runtime 170 70 = Ok bmi1 /\
    @calculate_bmi reference_runtime 170 90 = Ok bmi2 /\
    PrimFloat.leb bmi1 bmi2 = true.
Proof.
  split; [lia|]. split; [lia|]. split; [lia|]. split; [lia|].
  destruct (@bmi_nondecreasing_in_weight reference_runtime 170 70 90
              reference_pow_in_range ltac:(lia) ltac:(lia) ltac:(lia) ltac:(lia))
    as (b1 & b2 & E1 & E2 & _ & L & _).
  exists b1, b2. auto.
Defined.

(** ** Workout intensity and running speed over the widget ranges *)

Lemma ltb_trans (a b c : float) :
  PrimFloat.ltb a b = true -> PrimFloat.ltb b c = true ->
  PrimFloat.ltb a c = true.
Proof.
  intros H1 H2.
  destruct (ltb_true_not_nan _ _ H1) as (Na & Nb).
  destruct (ltb_true_not_nan _ _ H2) as (_ & Nc).
  rewrite ltb_scaled in * by assumption.
  apply Z.ltb_lt in H1, H2. apply Z.ltb_lt. lia.
Qed.

(** A relation that holds from each integer of a range to the next holds
    between any two of them. *)
Lemma chain (R : float -> float -> Prop) (f : Z -> float) (lo hi : Z) :
  (forall x y z, R x y -> R y z -> R x z) ->
  (forall z, lo <= z < hi -> R (f z) (f (z + 1))) ->
  forall a b, lo <= a -> a < b -> b <= hi -> R (f a) (f b).
Proof.
  intros Rt Hs a b Ha Hab Hb.
  replace b with (a + 1 + Z.of_nat (Z.to_nat (b - a - 1))) in * by lia.
  induction (Z.to_nat (b - a - 1)) as [|n IH].
  - rewrite Z.add_0_r. apply Hs. lia.
  - apply Rt with (f (a + 1 + Z.of_nat n)); [apply IH; lia|].
    replace (a + 1 + Z.of_nat (S n)) with (a + 1 + Z.of_nat n + 1) by lia.
    apply Hs. lia.
Qed.

Lemma workout_intensity_value (age heart_rate : Z) :
  age <> 220 ->
  calculate_workout_intensity age heart_rate
  = Ok (float_of_int heart_rate / float_of_int (220 - age)
        * float_of_int 100)%float.
Proof.
  intros Hage. unfold calculate_workout_intensity, int_truediv, float_mul_int.
  destruct (Z.eqb_spec (220 - age) 0); [lia|reflexivity].
Qed.

Lemma workout_intensity_bounds_table :
  forall_range 10 100 (fun age =>
    forall_range 50 200 (fun heart_rate =>
      let v := (float_of_int heart_rate / float_of_int (220 - age)
                * float_of_int 100)%float in
      PrimFloat.leb 0x1.7cf3cf3cf3cf3p+4%float v
      && PrimFloat.leb v 0x1.4d55555555556p+7%float)) = true.
Proof. vm_compute. reflexivity. Qed.

Lemma workout_intensity_heart_rate_table :
  forall_range 10 100 (fun age =>
    forall_range 50 199 (fun heart_rate =>
      PrimFloat.ltb
        (float_of_int heart_rate / float_of_int (220 - age)
         * float_of_int 100)%float
        (float_of_int (heart_rate + 1) / float_of_int (220 - age)
         * float_of_int 100)%float)) = true.
Proof. vm_compute. reflexivity. Qed.

Lemma workout_intensity_age_table :
  forall_range 50 200 (fun heart_rate =>
    forall_range 10 99 (fun age =>
      PrimFloat.ltb
        (float_of_int heart_rate / float_of_int (220 - age)
         * float_of_int 100)%float
        (float_of_int heart_rate / float_of_int (220 - (age + 1))
         * float_of_int 100)%float)) = true.
Proof. vm_compute. reflexivity. Qed.

(** X8.  Over the ranges of the age and heart-rate sliders the workout
    intensity is always computed, and lies between its value for the
    youngest user at the lowest heart rate (50 / 210 * 100, about 23.8) and
    its value for the oldest at the highest (200 / 120 * 100, about
    166.7). *)
Theorem workout_intensity_widget_range (age heart_rate : Z) :
  10 <= age <= 100 -> 50 <= heart_rate <= 200 ->
  exists intensity : float,
    calculate_workout_intensity age heart_rate = Ok intensity /\
    calculate_workout_intensity 10 50 = Ok 0x1.7cf3cf3cf3cf3p+4%float /\
    calculate_workout_intensity 100 200 = Ok 0x1.4d55555555556p+7%float /\
    PrimFloat.leb 0x1.7cf3cf3cf3cf3p+4%float intensity = true /\
    PrimFloat.leb intensity 0x1.4d55555555556p+7%float = true.
Proof.
  intros Ha Hh. eexists. split; [apply workout_intensity_value; lia|].
  split; [reflexivity|]. split; [reflexivity|].
  pose proof (forall_range_spec _ _ _ workout_intensity_bounds_table age Ha) as T.
  cbv beta in T.
  pose proof (forall_range_spec _ _ _ T heart_rate Hh) as T'.
  cbv beta zeta in T'. now apply andb_true_iff in T'.
Qed.

Lemma workout_intensity_widget_range_witness :
  10 <= 25 <= 100 /\ 50 <= 80 <= 200 /\
  exists intensity : float,
    calculate_workout_intensity 25 80 = Ok intensity /\
    PrimFloat.leb intensity 0x1.4d55555555556p+7%float = true.
Proof.
  split; [lia|]. split; [lia|].
  destruct (workout_intensity_widget_range 25 80 ltac:(lia) ltac:(lia))
    as (v & E & _ & _ & _ & U).
  exists v. auto.
Defined.

(** X9.  Over the ranges of the sliders the workout intensity is strictly
    increasing in the heart rate at every age, and strictly increasing in
    the age at every heart rate: rounding never makes two different inputs
    of one slider show the same intensity. *)
Theorem workout_intensity_increasing :
  (forall age heart_rate1 heart_rate2 : Z,
      10 <= age <= 100 ->
      50 <= heart_rate1 -> heart_rate1 < heart_rate2 -> heart_rate2 <= 200 ->
      exists v1 v2 : float,
        calculate_workout_intensity age heart_rate1 = Ok v1 /\
        calculate_workout_intensity age heart_rate2 = Ok v2 /\
        PrimFloat.ltb v1 v2 = true) /\
  (forall age1 age2 heart_rate : Z,
      50 <= heart_rate <= 200 ->
      10 <= age1 -> age1 < age2 -> age2 <= 100 ->
      exists v1 v2 : float,
        calculate_workout_intensity age1 heart_rate = Ok v1 /\
        calculate_workout_intensity age2 heart_rate = Ok v2 /\
        PrimFloat.ltb v1 v2 = true).
Proof.
  split.
  - intros age h1 h2 Ha H1 H12 H2. do 2 eexists.
    split; [apply workout_intensity_value; lia|].
    split; [apply workout_intensity_value; lia|].
    pose proof (forall_range_spec _ _ _ workout_intensity_heart_rate_table age Ha)
      as T. cbv beta in T.
    apply (chain (fun x y => PrimFloat.ltb x y = true)
             (fun h => (float_of_int h / float_of_int (220 - age)
                        * float_of_int 100)%float) 50 200);
      [exact ltb_trans| |lia|lia|lia].
    intros z Hz. apply (forall_range_spec _ _ _ T z). lia.
  - intros a1 a2 hr Hh H1 H12 H2. do 2 eexists.
    split; [apply workout_intensity_value; lia|].
    split; [apply workout_intensity_value; lia|].
    pose proof (forall_range_spec _ _ _ workout_intensity_age_table hr Hh)
      as T. cbv beta in T.
    apply (chain (fun x y => PrimFloat.ltb x y = true)
             (fun a => (float_of_int hr / float_of_int (220 - a)
                        * float_of_int 100)%float) 10 100);
      [exact ltb_trans| |lia|lia|lia].
    intros z Hz. apply (forall_range_spec _ _ _ T z). lia.
Qed.

Lemma workout_intensity_increasing_witness :
  10 <= 25 <= 100 /\ 50 <= 80 /\ 80 < 81 /\ 81 <= 200 /\
  exists v1 v2 : float,
    calculate_workout_intensity 25 80 = Ok v1 /\
    calculate_workout_intensity 25 81 = Ok v2 /\
    PrimFloat.ltb v1 v2 = true.
Proof.
  split; [lia|]. split; [lia|]. split; [lia|]. split; [lia|].
  exact (proj1 workout_intensity_increasing 25 80 81
           ltac:(lia) ltac:(lia) ltac:(lia) ltac:(lia)).
Defined.

Lemma running_speed_value (distance running_time : Z) :
  0 < running_time <= 2 ^ 53 ->
  calculate_running_speed distance running_time
  = Ok (Float (float_of_int distance
               / (float_of_int running_time / float_of_int 60))%float).
Proof.
  intros Ht. unfold calculate_running_speed.
  destruct (Z.gtb_spec running_time 0); [|lia].
  destruct (int_truediv_literal running_time 60 ltac:(lia) ltac:(lia))
    as (-> & L & U).
  destruct sixtieth_bounds as (B1 & B2).
  assert (P : pos_finite (float_of_int running_time / float_of_int 60)%float)
    by (unfold pos_finite; lia).
  cbn [Py.bind]. unfold int_div_float.
  now rewrite (pos_finite_eqb_zero _ P).
Qed.

Lemma running_speed_bounds_table :
  forall_range 1 120 (fun running_time =>
    forall_range 0 50 (fun distance =>
      let v := (float_of_int distance
                / (float_of_int running_time / float_of_int 60))%float in
      PrimFloat.leb 0%float v && PrimFloat.leb v 3000%float
      && Bool.eqb (PrimFloat.eqb v 0%float) (distance =? 0))) = true.
Proof. vm_compute. reflexivity. Qed.

Lemma running_speed_distance_table :
  forall_range 1 120 (fun running_time =>
    forall_range 0 49 (fun distance =>
      PrimFloat.ltb
        (float_of_int distance
         / (float_of_int running_time / float_of_int 60))%float
        (float_of_int (distance + 1)
         / (float_of_int running_time / float_of_int 60))%float)) = true.
Proof. vm_compute. reflexivity. Qed.

Lemma running_speed_time_table :
  forall_range 1 50 (fun distance =>
    forall_range 1 119 (fun running_time =>
      PrimFloat.ltb
        (float_of_int distance
         / (float_of_int (running_time + 1) / float_of_int 60))%float
        (float_of_int distance
         / (float_of_int running_time / float_of_int 60))%float)) = true.
Proof. vm_compute. reflexivity. Qed.

(** X10.  Over the ranges of the distance and running-time sliders, with a
    running time of at least one minute, the running speed is always
    computed as a float from 0 to 3000 km/h (50 km in one minute); it is 0
    exactly when the distance is 0. *)
Theorem running_speed_widget_range (distance running_time : Z) :
  0 <= distance <= 50 -> 1 <= running_time <= 120 ->
  exists speed : float,
    calculate_running_speed distance running_time = Ok (Float speed) /\
    PrimFloat.leb 0%float speed = true /\
    PrimFloat.leb speed 3000%float = true /\
    calculate_running_speed 50 1 = Ok (Float 3000%float) /\
    (PrimFloat.eqb speed 0%float = true <-> distance = 0).
Proof.
  intros Hd Ht. eexists.
  split; [apply running_speed_value; lia|].
  pose proof (forall_range_spec _ _ _ running_speed_bounds_table running_time Ht)
    as T. cbv beta in T.
  pose proof (forall_range_spec _ _ _ T distance Hd) as T'.
  cbv beta zeta in T'.
  apply andb_true_iff in T'. destruct T' as (T1 & T3).
  apply andb_true_iff in T1. destruct T1 as (T1 & T2).
  apply Bool.eqb_prop in T3.
  split; [exact T1|]. split; [exact T2|]. split; [reflexivity|].
  rewrite T3. apply Z.eqb_eq.
Qed.

Lemma running_speed_widget_range_witness :
  0 <= 5 <= 50 /\ 1 <= 30 <= 120 /\
  exists speed : float,
    calculate_running_speed 5 30 = Ok (Float speed) /\
    PrimFloat.leb speed 3000%float = true.
Proof.
  split; [lia|]. split; [lia|].
  destruct (running_speed_widget_range 5 30 ltac:(lia) ltac:(lia))
    as (v & E & _ & U & _).
  exists v. auto.
Defined.

(** X11.  Over the ranges of the sliders the running speed is strictly
    increasing in the distance at every running time of at least one
    minute, and strictly decreasing in the running time at every distance
    of at least one kilometre. *)
Theorem running_speed_monotone :
  (forall distance1 distance2 running_time : Z,
      1 <= running_time <= 120 ->
      0 <= distance1 -> distance1 < distance2 -> distance2 <= 50 ->
      exists v1 v2 : float,
        calculate_running_speed distance1 running_time = Ok (Float v1) /\
        calculate_running_speed distance2 running_time = Ok (Float v2) /\
        PrimFloat.ltb v1 v2 = true) /\
  (forall distance running_time1 running_time2 : Z,
      1 <= distance <= 50 ->
      1 <= running_time1 -> running_time1 < running_time2 ->
      running_time2 <= 120 ->
      exists v1 v2 : float,
        calculate_running_speed distance running_time1 = Ok (Float v1) /\
        calculate_running_speed distance running_time2 = Ok (Float v2) /\
        PrimFloat.ltb v2 v1 = true).
Proof.
  split.
  - intros d1 d2 t Ht H1 H12 H2. do 2 eexists.
    split; [apply running_speed_value; lia|].
    split; [apply running_speed_value; lia|].
    pose proof (forall_range_spec _ _ _ running_speed_distance_table t Ht) as T.
    cbv beta in T.
    apply (chain (fun x y => PrimFloat.ltb x y = true)
             (fun d => (float_of_int d
                        / (float_of_int t / float_of_int 60))%float) 0 50);
      [exact ltb_trans| |lia|lia|lia].
    intros z Hz. apply (forall_range_spec _ _ _ T z). lia.
  - intros d t1 t2 Hd H1 H12 H2. do 2 eexists.
    split; [apply running_speed_value; lia|].
    split; [apply running_speed_value; lia|].
    pose proof (forall_range_spec _ _ _ running_speed_time_table d Hd) as T.
    cbv beta in T.
    apply (chain (fun x y => PrimFloat.ltb y x = true)
             (fun t => (float_of_int d
                        / (float_of_int t / float_of_int 60))%float) 1 120);
      [intros x y z Hxy Hyz; exact (ltb_trans _ _ _ Hyz Hxy)| |lia|lia|lia].
    intros z Hz. apply (forall_range_spec _ _ _ T z). lia.
Qed.

Lemma running_speed_monotone_witness :
  1 <= 30 <= 120 /\ 0 <= 5 /\ 5 < 6 /\ 6 <= 50 /\
  exists v1 v2 : float,
    calculate_running_speed 5 30 = Ok (Float v1) /\
    calculate_running_speed 6 30 = Ok (Float v2) /\
    PrimFloat.ltb v1 v2 = true.
Proof.
  split; [lia|]. split; [lia|]. split; [lia|]. split; [lia|].
  exact (proj1 running_speed_monotone 5 6 30
           ltac:(lia) ltac:(lia) ltac:(lia) ltac:(lia)).
Defined.

(** ** BMI over the widget ranges *)

Lemma heights_table :
  forall_range 100 250 (fun height =>
    let h_m := (float_of_int height / float_of_int 100)%float in
    negb (PrimFloat.is_nan h_m) && negb (PrimFloat.is_infinity h_m)
    && negb (PrimFloat.eqb h_m 0%float)
    && PrimFloat.eqb (PrimFloat.abs h_m) h_m
    && negb (PrimFloat.is_infinity (h_m * h_m)%float)
    && negb (PrimFloat.eqb (h_m * h_m)%float 0%float)
    && (negb (PrimFloat.eqb h_m 1%float)
        || PrimFloat.eqb (h_m * h_m)%float 1%float)) = true.
Proof. vm_compute. reflexivity. Qed.

Lemma calculate_bmi_squared `{Runtime} (height weight : Z) :
  pow_squares_heights -> 100 <= height <= 250 ->
  let h_m := (float_of_int height / float_of_int 100)%float in
  calculate_bmi height weight = Ok (float_of_int weight / (h_m * h_m))%float.
Proof.
  intros Hpow Hh h_m.
  assert (B : 250 < 2 ^ 53) by reflexivity.
  destruct (int_truediv_literal height 100 ltac:(lia) ltac:(lia)) as (E & L & U).
  fold h_m in E, L, U.
  destruct hundredth_bounds as (B1 & B2 & B3 & B4).
  assert (P : pos_finite h_m) by (unfold pos_finite; lia).
  pose proof (pos_finite_not_nan _ P) as Nn.
  pose proof (forall_range_spec _ _ _ heights_table height Hh) as T.
  cbv beta zeta in T. fold h_m in T.
  repeat (apply andb_true_iff in T; let X := fresh "T" in destruct T as (T & X)).
  apply negb_true_iff in T1, T2.
  unfold calculate_bmi. rewrite E. cbn [Py.bind]. unfold float_pow2.
  rewrite Nn, (pos_finite_is_infinity _ P), (pos_finite_eqb_zero _ P),
    (pos_finite_abs _ P).
  pose proof (Hpow height Hh) as Hp. cbv zeta in Hp. fold h_m in Hp.
  cbv zeta. rewrite Hp.
  destruct (PrimFloat.eqb h_m 1) eqn:E1.
  - cbn [negb orb] in T0.
    assert (S1 : (h_m * h_m)%float = 1%float).
    { assert (h_m = 1%float) as ->; [|reflexivity].
      rewrite eqb_scaled in E1 by first [reflexivity|assumption].
      apply Z.eqb_eq in E1.
      apply float_scaled_inj; [assumption|reflexivity|assumption|].
      unfold pos_finite in P. lia. }
    rewrite S1. reflexivity.
  - rewrite T2. cbn [Py.bind]. unfold int_div_float. now rewrite T1.
Qed.

Lemma bmi_bounds_table :
  forall_range 100 250 (fun height =>
    forall_range 30 150 (fun weight =>
      let h_m := (float_of_int height / float_of_int 100)%float in
      let v := (float_of_int weight / (h_m * h_m))%float in
      PrimFloat.leb 0x1.3333333333333p+2%float v
      && PrimFloat.leb v 150%float)) = true.
Proof. vm_compute. reflexivity. Qed.

Lemma bmi_weight_table :
  forall_range 100 250 (fun height =>
    forall_range 30 149 (fun weight =>
      let h_m := (float_of_int height / float_of_int 100)%float in
      PrimFloat.ltb (float_of_int weight / (h_m * h_m))%float
                    (float_of_int (weight + 1) / (h_m * h_m))%float)) = true.
Proof. vm_compute. reflexivity. Qed.

Lemma bmi_height_table :
  forall_range 30 150 (fun weight =>
    forall_range 100 249 (fun height =>
      let h_m := (float_of_int height / float_of_int 100)%float in
      let h_m' := (float_of_int (height + 1) / float_of_int 100)%float in
      PrimFloat.ltb (float_of_int weight / (h_m' * h_m'))%float
                    (float_of_int weight / (h_m * h_m))%float)) = true.
Proof. vm_compute. reflexivity. Qed.

(** X12.  With a [pow] that squares the heights of the slider as the
    multiplication does, the BMI over the ranges of the height and weight
    sliders lies between 4.8 (30 kg at 250 cm) and 150 (150 kg at 100 cm);
    it is strictly increasing in the weight and strictly decreasing in the
    height. *)
Theorem bmi_widget_range `{Runtime} :
  pow_squares_heights ->
  (forall height weight : Z,
      100 <= height <= 250 -> 30 <= weight <= 150 ->
      exists bmi : float,
        calculate_bmi height weight = Ok bmi /\
        PrimFloat.leb 0x1.3333333333333p+2%float bmi = true /\
        PrimFloat.leb bmi 150%float = true) /\
  (forall height weight1 weight2 : Z,
      100 <= height <= 250 ->
      30 <= weight1 -> weight1 < weight2 -> weight2 <= 150 ->
      exists bmi1 bmi2 : float,
        calculate_bmi height weight1 = Ok bmi1 /\
        calculate_bmi height weight2 = Ok bmi2 /\
        PrimFloat.ltb bmi1 bmi2 = true) /\
  (forall height1 height2 weight : Z,
      30 <= weight <= 150 ->
      100 <= height1 -> height1 < height2 -> height2 <= 250 ->
      exists bmi1 bmi2 : float,
        calculate_bmi height1 weight = Ok bmi1 /\
        calculate_bmi height2 weight = Ok bmi2 /\
        PrimFloat.ltb bmi2 bmi1 = true).
Proof.
  intros Hpow. split; [|split].
  - intros h w Hh Hw. eexists.
    split; [apply (calculate_bmi_squared h w Hpow Hh)|].
    pose proof (forall_range_spec _ _ _ bmi_bounds_table h Hh) as T.
    cbv beta in T.
    pose proof (forall_range_spec _ _ _ T w Hw) as T'.
    cbv beta zeta in T'. now apply andb_true_iff in T'.
  - intros h w1 w2 Hh H1 H12 H2. do 2 eexists.
    split; [apply (calculate_bmi_squared h w1 Hpow Hh)|].
    split; [apply (calculate_bmi_squared h w2 Hpow Hh)|].
    pose proof (forall_range_spec _ _ _ bmi_weight_table h Hh) as T.
    cbv beta in T.
    apply (chain (fun x y => PrimFloat.ltb x y = true)
             (fun w => (float_of_int w
                        / (float_of_int h / float_of_int 100
                           * (float_of_int h / float_of_int 100)))%float)
             30 150);
      [exact ltb_trans| |lia|lia|lia].
    intros z Hz. apply (forall_range_spec _ _ _ T z). lia.
  - intros h1 h2 w Hw H1 H12 H2. do 2 eexists.
    split; [apply (calculate_bmi_squared h1 w Hpow ltac:(lia))|].
    split; [apply (calculate_bmi_squared h2 w Hpow ltac:(lia))|].
    pose proof (forall_range_spec _ _ _ bmi_height_table w Hw) as T.
    cbv beta in T.
    apply (chain (fun x y => PrimFloat.ltb y x = true)
             (fun h => (float_of_int w
                        / (float_of_int h / float_of_int 100
                           * (float_of_int h / float_of_int 100)))%float)
             100 250);
      [intros x y z Hxy Hyz; exact (ltb_trans _ _ _ Hyz Hxy)| |lia|lia|lia].
    intros z Hz. apply (forall_range_spec _ _ _ T z). lia.
Qed.

Lemma reference_pow_squares_heights : @pow_squares_heights reference_runtime.
Proof. intros h _. reflexivity. Qed.

Lemma bmi_widget_range_witness :
  100 <= 170 <= 250 /\ 30 <= 70 <= 150 /\
  exists bmi : float,
    @calculate_bmi reference_runtime 170 70 = Ok bmi /\
    PrimFloat.leb bmi 150%float = true.
Proof.
  split; [lia|]. split; [lia|].
  destruct (proj1 (@bmi_widget_range reference_runtime
                     reference_pow_squares_heights) 170 70
              ltac:(lia) ltac:(lia)) as (b & E & _ & U).
  exists b. split; assumption.
Defined.

(** ** Progress and the goal *)

(** A goal exactly met is a progress of exactly 100. *)
Lemma progress_goal_met (goal : Z) :
  0 < goal <= 2 ^ 53 ->
  (float_of_int goal / float_of_int goal * float_of_int 100)%float = 100%float.
Proof.
  intros Hg.
  pose proof (float_of_int_pos_finite goal Hg) as Pg.
  pose proof (pos_finite_not_nan _ Pg) as Ng.
  assert (R : 0 <= float_scaled (float_of_int goal) < top)
    by (unfold pos_finite in Pg; lia).
  assert (K1 : 0 < 1 < 2 ^ 53) by (split; reflexivity).
  pose proof (div_le_dyadic _ _ 1 0 Pg Ng R K1 ltac:(lia) ltac:(lia)) as U.
  pose proof (div_ge_dyadic _ _ 1 0 Pg Ng R K1 ltac:(lia) ltac:(lia)) as L.
  destruct (div_mono _ _ _ Pg Ng Ng (Z.le_refl _)) as (Nq & _ & _).
  assert (E : (float_of_int goal / float_of_int goal)%float = 1%float).
  { apply float_scaled_inj; [assumption|reflexivity| |].
    - change (float_scaled 1%float) with (1 * 2 ^ (- emin - 0)). lia.
    - assert (0 < 1 * 2 ^ (- emin - 0)) by reflexivity. lia. }
  rewrite E. reflexivity.
Qed.

Lemma ltb_leb_false (a b : float) :
  PrimFloat.ltb a b = true -> PrimFloat.leb b a = false.
Proof.
  intros H. destruct (ltb_true_not_nan _ _ H) as (Na & Nb).
  rewrite ltb_scaled in H by assumption. rewrite leb_scaled by assumption.
  apply Z.ltb_lt in H. apply Z.leb_gt. lia.
Qed.

(** X13.  With both step widgets in their ranges and a positive goal, the
    steps progress is at least 100 exactly when the steps taken reach the
    goal, exactly 100 when they equal it, and 0 exactly when no step was
    taken. *)
Theorem steps_goal_reached (steps_taken goal_steps : Z) :
  0 < goal_steps <= 50000 -> 0 <= steps_taken <= 50000 ->
  exists p : float,
    steps_progress steps_taken goal_steps = Ok (Float p) /\
    (PrimFloat.leb 100%float p = true <-> goal_steps <= steps_taken) /\
    (steps_taken = goal_steps -> p = 100%float) /\
    (PrimFloat.eqb p 0%float = true <-> steps_taken = 0).
Proof.
  intros Hg Hs.
  assert (B : 50000 < 2 ^ 53) by reflexivity.
  exists (float_of_int steps_taken / float_of_int goal_steps
          * float_of_int 100)%float.
  split.
  { rewrite steps_progress_progress. unfold progress.
    destruct (Z.gtb_spec goal_steps 0); [reflexivity|lia]. }
  pose proof (progress_goal_met goal_steps ltac:(lia)) as Full.
  assert (Zero : (float_of_int 0 / float_of_int goal_steps
                  * float_of_int 100)%float = 0%float).
  { pose proof (float_of_int_pos_finite goal_steps ltac:(lia)) as Pg.
    destruct (pos_finite_inv _ Pg) as (mg & eg & Eg & _).
    assert (Q : (float_of_int 0 / float_of_int goal_steps)%float = 0%float).
    { apply Prim2SF_inj. rewrite FloatAxioms.div_spec. unfold SF64div.
      rewrite Eg. reflexivity. }
    rewrite Q. reflexivity. }
  split; [|split].
  - split.
    + intros H. destruct (Z.le_gt_cases goal_steps steps_taken) as [|Hlt];
        [assumption|exfalso].
      pose proof (steps_progress_lt goal_steps steps_taken goal_steps
                    ltac:(lia) ltac:(lia) ltac:(lia) ltac:(lia)) as S.
      rewrite Full in S. apply ltb_leb_false in S. congruence.
    + intros H. rewrite <- Full.
      destruct (float_of_int_scaled goal_steps ltac:(lia)) as (N1 & E1).
      destruct (float_of_int_scaled steps_taken ltac:(lia)) as (N2 & E2).
      apply progress_le; try assumption; [lia|].
      rewrite E1, E2. assert (0 < 2 ^ (- emin)) by reflexivity. nia.
  - intros ->. exact Full.
  - split.
    + intros H. destruct (Z.eq_dec steps_taken 0) as [|Hne];
        [assumption|exfalso].
      pose proof (steps_progress_lt goal_steps 0 steps_taken
                    ltac:(lia) ltac:(lia) ltac:(lia) ltac:(lia)) as S.
      rewrite Zero in S.
      destruct (ltb_true_not_nan _ _ S) as (N0 & Np).
      rewrite ltb_scaled in S by assumption.
      rewrite eqb_scaled in H by assumption.
      apply Z.ltb_lt in S. apply Z.eqb_eq in H. lia.
    + intros ->. now rewrite Zero.
Qed.

Lemma steps_goal_reached_witness :
  0 < 5000 <= 50000 /\ 0 <= 2000 <= 50000 /\
  exists p : float,
    steps_progress 2000 5000 = Ok (Float p) /\
    PrimFloat.leb 100%float p = false.
Proof.
  split; [lia|]. split; [lia|].
  destruct (steps_goal_reached 2000 5000 ltac:(lia) ltac:(lia))
    as (p & E & R & _).
  exists p. split; [exact E|].
  destruct (PrimFloat.leb 100 p); [|reflexivity].
  exfalso. assert (5000 <= 2000) by (apply R; reflexivity). lia.
Defined.

(** X14.  For a positive goal the calories progress is at least 100
    whenever the calories burned are at least the goal, at most 100
    whenever they are at most the goal, and so exactly 100 when the goal
    is exactly met. *)
Theorem calories_goal_reached (calories_burned : float) (goal_calories : Z) :
  0 < goal_calories <= 2 ^ 53 ->
  exists p : float,
    calories_progress calories_burned goal_calories = Float p /\
    (PrimFloat.leb (float_of_int goal_calories) calories_burned = true ->
     PrimFloat.leb 100%float p = true) /\
    (PrimFloat.leb calories_burned (float_of_int goal_calories) = true ->
     PrimFloat.leb p 100%float = true) /\
    (calories_burned = float_of_int goal_calories -> p = 100%float).
Proof.
  intros Hg.
  exists (calories_burned / float_of_int goal_calories
          * float_of_int 100)%float.
  split.
  { unfold calories_progress, float_mul_int, float64_div_int.
    destruct (Z.gtb_spec goal_calories 0); [reflexivity|lia]. }
  pose proof (progress_goal_met goal_calories Hg) as Full.
  split; [|split].
  - intros H. destruct (leb_true_not_nan _ _ H) as (N1 & N2).
    rewrite leb_scaled in H by assumption. apply Z.leb_le in H.
    rewrite <- Full. now apply progress_le.
  - intros H. destruct (leb_true_not_nan _ _ H) as (N1 & N2).
    rewrite leb_scaled in H by assumption. apply Z.leb_le in H.
    rewrite <- Full. now apply progress_le.
  - intros ->. exact Full.
Qed.

Lemma calories_goal_reached_witness :
  0 < 500 <= 2 ^ 53 /\
  exists p : float,
    calories_progress 750%float 500 = Float p /\
    PrimFloat.leb 100%float p = true.
Proof.
  split; [lia|].
  destruct (calories_goal_reached 750%float 500 ltac:(lia))
    as (p & E & R & _).
  exists p. split; [exact E|]. apply R. reflexivity.
Defined.

(** ** The metrics over the widget ranges *)

(** With every widget in its range the metric computation fails only with
    the predictor, and every other metric is a number within its bounds. *)
Lemma compute_metrics_in_range `{Runtime} (w : World) :
  pow_in_range -> in_range w ->
  match predict_calories (age w) (gender w) (height w) (weight w)
          (running_time w) (running_speed w) (distance w) (heart_rate w) with
  | Raise e => compute_metrics w = Raise e
  | Ok calories =>
      exists m : Metrics,
        compute_metrics w = Ok m /\
        calories_burned m = calories /\
        PrimFloat.leb 0%float (bmi m) = true /\
        In (bmi_category m) categories /\
        suggestion_text m = suggestion (bmi_category m) /\
        PrimFloat.leb 0x1.7cf3cf3cf3cf3p+4%float (intensity m) = true /\
        PrimFloat.leb (intensity m) 0x1.4d55555555556p+7%float = true /\
        num_leb (Int 0) (speed m) = true /\
        num_leb (speed m) (Int 3000) = true
  end.
Proof.
  intros Hpow (Ha & _ & Hh & Hw & Ht & _ & Hd & Hr & _).
  unfold compute_metrics.
  destruct (predict_calories _ _ _ _ _ _ _ _) as [c|e]; [|reflexivity].
  cbn [Py.bind].
  assert (B : 250 < 2 ^ 53) by reflexivity.
  destruct (calculate_bmi_value (height w) Hpow ltac:(lia)) as (sq & Psq & Eb).
  rewrite Eb. cbn [Py.bind].
  rewrite workout_intensity_value by lia. cbn [Py.bind].
  destruct (float_of_int_scaled (weight w) ltac:(lia)) as (Nw & Ew).
  assert (PP : 0 < 2 ^ (- emin)) by reflexivity.
  destruct (div_nonneg _ _ Psq Nw ltac:(rewrite Ew; nia)) as (Nb & Pb).
  pose proof (forall_range_spec _ _ _ workout_intensity_bounds_table (age w) Ha)
    as T. cbv beta in T.
  pose proof (forall_range_spec _ _ _ T (heart_rate w) Hr) as T'.
  cbv beta zeta in T'. apply andb_true_iff in T'. destruct T' as (I1 & I2).
  assert (Cat : forall b, In (classify_bmi b) categories).
  { intros b. unfold classify_bmi.
    destruct (PrimFloat.ltb b 18.5); [cbn; tauto|].
    destruct (_ && _); [cbn; tauto|]. destruct (_ && _); cbn; tauto. }
  assert (Sug : forall b, provide_suggestions b = suggestion (classify_bmi b)).
  { intros b. unfold provide_suggestions, classify_bmi.
    destruct (PrimFloat.ltb b 18.5); [reflexivity|].
    destruct (_ && _); [reflexivity|]. destruct (_ && _); reflexivity. }
  assert (Bmi0 : PrimFloat.leb 0%float (float_of_int (weight w) / sq)%float = true).
  { rewrite leb_scaled by first [reflexivity|assumption]. now apply Z.leb_le. }
  destruct (Z.eq_dec (running_time w) 0) as [E0|Hne].
  - rewrite E0. cbn [calculate_running_speed Z.gtb Z.compare Py.bind].
    eexists. split; [reflexivity|]. cbn [calories_burned bmi bmi_category
      suggestion_text intensity speed].
    repeat (split; [first [reflexivity|assumption|apply Cat|apply Sug]|]).
    reflexivity.
  - rewrite running_speed_value by lia. cbn [Py.bind].
    pose proof (forall_range_spec _ _ _ running_speed_bounds_table
                  (running_time w) ltac:(lia)) as S. cbv beta in S.
    pose proof (forall_range_spec _ _ _ S (distance w) Hd) as S'.
    cbv beta zeta in S'. apply andb_true_iff in S'. destruct S' as (S1 & _).
    apply andb_true_iff in S1. destruct S1 as (S1 & S2).
    eexists. split; [reflexivity|]. cbn [calories_burned bmi bmi_category
      suggestion_text intensity speed].
    repeat (split; [first [reflexivity|assumption|apply Cat|apply Sug]|]).
    exact S2.
Qed.

(** X15.  With every widget in its range the only thing that can go wrong
    before the report is the predictor.  If it raises, the script ends with
    that exception and the title alone on the page.  If it returns, the
    metrics are computed: the calories are what it returned, the BMI is a
    number that is not negative, its category is one of the four, the
    intensity lies between 50 / 210 * 100 and 200 / 120 * 100, the speed
    between 0 and 3000; every metric line is on the page, and without the
    report button the script ends normally, whatever the dataset is. *)
Theorem metrics_in_range `{Runtime} (w : World) :
  pow_in_range -> in_range w ->
  match predict_calories (age w) (gender w) (height w) (weight w)
          (running_time w) (running_speed w) (distance w) (heart_rate w) with
  | Raise e =>
      run w = ([st_title "SMARTFIT AI - Personal Fitness Tracker"], Raise e)
  | Ok calories =>
      exists m : Metrics,
        compute_metrics w = Ok m /\
        calories_burned m = calories /\
        PrimFloat.leb 0%float (bmi m) = true /\
        In (bmi_category m) categories /\
        suggestion_text m = suggestion (bmi_category m) /\
        PrimFloat.leb 0x1.7cf3cf3cf3cf3p+4%float (intensity m) = true /\
        PrimFloat.leb (intensity m) 0x1.4d55555555556p+7%float = true /\
        num_leb (Int 0) (speed m) = true /\
        num_leb (speed m) (Int 3000) = true /\
        (forall line, In line (metric_lines m) -> In line (fst (run w))) /\
        (report_button w = false -> snd (run w) = Ok tt)
  end.
Proof.
  intros Hpow Hr. pose proof (compute_metrics_in_range w Hpow Hr) as M.
  destruct (predict_calories _ _ _ _ _ _ _ _) as [c|e].
  - destruct M as (m & Hm & C & B0 & Cat & Sug & I1 & I2 & S1 & S2).
    exists m. do 9 (split; [assumption|]). split.
    + intros line Hin. apply (page_kept w m line Hm).
      destruct (page_before_report_spec w m) as (added & E & _).
      rewrite E, !in_app_iff. tauto.
    + intros Hb. rewrite (run_metrics_ok w m Hm).
      unfold generate_pdf_report, when. now rewrite Hb.
  - now apply run_metrics_raise.
Qed.

Lemma metrics_in_range_witness :
  in_range default_world /\
  exists m : Metrics,
    @compute_metrics reference_runtime default_world = Ok m /\
    calories_burned m = 390%float.
Proof.
  assert (R : in_range default_world).
  { unfold in_range, default_world.
    cbn [age gender height weight running_time running_speed distance
         heart_rate goal_calories goal_steps steps_taken].
    repeat split; try lia. now left. }
  split; [exact R|].
  pose proof (@metrics_in_range reference_runtime default_world
                reference_pow_in_range R) as M.
  change (@predict_calories reference_runtime (age default_world)
            (gender default_world) (height default_world)
            (weight default_world) (running_time default_world)
            (running_speed default_world) (distance default_world)
            (heart_rate default_world))
    with (@Ok float 390%float) in M.
  destruct M as (m & E & C & _). exists m. split; assumption.
Defined.

(** X16.  The "Running Speed" slider reaches the predictor and nothing
    else.  If the predictor returns the same for two positions of the
    slider, the two runs are the same, page and outcome; the cells of the
    report never hold the slider's value; and wherever the slider stands,
    the BMI, its category, the advice, the intensity and the speed are the
    same, the speed being what [calculate_running_speed] makes of the
    distance and the running time: [distance / (running_time / 60)] for a
    positive running time, the integer 0 for a running time of 0. *)
Theorem running_speed_slider `{Runtime} (w : World) (v : Z) :
  (predict_calories (age w) (gender w) (height w) (weight w)
     (running_time w) v (distance w) (heart_rate w)
   = predict_calories (age w) (gender w) (height w) (weight w)
       (running_time w) (running_speed w) (distance w) (heart_rate w) ->
   run (with_running_speed w v) = run w) /\
  (forall m : Metrics,
      report_cells (with_running_speed w v) m = report_cells w m) /\
  (forall m m' : Metrics,
      compute_metrics w = Ok m ->
      compute_metrics (with_running_speed w v) = Ok m' ->
      bmi m' = bmi m /\ bmi_category m' = bmi_category m /\
      suggestion_text m' = suggestion_text m /\
      intensity m' = intensity m /\ speed m' = speed m) /\
  (forall m' : Metrics,
      compute_metrics (with_running_speed w v) = Ok m' ->
      calculate_running_speed (distance w) (running_time w) = Ok (speed m') /\
      (running_time w = 0 -> speed m' = Int 0) /\
      (0 < running_time w <= 2 ^ 53 ->
       speed m'
       = Float (float_of_int (distance w)
                / (float_of_int (running_time w) / float_of_int 60))%float)).
Proof.
  split; [|split; [|split]].
  - intros Hp. unfold run, script, compute_metrics.
    cbn [with_running_speed age gender height weight running_time
         running_speed distance heart_rate].
    rewrite Hp. reflexivity.
  - intros m. reflexivity.
  - intros m m' H1 H2. unfold compute_metrics in H1, H2.
    cbn [with_running_speed age gender height weight running_time
         running_speed distance heart_rate] in H2.
    destruct (predict_calories _ _ _ _ _ (running_speed w) _ _);
      [|discriminate].
    destruct (predict_calories _ _ _ _ _ v _ _); [|discriminate].
    cbn [Py.bind] in H1, H2.
    destruct (calculate_bmi _ _); [|discriminate]. cbn [Py.bind] in H1, H2.
    destruct (calculate_workout_intensity _ _); [|discriminate].
    cbn [Py.bind] in H1, H2.
    destruct (calculate_running_speed _ _); [|discriminate].
    cbn [Py.bind] in H1, H2.
    injection H1 as <-. injection H2 as <-. cbn. auto.
  - intros m' H2. unfold compute_metrics in H2.
    cbn [with_running_speed age gender height weight running_time
         running_speed distance heart_rate] in H2.
    destruct (predict_calories _ _ _ _ _ _ _ _); [|discriminate].
    cbn [Py.bind] in H2.
    destruct (calculate_bmi _ _); [|discriminate]. cbn [Py.bind] in H2.
    destruct (calculate_workout_intensity _ _); [|discriminate].
    cbn [Py.bind] in H2.
    destruct (calculate_running_speed _ _) as [sp|] eqn:Es; [|discriminate].
    cbn [Py.bind] in H2. injection H2 as <-. cbn [speed].
    split; [reflexivity|]. split.
    + intros E0. rewrite E0 in Es. cbn in Es. now injection Es as <-.
    + intros Ht. rewrite (running_speed_value _ _ Ht) in Es.
      now injection Es as <-.
Qed.

Lemma running_speed_slider_witness :
  running_speed default_world = 10 /\
  0 < running_time default_world <= 2 ^ 53 /\
  exists m' : Metrics,
    @compute_metrics reference_runtime (with_running_speed default_world 40)
    = Ok m' /\
    calories_burned m' = 420%float /\
    speed m' = Float 10%float.
Proof.
  split; [reflexivity|].
  assert (Ht : 0 < running_time default_world <= 2 ^ 53)
    by (cbn [running_time default_world]; lia).
  split; [exact Ht|].
  assert (H2 : @compute_metrics reference_runtime
                 (with_running_speed default_world 40)
               = Ok {| calories_burned := 420%float;
                       bmi := 0x1.838b129a21a94p+4%float;
                       intensity := 0x1.4834834834834p+5%float;
                       speed := Float 10%float;
                       bmi_category := "Normal";
                       suggestion_text :=
                         "Maintain current routine. Keep up the good work!" |})
    by (vm_compute; reflexivity).
  eexists. split; [exact H2|]. split; [reflexivity|].
  exact (proj2 (proj2 (proj2 (proj2 (proj2
           (@running_speed_slider reference_runtime default_world 40))) _ H2))
           Ht).
Defined.

(** ** The two decimals of [{x:.2f}] *)

Lemma rne_ratio (N1 D1 N2 D2 : Z) :
  0 < D1 -> 0 < D2 -> N1 * D2 = N2 * D1 -> rne N1 D1 = rne N2 D2.
Proof.
  intros H1 H2 E.
  pose proof (rne_mono N1 D1 N2 D2 H1 H2 ltac:(lia)).
  pose proof (rne_mono N2 D2 N1 D1 H2 H1 ltac:(lia)). lia.
Qed.

Lemma hundredths_scaled (m : positive) (e : Z) :
  bounded prec emax m e = true ->
  hundredths m e = rne (100 * (Zpos m * 2 ^ (e - emin))) (2 ^ (- emin)).
Proof.
  intros B. apply bounded_inv in B. destruct B as (He & _).
  unfold hundredths.
  assert (P : 0 < 2 ^ (- emin)) by reflexivity.
  assert (Q : 0 < 2 ^ Z.max (- e) 0) by (apply Z.pow_pos_nonneg; lia).
  apply rne_ratio; try assumption.
  replace (e - emin) with ((e + Z.max (- e) 0) + (- emin - Z.max (- e) 0)) by lia.
  replace (- emin) with (Z.max (- e) 0 + (- emin - Z.max (- e) 0)) at 1 by lia.
  rewrite !pow2_split by flia.
  replace (Z.max e 0) with (e + Z.max (- e) 0) by lia.
  ring.
Qed.

Lemma shown_hundredths_spec (x : float) (c : Z) :
  shown_hundredths x = Some c ->
  PrimFloat.is_nan x = false /\
  c = Z.sgn (float_scaled x)
      * rne (100 * Z.abs (float_scaled x)) (2 ^ (- emin)).
Proof.
  unfold shown_hundredths, float_scaled. rewrite is_nan_spec.
  pose proof (Prim2SF_valid x) as V.
  destruct (Prim2SF x) as [s|s| |s m e]; try discriminate; intros [= <-].
  - split; [reflexivity|]. cbn [scaled]. reflexivity.
  - split; [reflexivity|]. cbn [scaled].
    pose proof (scaled_finite_pos m e V) as P.
    rewrite (hundredths_scaled m e V).
    destruct s; cbn [cond_Zopp].
    + rewrite Z.sgn_neg, Z.abs_neq by lia.
      replace (- - (Zpos m * 2 ^ (e - emin))) with (Zpos m * 2 ^ (e - emin)) by lia.
      lia.
    + rewrite Z.sgn_pos, Z.abs_eq by lia. lia.
Qed.

Lemma shown_hundredths_finite (x : float) (q : Q) :
  float_value x = Some q -> exists c : Z, shown_hundredths x = Some c.
Proof.
  unfold float_value, shown_hundredths.
  destruct (Prim2SF x); try discriminate; intros _; eexists; reflexivity.
Qed.

(** *** Reading the digits back *)

Lemma N_to_uint_nonnil (n : N) : N.to_uint n <> Decimal.Nil.
Proof.
  destruct n as [|p]; [discriminate|apply DecimalPos.Unsigned.to_uint_nonnil].
Qed.

Lemma decimal_digits (n : Z) :
  decimal n = NilEmpty.string_of_uint (N.to_uint (Z.to_N n)).
Proof.
  unfold decimal, NilZero.string_of_uint.
  pose proof (N_to_uint_nonnil (Z.to_N n)) as H.
  destruct (N.to_uint (Z.to_N n)); [now destruct H|reflexivity..].
Qed.

Lemma digits_value_decimal (n : Z) :
  0 <= n -> digits_value (decimal n) = Some n.
Proof.
  intros Hn. unfold digits_value, decimal.
  rewrite NilZero.usu by apply N_to_uint_nonnil.
  rewrite DecimalN.Unsigned.of_to. now rewrite Z2N.id.
Qed.

Lemma split_point_digits (d : Decimal.uint) (rest : string) :
  split_point (NilEmpty.string_of_uint d ++ String "." rest)
  = Some (NilEmpty.string_of_uint d, rest).
Proof.
  induction d as [|d IH|d IH|d IH|d IH|d IH|d IH|d IH|d IH|d IH|d IH];
    cbn [NilEmpty.string_of_uint String.append split_point];
    [reflexivity|..]; rewrite IH; reflexivity.
Qed.

Lemma digits_not_signed (d : Decimal.uint) :
  d <> Decimal.Nil ->
  exists (c : ascii) (rest : string),
    NilEmpty.string_of_uint d = String c rest /\ Ascii.eqb c "-" = false.
Proof.
  destruct d; [intros H; now destruct H|..]; intros _;
    cbn [NilEmpty.string_of_uint]; do 2 eexists; split; reflexivity.
Qed.

Lemma two_digits_table :
  forall_range 0 99 (fun b =>
    (String.length (two_digits b) =? 2)%nat
    && match digits_value (two_digits b) with
       | Some v => v =? b
       | None => false
       end) = true.
Proof. vm_compute. reflexivity. Qed.

Lemma two_digits_spec (b : Z) :
  0 <= b < 100 ->
  String.length (two_digits b) = 2%nat /\ digits_value (two_digits b) = Some b.
Proof.
  intros Hb.
  pose proof (forall_range_spec _ _ _ two_digits_table b ltac:(lia)) as T.
  cbv beta in T. apply andb_true_iff in T. destruct T as (T1 & T2).
  apply Nat.eqb_eq in T1. split; [assumption|].
  destruct (digits_value (two_digits b)) as [v|]; [|discriminate].
  apply Z.eqb_eq in T2. now subst.
Qed.

Lemma read_unsigned_shown (c : Z) :
  0 <= c ->
  read_unsigned_2f (decimal (c / 100) ++ "." ++ two_digits (c mod 100))
  = Some c.
Proof.
  intros Hc. unfold read_unsigned_2f.
  rewrite decimal_digits.
  change ("." ++ two_digits (c mod 100))
    with (String "." (two_digits (c mod 100))).
  rewrite split_point_digits. rewrite <- decimal_digits.
  rewrite digits_value_decimal by (apply Z.div_pos; lia).
  destruct (two_digits_spec (c mod 100)) as (L & V);
    [apply Z.mod_pos_bound; lia|].
  rewrite V, L. cbn [Nat.eqb]. f_equal.
  pose proof (Z.div_mod c 100 ltac:(lia)). lia.
Qed.

Lemma read_shown (s : bool) (c : Z) :
  0 <= c ->
  read_2f (sign_text s ++ decimal (c / 100) ++ "." ++ two_digits (c mod 100))
  = Some (cond_Zopp s c).
Proof.
  intros Hc. destruct s; cbn [sign_text cond_Zopp].
  - change ("-" ++ ?t) with (String "-" t). cbn [read_2f].
    change (Ascii.eqb "-" "-") with true. cbv iota.
    now rewrite read_unsigned_shown.
  - change ("" ++ ?t) with t.
    rewrite <- (read_unsigned_shown c Hc).
    rewrite decimal_digits.
    destruct (digits_not_signed _ (N_to_uint_nonnil (Z.to_N (c / 100))))
      as (ch & rest & -> & Hch).
    cbn [String.append read_2f]. now rewrite Hch.
Qed.

(** Reading back what [format] writes gives the hundredths it rounded to,
    and nothing for [nan] and [inf]. *)
Lemma read_format (x : float) :
  read_2f (format_float x) = shown_hundredths x.
Proof.
  unfold format_float, shown_hundredths.
  pose proof (Prim2SF_valid x) as V.
  destruct (Prim2SF x) as [s|s| |s m e].
  - now destruct s.
  - now destruct s.
  - reflexivity.
  - cbv zeta. apply read_shown.
    rewrite (hundredths_scaled m e V).
    pose proof (scaled_finite_pos m e V).
    apply rne_nonneg; [reflexivity|lia].
Qed.

Lemma shown_hundredths_error (x : float) (c : Z) :
  shown_hundredths x = Some c ->
  - 2 ^ (- emin) <= 2 * c * 2 ^ (- emin) - 200 * float_scaled x <= 2 ^ (- emin).
Proof.
  intros H. apply shown_hundredths_spec in H. destruct H as (_ & ->).
  assert (P : 0 < 2 ^ (- emin)) by reflexivity.
  pose proof (rne_spec (100 * Z.abs (float_scaled x)) (2 ^ (- emin)) P) as R.
  cbv zeta in R. destruct R as (R & _).
  revert R. generalize (rne (100 * Z.abs (float_scaled x)) (2 ^ (- emin))).
  revert P. generalize (2 ^ (- emin)). generalize (float_scaled x).
  intros S P HP n R.
  destruct (Z.lt_trichotomy S 0) as [Hs|[->|Hs]].
  - rewrite Z.sgn_neg by lia. rewrite Z.abs_neq in R by lia. nia.
  - change (Z.sgn 0) with 0. cbn [Z.abs] in R. nia.
  - rewrite Z.sgn_pos by lia. rewrite Z.abs_eq in R by lia. nia.
Qed.

(** X17.  What [{x:.2f}] shows of a finite float reads back as a number
    within half a hundredth of it. *)
Theorem format_2f_accuracy (x : float) (q : Q) :
  float_value x = Some q ->
  exists c : Z,
    read_2f (format_2f (Float x)) = Some c /\
    (Qabs (inject_Z c / 100 - q) <= 1 # 200)%Q.
Proof.
  intros Hq. unfold format_2f. cbn [num_to_float]. rewrite read_format.
  destruct (shown_hundredths_finite _ q Hq) as (c & Hc).
  exists c. split; [assumption|].
  pose proof (shown_hundredths_error _ c Hc) as (L & U).
  destruct (float_value_scaled _ q Hq) as (_ & Eq).
  assert (P : 0 < 2 ^ (- emin)) by reflexivity.
  assert (Pw : (2 ^ emin * inject_Z (2 ^ (- emin)) == 1)%Q).
  { rewrite (Zpower_Qpower 2) by discriminate.
    change (inject_Z 2) with 2%Q.
    rewrite <- Qpower_plus by discriminate. reflexivity. }
  revert L U P Pw Eq.
  generalize (float_scaled x). generalize (2 ^ (- emin)).
  generalize (2 ^ emin)%Q.
  intros u P S L U HP Pw Eq.
  assert (L' : 200 * S <= 2 * c * P + P) by lia.
  assert (U' : 2 * c * P <= 200 * S + P) by lia.
  clear L U.
  rewrite Zle_Qle in L', U'. rewrite Zlt_Qlt in HP.
  rewrite !inject_Z_plus, !inject_Z_mult in L', U'.
  change (inject_Z 2) with 2%Q in *. change (inject_Z 200) with 200%Q in *.
  change (inject_Z 0) with 0%Q in *.
  revert L' U' HP Pw Eq.
  generalize (inject_Z P) (inject_Z S) (inject_Z c). clear.
  intros p s c L U HP Pw Eq.
  apply Qabs_Qle_condition. rewrite Eq.
  assert (Es : (s == s * u * p)%Q).
  { rewrite <- Qmult_assoc, Pw. ring. }
  rewrite Es in L, U.
  split.
  - apply (Qmult_lt_0_le_reg_r _ _ (200 * p)); [lra|].
    apply Qle_minus_iff.
    setoid_replace ((c / 100 - s * u) * (200 * p) + - (- (1 # 200) * (200 * p)))%Q
      with (2 * c * p + p - 200 * (s * u * p))%Q by field.
    lra.
  - apply (Qmult_lt_0_le_reg_r _ _ (200 * p)); [lra|].
    apply Qle_minus_iff.
    setoid_replace ((1 # 200) * (200 * p) + - ((c / 100 - s * u) * (200 * p)))%Q
      with (200 * (s * u * p) + p - 2 * c * p)%Q by field.
    lra.
Qed.

Lemma format_2f_accuracy_witness :
  float_value 0x1.838b129a21a94p+4%float
  = Some (6817732999912084 # 281474976710656) /\
  format_2f (Float 0x1.838b129a21a94p+4%float) = "24.22" /\
  exists c : Z,
    read_2f (format_2f (Float 0x1.838b129a21a94p+4%float)) = Some c /\
    (Qabs (inject_Z c / 100 - (6817732999912084 # 281474976710656))
     <= 1 # 200)%Q.
Proof.
  split; [vm_compute; reflexivity|]. split; [vm_compute; reflexivity|].
  apply (format_2f_accuracy 0x1.838b129a21a94p+4%float).
  vm_compute; reflexivity.
Defined.

(** X18.  The numbers shown never reverse an order: of two floats the one
    that is not larger is shown as a number that is not larger. *)
Theorem format_2f_monotone (x y : float) (cx cy : Z) :
  PrimFloat.leb x y = true ->
  read_2f (format_2f (Float x)) = Some cx ->
  read_2f (format_2f (Float y)) = Some cy ->
  cx <= cy.
Proof.
  unfold format_2f. cbn [num_to_float]. rewrite !read_format.
  revert x y. intros a b H Ha Hb.
  apply shown_hundredths_spec in Ha, Hb.
  destruct Ha as (Na & ->), Hb as (Nb & ->).
  rewrite leb_scaled in H by assumption. apply Z.leb_le in H.
  assert (P : 0 < 2 ^ (- emin)) by reflexivity.
  revert H. generalize (float_scaled a) (float_scaled b). intros Sa Sb H.
  pose proof (rne_nonneg (100 * Z.abs Sa) _ P ltac:(lia)) as Ra.
  pose proof (rne_nonneg (100 * Z.abs Sb) _ P ltac:(lia)) as Rb.
  destruct (Z.lt_trichotomy Sa 0) as [Ha|[->|Ha]];
    destruct (Z.lt_trichotomy Sb 0) as [Hb|[->|Hb]];
    rewrite ?Z.sgn_neg, ?Z.sgn_pos by lia; change (Z.sgn 0) with 0; try lia.
  - pose proof (rne_mono (100 * Z.abs Sb) _ (100 * Z.abs Sa) _ P P
                  ltac:(nia)). lia.
  - pose proof (rne_mono (100 * Z.abs Sa) _ (100 * Z.abs Sb) _ P P
                  ltac:(nia)). lia.
Qed.

Lemma format_2f_monotone_witness :
  PrimFloat.leb 0x1.838b129a21a94p+4%float 0x1.f24517eabd907p+4%float = true /\
  format_2f (Float 0x1.838b129a21a94p+4%float) = "24.22" /\
  format_2f (Float 0x1.f24517eabd907p+4%float) = "31.14" /\
  2422 <= 3114.
Proof.
  split; [reflexivity|]. split; [vm_compute; reflexivity|].
  split; [vm_compute; reflexivity|].
  apply (format_2f_monotone 0x1.838b129a21a94p+4%float
                            0x1.f24517eabd907p+4%float);
    vm_compute; reflexivity.
Defined.

(** X19.  An integer shown with [{x:.2f}], as the heart rate in the
    comparison is, reads as the integer followed by ".00". *)
Theorem format_2f_int (z : Z) :
  0 <= z <= 2 ^ 53 -> format_2f (Int z) = decimal z ++ ".00".
Proof.
  intros Hz. unfold format_2f. cbn [num_to_float].
  destruct (Z.eq_dec z 0) as [->|Hne]; [reflexivity|].
  pose proof (float_of_int_pos_finite z ltac:(lia)) as P.
  destruct (pos_finite_inv _ P) as (m & e & E & B).
  destruct (float_of_int_scaled z ltac:(lia)) as (_ & S).
  unfold float_scaled in S. rewrite E in S. cbn [scaled cond_Zopp] in S.
  unfold format_float. rewrite E. cbv zeta.
  rewrite (hundredths_scaled m e B), S.
  replace (100 * (z * 2 ^ (- emin))) with (100 * z * 2 ^ (- emin)) by ring.
  rewrite rne_exact by reflexivity.
  rewrite (Z.mul_comm 100 z), Z.div_mul, Z.mod_mul by discriminate.
  reflexivity.
Qed.

Lemma format_2f_int_witness :
  0 <= 80 <= 2 ^ 53 /\ format_2f (Int 80) = "80.00".
Proof.
  split; [lia|]. exact (format_2f_int 80 ltac:(lia)).
Defined.

(** ** The text on the page *)

(** X20.  The fallback values are shown like any other number: with a
    running time of 0 the page reads "0.00 km/h" whatever the distance, and
    with a goal of 0 the progress reads "0.00%", for the calories whatever
    was burned and for the steps whatever was walked. *)
Theorem fallbacks_shown `{Runtime} (w : World) (m : Metrics) :
  compute_metrics w = Ok m ->
  (running_time w = 0 ->
   In "**Running Speed:** 0.00 km/h" (map text_of (fst (run w)))) /\
  (goal_calories w = 0 ->
   In "**Calories Progress:** 0.00%" (map text_of (fst (run w)))) /\
  (goal_steps w = 0 ->
   In "**Steps Progress:** 0.00%" (map text_of (fst (run w)))).
Proof.
  intros Hm.
  destruct (page_before_report_spec w m) as (added & E & _).
  assert (K : forall line,
             In line (metric_lines m) \/ In line (progress_lines w m) ->
             In (text_of line) (map text_of (fst (run w)))).
  { intros line Hin. apply in_map. apply (page_kept w m line Hm).
    rewrite E, !in_app_iff. tauto. }
  split; [|split].
  - intros Ht.
    assert (Sp : speed m = Int 0).
    { unfold compute_metrics in Hm.
      destruct (predict_calories _ _ _ _ _ _ _ _); [|discriminate].
      cbn [Py.bind] in Hm.
      destruct (calculate_bmi _ _); [|discriminate]. cbn [Py.bind] in Hm.
      destruct (calculate_workout_intensity _ _); [|discriminate].
      cbn [Py.bind] in Hm. rewrite Ht in Hm.
      cbn [calculate_running_speed Z.gtb Z.compare Py.bind] in Hm.
      now injection Hm as <-. }
    change "**Running Speed:** 0.00 km/h"
      with (text_of (st_write "**Running Speed:** {:.2f} km/h"
                              [Fixed2 (Int 0)])).
    apply K. left. unfold metric_lines. rewrite Sp. cbn [In]. tauto.
  - intros Hg.
    change "**Calories Progress:** 0.00%"
      with (text_of (st_write "**Calories Progress:** {:.2f}%"
                              [Fixed2 (Int 0)])).
    apply K. right. unfold progress_lines, calories_progress. rewrite Hg.
    cbn [Z.gtb Z.compare In]. tauto.
  - intros Hg.
    change "**Steps Progress:** 0.00%"
      with (text_of (st_write "**Steps Progress:** {:.2f}%"
                              [Fixed2 (Int 0)])).
    apply K. right. unfold progress_lines, progress. rewrite Hg.
    cbn [Z.gtb Z.compare In]. tauto.
Qed.

Lemma fallbacks_shown_witness :
  running_time idle_world = 0 /\
  In "**Running Speed:** 0.00 km/h"
     (map text_of (fst (@run reference_runtime idle_world))).
Proof.
  split; [reflexivity|].
  assert (Hm : @compute_metrics reference_runtime idle_world
               = Ok {| calories_burned := 360%float;
                       bmi := 0x1.838b129a21a94p+4%float;
                       intensity := 0x1.4834834834834p+5%float;
                       speed := Int 0;
                       bmi_category := "Normal";
                       suggestion_text :=
                         "Maintain current routine. Keep up the good work!" |})
    by (vm_compute; reflexivity).
  exact (proj1 (@fallbacks_shown reference_runtime idle_world _ Hm) eq_refl).
Defined.

(** ** The default page and report, as text *)

Example default_page_text :
  map text_of (fst (@run reference_runtime default_world))
  = [ "SMARTFIT AI - Personal Fitness Tracker";
      "Your Fitness Metrics";
      "**Calories Burned:** 390.00";
      "**BMI:** 24.22 (Normal)";
      "**Workout Intensity:** 41.03%";
      "**Running Speed:** 10.00 km/h";
      "**Fitness Suggestion:** Maintain current routine. Keep up the good work!";
      "Progress";
      "**Calories Progress:** 78.00%";
      "**Steps Progress:** 40.00%";
      "Dataset 'calories_burned_data.csv' not found for plotting." ].
Proof. vm_compute. reflexivity. Qed.

Example default_report_text :
  (m <- @compute_metrics reference_runtime default_world ;;
   Ok (map (fun cell => f_string (fst cell) (snd cell))
           (report_cells default_world m)))%py
  = Ok [ "SMARTFIT AI - Fitness Report";
         "Date: 2024-01-01 00:00:00";
         "------------------------------";
         "Age: 25";
         "Gender: Female";
         "Height: 170 cm";
         "Weight: 70 kg";
         "Calories Burned: 390.00";
         "BMI: 24.22 (Normal)";
         "Workout Intensity: 41.03%";
         "Running Speed: 10.00 km/h";
         "Fitness Suggestion: Maintain current routine. Keep up the good work!" ].
Proof. vm_compute. reflexivity. Qed.

(** Ties go to the even hundredth, on the exact binary value. *)
Example format_2f_ties :
  map format_float [0.125%float; 0.375%float; 0x1.5666666666666p+1%float;
                    (-0x1.0624dd2f1a9fcp-10)%float; nan; neg_infinity]
  = ["0.12"; "0.38"; "2.67"; "-0.00"; "nan"; "-inf"].
Proof. vm_compute. reflexivity. Qed.
